(** * A shallow embedding of the segregated-list allocator of [mm.c]

    The allocator stores every pointer in an [unsigned int] and keeps the
    predecessor and successor links of a free block four bytes apart, so it
    is written for an ILP32 target: [size_t], [unsigned int] and pointers are
    32 bits wide.  Memory is one flat little-endian byte array; block
    "pointers" are the byte addresses the C code computes.

    - [size_t] / [unsigned int] arithmetic wraps modulo 2^32 ([wrap32]);
    - [int] variables hold the two's complement reading of a word ([to_int]);
    - pointer arithmetic is not wrapped (C leaves a pointer that runs out of
      its object undefined), addresses are plain integers;
    - the two loops that follow free-list links are given fuel and return
      [None] when the fuel runs out, which is how a walk along a cyclic list
      shows up in the model. *)

From Stdlib Require Import ZArith List Bool Lia.
Import ListNotations.
Local Open Scope Z_scope.

(** ** Machine words *)

Definition wrap32 (z : Z) : Z := z mod 2 ^ 32.

Definition to_int (z : Z) : Z :=
  if wrap32 z <? 2 ^ 31 then wrap32 z else wrap32 z - 2 ^ 32.

(** ** Constants of [mm.c] *)

Definition NULL : Z := 0.
Definition ALIGNMENT : Z := 8.
Definition WSIZE : Z := 4.
Definition DSIZE : Z := 8.
Definition INITCHUNKSIZE : Z := Z.shiftl 1 6.
Definition CHUNKSIZE : Z := Z.shiftl 1 12.
Definition LISTLIMIT : Z := 20.
Definition REALLOC_BUFFER : Z := Z.shiftl 1 7.

(** [ALIGN(size)] on a [size_t]: [((size) + (ALIGNMENT-1)) & ~0x7]. *)
Definition ALIGN (size : Z) : Z :=
  Z.land (wrap32 (size + (ALIGNMENT - 1))) (Z.lnot 7).

Definition MAX (x y : Z) : Z := if x >? y then x else y.
Definition MIN (x y : Z) : Z := if x <? y then x else y.

Definition PACK (size alloc : Z) : Z := Z.lor size alloc.

(** ** Memory *)

Definition memory := Z -> Z.

Definition byte_at (m : memory) (a : Z) : Z := m a mod 256.

(** [GET(p)]: the [unsigned int] stored at [p], little-endian. *)
Definition GET (m : memory) (p : Z) : Z :=
  byte_at m p + 256 * byte_at m (p + 1) + 65536 * byte_at m (p + 2)
  + 16777216 * byte_at m (p + 3).

(** [PUT_NOTAG(p, val)]: store the low 32 bits of [val] at [p]. *)
Definition PUT_NOTAG (m : memory) (p val : Z) : memory :=
  fun a =>
    if a =? p then val mod 256
    else if a =? p + 1 then (val / 256) mod 256
    else if a =? p + 2 then (val / 65536) mod 256
    else if a =? p + 3 then (val / 16777216) mod 256
    else m a.

(** [SET_PTR(p, ptr)]: store [(unsigned int)(ptr)] at [p]. *)
Definition SET_PTR (m : memory) (p ptr : Z) : memory := PUT_NOTAG m p ptr.

Definition GET_SIZE (m : memory) (p : Z) : Z := Z.land (GET m p) (Z.lnot 7).
Definition GET_ALLOC (m : memory) (p : Z) : Z := Z.land (GET m p) 1.

Definition HDRP (ptr : Z) : Z := ptr - WSIZE.
Definition FTRP (m : memory) (ptr : Z) : Z := ptr + GET_SIZE m (HDRP ptr) - DSIZE.

Definition NEXT_BLKP (m : memory) (ptr : Z) : Z := ptr + GET_SIZE m (ptr - WSIZE).
Definition PREV_BLKP (m : memory) (ptr : Z) : Z := ptr - GET_SIZE m (ptr - DSIZE).

Definition PRED_PTR (ptr : Z) : Z := ptr.
Definition SUCC_PTR (ptr : Z) : Z := ptr + WSIZE.

Definition PRED (m : memory) (ptr : Z) : Z := GET m ptr.
Definition SUCC (m : memory) (ptr : Z) : Z := GET m (SUCC_PTR ptr).

(** [memcpy(dst, src, n)] for regions that do not overlap. *)
Definition memcpy (m : memory) (dst src n : Z) : memory :=
  fun a => if (dst <=? a) && (a <? dst + n) then byte_at m (src + (a - dst)) else m a.

(** ** Allocator state

    [mem] is the heap arena, [segregated_free_lists] the global array of
    [LISTLIMIT] bucket heads (every index the code computes is below
    [LISTLIMIT]), and the three addresses are the ones [memlib] keeps. *)

Record heap : Type := mkHeap {
  mem : memory;
  segregated_free_lists : Z -> Z;
  mem_start_brk : Z;
  mem_brk : Z;
  mem_max_addr : Z
}.

Definition set_mem (st : heap) (m : memory) : heap :=
  mkHeap m (segregated_free_lists st) (mem_start_brk st) (mem_brk st) (mem_max_addr st).

Definition set_list (st : heap) (list v : Z) : heap :=
  mkHeap (mem st)
         (fun k => if k =? list then v else segregated_free_lists st k)
         (mem_start_brk st) (mem_brk st) (mem_max_addr st).

(** Modelled from the spec: [mem_sbrk] of [memlib.c], which is not among the
    sources.  Section 6 describes the host primitive: it grows the heap high
    watermark by [incr] bytes and returns a pointer to the first newly added
    byte, or the failure sentinel [(void * )-1] when the heap cannot grow. *)
Definition SBRK_FAIL : Z := wrap32 (-1).

Definition mem_sbrk (st : heap) (incr : Z) : heap * Z :=
  if mem_brk st + incr <=? mem_max_addr st
  then (mkHeap (mem st) (segregated_free_lists st) (mem_start_brk st)
               (mem_brk st + incr) (mem_max_addr st), mem_brk st)
  else (st, SBRK_FAIL).

(** ** The segregated index *)

(** The bucket-selection loop shared by [insert_node] and [delete_node]:
    [while ((list < LISTLIMIT - 1) && (size > 1)) { size >>= 1; list++; }].
    The counter [n] bounds the number of iterations; [LISTLIMIT] of them are
    never all used because [list] starts at 0. *)
Fixpoint select_list (n : nat) (list size : Z) : Z * Z :=
  match n with
  | O => (list, size)
  | S n' =>
      if (list <? LISTLIMIT - 1) && (size >? 1)
      then select_list n' (list + 1) (Z.shiftr size 1)
      else (list, size)
  end.

Definition seg_index (size : Z) : Z := fst (select_list 20 0 size).
Definition seg_shifted (size : Z) : Z := snd (select_list 20 0 size).

(** The search loop of [insert_node]:
    [while ((search_ptr != NULL) && (size > GET_SIZE(HDRP(search_ptr))))]. *)
Fixpoint insert_search (fuel : nat) (m : memory) (size search_ptr insert_ptr : Z)
  : option (Z * Z) :=
  match fuel with
  | O => None
  | S fuel' =>
      if negb (search_ptr =? NULL) && (size >? GET_SIZE m (HDRP search_ptr))
      then insert_search fuel' m size (PRED m search_ptr) search_ptr
      else Some (search_ptr, insert_ptr)
  end.

Definition insert_node (fuel : nat) (st : heap) (ptr size : Z) : option heap :=
  let list := seg_index size in
  (* the loop above has shifted [size]; the search compares the shifted value *)
  let size := seg_shifted size in
  match insert_search fuel (mem st) size (segregated_free_lists st list) NULL with
  | None => None
  | Some (search_ptr, insert_ptr) =>
      let m := mem st in
      if negb (search_ptr =? NULL) then
        if negb (insert_ptr =? NULL) then
          let m := SET_PTR m (PRED_PTR ptr) search_ptr in
          let m := SET_PTR m (SUCC_PTR search_ptr) ptr in
          let m := SET_PTR m (SUCC_PTR ptr) insert_ptr in
          let m := SET_PTR m (PRED_PTR insert_ptr) ptr in
          Some (set_mem st m)
        else
          let m := SET_PTR m (PRED_PTR ptr) search_ptr in
          let m := SET_PTR m (SUCC_PTR search_ptr) ptr in
          let m := SET_PTR m (SUCC_PTR ptr) NULL in
          Some (set_list (set_mem st m) list ptr)
      else
        if negb (insert_ptr =? NULL) then
          let m := SET_PTR m (PRED_PTR ptr) NULL in
          let m := SET_PTR m (SUCC_PTR ptr) insert_ptr in
          let m := SET_PTR m (PRED_PTR insert_ptr) ptr in
          Some (set_mem st m)
        else
          let m := SET_PTR m (PRED_PTR ptr) NULL in
          let m := SET_PTR m (SUCC_PTR ptr) NULL in
          Some (set_list (set_mem st m) list ptr)
  end.

Definition delete_node (st : heap) (ptr : Z) : heap :=
  let m := mem st in
  let list := seg_index (GET_SIZE m (HDRP ptr)) in
  if negb (PRED m ptr =? NULL) then
    if negb (SUCC m ptr =? NULL) then
      let m := SET_PTR m (SUCC_PTR (PRED m ptr)) (SUCC m ptr) in
      let m := SET_PTR m (PRED_PTR (SUCC m ptr)) (PRED m ptr) in
      set_mem st m
    else
      let m := SET_PTR m (SUCC_PTR (PRED m ptr)) NULL in
      set_list (set_mem st m) list (PRED m ptr)
  else
    if negb (SUCC m ptr =? NULL) then
      let m := SET_PTR m (PRED_PTR (SUCC m ptr)) NULL in
      set_mem st m
    else
      set_list st list NULL.

(** ** Coalescing, placement, heap extension *)

Definition coalesce (fuel : nat) (st : heap) (ptr : Z) : option (heap * Z) :=
  let m := mem st in
  let prev_alloc := GET_ALLOC m (HDRP (PREV_BLKP m ptr)) in
  let next_alloc := GET_ALLOC m (HDRP (NEXT_BLKP m ptr)) in
  let size := GET_SIZE m (HDRP ptr) in
  if negb (prev_alloc =? 0) && negb (next_alloc =? 0) then      (* Case 1 *)
    Some (st, ptr)
  else if negb (prev_alloc =? 0) && (next_alloc =? 0) then      (* Case 2 *)
    let st := delete_node st ptr in
    let st := delete_node st (NEXT_BLKP (mem st) ptr) in
    let m := mem st in
    let size := wrap32 (size + GET_SIZE m (HDRP (NEXT_BLKP m ptr))) in
    let m := PUT_NOTAG m (HDRP ptr) (PACK size 0) in
    let m := PUT_NOTAG m (FTRP m ptr) (PACK size 0) in
    match insert_node fuel (set_mem st m) ptr size with
    | None => None
    | Some st => Some (st, ptr)
    end
  else if (prev_alloc =? 0) && negb (next_alloc =? 0) then      (* Case 3 *)
    let st := delete_node st ptr in
    let st := delete_node st (PREV_BLKP (mem st) ptr) in
    let m := mem st in
    let size := wrap32 (size + GET_SIZE m (HDRP (PREV_BLKP m ptr))) in
    let m := PUT_NOTAG m (FTRP m ptr) (PACK size 0) in
    let m := PUT_NOTAG m (HDRP (PREV_BLKP m ptr)) (PACK size 0) in
    let ptr := PREV_BLKP m ptr in
    match insert_node fuel (set_mem st m) ptr size with
    | None => None
    | Some st => Some (st, ptr)
    end
  else                                                          (* Case 4 *)
    let st := delete_node st ptr in
    let st := delete_node st (PREV_BLKP (mem st) ptr) in
    let st := delete_node st (NEXT_BLKP (mem st) ptr) in
    let m := mem st in
    let size := wrap32 (size + GET_SIZE m (HDRP (PREV_BLKP m ptr))
                        + GET_SIZE m (HDRP (NEXT_BLKP m ptr))) in
    let m := PUT_NOTAG m (HDRP (PREV_BLKP m ptr)) (PACK size 0) in
    let m := PUT_NOTAG m (FTRP m (NEXT_BLKP m ptr)) (PACK size 0) in
    let ptr := PREV_BLKP m ptr in
    match insert_node fuel (set_mem st m) ptr size with
    | None => None
    | Some st => Some (st, ptr)
    end.

Definition place (fuel : nat) (st : heap) (ptr asize : Z) : option (heap * Z) :=
  let ptr_size := GET_SIZE (mem st) (HDRP ptr) in
  let remainder := wrap32 (ptr_size - asize) in
  let st := delete_node st ptr in
  let m := mem st in
  if remainder <=? DSIZE * 2 then
    (* Do not split block *)
    let m := PUT_NOTAG m (HDRP ptr) (PACK ptr_size 1) in
    let m := PUT_NOTAG m (FTRP m ptr) (PACK ptr_size 1) in
    Some (set_mem st m, ptr)
  else if asize >=? 73 then
    (* Split block, the free remainder first *)
    let m := PUT_NOTAG m (HDRP ptr) (PACK remainder 0) in
    let m := PUT_NOTAG m (FTRP m ptr) (PACK remainder 0) in
    let m := PUT_NOTAG m (HDRP (NEXT_BLKP m ptr)) (PACK asize 1) in
    let m := PUT_NOTAG m (FTRP m (NEXT_BLKP m ptr)) (PACK asize 1) in
    match insert_node fuel (set_mem st m) ptr remainder with
    | None => None
    | Some st => Some (st, NEXT_BLKP (mem st) ptr)
    end
  else
    (* Split block, the allocated part first *)
    let m := PUT_NOTAG m (HDRP ptr) (PACK asize 1) in
    let m := PUT_NOTAG m (FTRP m ptr) (PACK asize 1) in
    let m := PUT_NOTAG m (HDRP (NEXT_BLKP m ptr)) (PACK remainder 0) in
    let m := PUT_NOTAG m (FTRP m (NEXT_BLKP m ptr)) (PACK remainder 0) in
    match insert_node fuel (set_mem st m) (NEXT_BLKP m ptr) remainder with
    | None => None
    | Some st => Some (st, ptr)
    end.

Definition extend_heap (fuel : nat) (st : heap) (size : Z) : option (heap * Z) :=
  let asize := ALIGN size in
  let '(st, ptr) := mem_sbrk st asize in
  if ptr =? SBRK_FAIL then Some (st, NULL)
  else
    let m := mem st in
    let m := PUT_NOTAG m (HDRP ptr) (PACK asize 0) in
    let m := PUT_NOTAG m (FTRP m ptr) (PACK asize 0) in
    let m := PUT_NOTAG m (HDRP (NEXT_BLKP m ptr)) (PACK 0 1) in
    match insert_node fuel (set_mem st m) ptr asize with
    | None => None
    | Some st => coalesce fuel st ptr
    end.

(** ** The public operations *)

(** [mm_init] returns 0, or -1 when the heap cannot be set up. *)
Definition mm_init (fuel : nat) (st : heap) : option (heap * Z) :=
  (* for (list = 0; list < LISTLIMIT; list++) segregated_free_lists[list] = NULL; *)
  let st := mkHeap (mem st)
                   (fun k => if (0 <=? k) && (k <? LISTLIMIT) then NULL
                             else segregated_free_lists st k)
                   (mem_start_brk st) (mem_brk st) (mem_max_addr st) in
  let '(st, heap_start) := mem_sbrk st (4 * WSIZE) in
  if heap_start =? SBRK_FAIL then Some (st, -1)
  else
    let m := mem st in
    let m := PUT_NOTAG m heap_start 0 in
    let m := PUT_NOTAG m (heap_start + 1 * WSIZE) (PACK DSIZE 1) in
    let m := PUT_NOTAG m (heap_start + 2 * WSIZE) (PACK DSIZE 1) in
    let m := PUT_NOTAG m (heap_start + 3 * WSIZE) (PACK 0 1) in
    match extend_heap fuel (set_mem st m) INITCHUNKSIZE with
    | None => None
    | Some (st, p) => if p =? NULL then Some (st, -1) else Some (st, 0)
    end.

(** The walk inside one bucket:
    [while ((ptr != NULL) && ((asize > GET_SIZE(HDRP(ptr))))) ptr = PRED(ptr);] *)
Fixpoint fit_walk (fuel : nat) (m : memory) (asize ptr : Z) : option Z :=
  match fuel with
  | O => None
  | S fuel' =>
      if negb (ptr =? NULL) && (asize >? GET_SIZE m (HDRP ptr))
      then fit_walk fuel' m asize (PRED m ptr)
      else Some ptr
  end.

(** The bucket loop of [mm_malloc], [while (list < LISTLIMIT)]; [n] bounds
    the iterations that are left, [ptr] is the local of the same name. *)
Fixpoint find_fit (n fuel : nat) (st : heap) (asize list searchsize ptr : Z)
  : option Z :=
  match n with
  | O => Some ptr
  | S n' =>
      if list <? LISTLIMIT then
        if (list =? LISTLIMIT - 1)
           || ((searchsize <=? 1) && negb (segregated_free_lists st list =? NULL))
        then
          match fit_walk fuel (mem st) asize (segregated_free_lists st list) with
          | None => None
          | Some ptr =>
              if negb (ptr =? NULL) then Some ptr
              else find_fit n' fuel st asize (list + 1) (Z.shiftr searchsize 1) ptr
          end
        else find_fit n' fuel st asize (list + 1) (Z.shiftr searchsize 1) ptr
      else Some ptr
  end.

(** The adjusted block size of [mm_malloc] and [mm_realloc]. *)
Definition adjust (size : Z) : Z :=
  if size <=? DSIZE then 2 * DSIZE else ALIGN (wrap32 (size + DSIZE)).

Definition mm_malloc (fuel : nat) (st : heap) (size : Z) : option (heap * Z) :=
  if size =? 0 then Some (st, NULL)
  else
    let asize := adjust size in
    match find_fit 21 fuel st asize 0 asize NULL with
    | None => None
    | Some ptr =>
        if ptr =? NULL then
          let extendsize := MAX asize CHUNKSIZE in
          match extend_heap fuel st extendsize with
          | None => None
          | Some (st, ptr) =>
              if ptr =? NULL then Some (st, NULL) else place fuel st ptr asize
          end
        else place fuel st ptr asize
    end.

Definition mm_free (fuel : nat) (st : heap) (ptr : Z) : option heap :=
  let m := mem st in
  let size := GET_SIZE m (HDRP ptr) in
  let m := PUT_NOTAG m (HDRP ptr) (PACK size 0) in
  let m := PUT_NOTAG m (FTRP m ptr) (PACK size 0) in
  match insert_node fuel (set_mem st m) ptr size with
  | None => None
  | Some st =>
      match coalesce fuel st ptr with
      | None => None
      | Some (st, _) => Some st
      end
  end.

(** [mm_realloc].  [remainder], [extendsize] and [block_buffer] are [int]s.
    When [mm_malloc] fails the C program runs [memcpy] on a [NULL]
    destination; the flat memory of the model lets that store happen, and no
    statement below rests on that path. *)
Definition mm_realloc (fuel : nat) (st : heap) (ptr size : Z) : option (heap * Z) :=
  if size =? 0 then Some (st, NULL)
  else
    let new_size := wrap32 (adjust size + REALLOC_BUFFER) in
    let m := mem st in
    let block_buffer := to_int (GET_SIZE m (HDRP ptr) - new_size) in
    if block_buffer <? 0 then
      if (GET_ALLOC m (HDRP (NEXT_BLKP m ptr)) =? 0)
         || (GET_SIZE m (HDRP (NEXT_BLKP m ptr)) =? 0)
      then
        let remainder :=
          to_int (GET_SIZE m (HDRP ptr) + GET_SIZE m (HDRP (NEXT_BLKP m ptr)) - new_size) in
        let grown :=
          if remainder <? 0 then
            let extendsize := MAX (to_int (- remainder)) CHUNKSIZE in
            match extend_heap fuel st (wrap32 extendsize) with
            | None => None
            | Some (st, p) =>
                if p =? NULL then Some (st, None)
                else Some (st, Some (to_int (remainder + extendsize)))
            end
          else Some (st, Some remainder) in
        match grown with
        | None => None
        | Some (st, None) => Some (st, NULL)
        | Some (st, Some remainder) =>
            let st := delete_node st (NEXT_BLKP (mem st) ptr) in
            let m := mem st in
            (* Do not split block *)
            let m := PUT_NOTAG m (HDRP ptr) (PACK (wrap32 (new_size + remainder)) 1) in
            let m := PUT_NOTAG m (FTRP m ptr) (PACK (wrap32 (new_size + remainder)) 1) in
            Some (set_mem st m, ptr)
        end
      else
        match mm_malloc fuel st (wrap32 (new_size - DSIZE)) with
        | None => None
        | Some (st, new_ptr) =>
            let m := memcpy (mem st) new_ptr ptr (MIN size new_size) in
            match mm_free fuel (set_mem st m) ptr with
            | None => None
            | Some st => Some (st, new_ptr)
            end
        end
    else Some (st, ptr).

(** ** Reading the heap

    [heap_blocks] walks the blocks from payload [p] along [NEXT_BLKP] up to
    the first header of size 0 (the epilogue) and lists, for each block, its
    payload address, size and allocation bit. *)
Fixpoint heap_blocks (fuel : nat) (m : memory) (p : Z) : list (Z * Z * Z) :=
  match fuel with
  | O => []
  | S fuel' =>
      if GET_SIZE m (HDRP p) =? 0 then []
      else (p, GET_SIZE m (HDRP p), GET_ALLOC m (HDRP p))
             :: heap_blocks fuel' m (NEXT_BLKP m p)
  end.

(** Two blocks next to each other in the walk are both free. *)
Fixpoint adjacent_free (bs : list (Z * Z * Z)) : bool :=
  match bs with
  | (_, _, a1) :: (((_, _, a2) :: _) as rest) =>
      ((a1 =? 0) && (a2 =? 0)) || adjacent_free rest
  | _ => false
  end.

(** The payload address of the first block after the prologue. *)
Definition first_block (st : heap) : Z := mem_start_brk st + 4 * WSIZE.

(** The block sizes of one bucket, from the head along [PRED] links. *)
Fixpoint bucket_sizes (fuel : nat) (m : memory) (p : Z) : list Z :=
  match fuel with
  | O => []
  | S fuel' =>
      if p =? NULL then [] else GET_SIZE m (HDRP p) :: bucket_sizes fuel' m (PRED m p)
  end.

Fixpoint ascending (l : list Z) : bool :=
  match l with
  | x :: ((y :: _) as rest) => (x <=? y) && ascending rest
  | _ => true
  end.

(** The caller storing a word into a payload it owns. *)
Definition client_store (st : heap) (a v : Z) : heap :=
  set_mem st (PUT_NOTAG (mem st) a v).

(** ** Well-formed segregated lists

    [lseg m succ p nodes q]: starting at [p] and following [PRED] links one
    meets exactly [nodes] and arrives at [q]; the [SUCC] link of every node
    points back at the node before it ([succ] for the first one).  A bucket
    is a segment that ends in [NULL]. *)
Fixpoint lseg (m : memory) (succ p : Z) (nodes : list Z) (q : Z) : Prop :=
  match nodes with
  | [] => p = q
  | n :: rest => p = n /\ SUCC m n = succ /\ lseg m n (PRED m n) rest q
  end.

Definition chain (m : memory) (succ p : Z) (nodes : list Z) : Prop :=
  lseg m succ p nodes NULL.

(** The blocks at payloads [a] and [b] do not overlap. *)
Definition disjoint_blocks (m : memory) (a b : Z) : Prop :=
  a + GET_SIZE m (HDRP a) <= b \/ b + GET_SIZE m (HDRP b) <= a.

Definition upd_bucket (L : Z -> list Z) (k : Z) (l : list Z) : Z -> list Z :=
  fun k' => if k' =? k then l else L k'.

(** [seg_ok st L]: bucket [k] of the index is the doubly linked list of the
    nodes [L k]; every node is a block of at least the minimum size (4 words)
    filed under the index of its size, and the blocks of different nodes do
    not overlap. *)
Record seg_ok (st : heap) (L : Z -> list Z) : Prop := mk_seg_ok {
  ok_chain : forall k, 0 <= k < LISTLIMIT ->
      chain (mem st) NULL (segregated_free_lists st k) (L k);
  ok_node : forall k n, In n (L k) ->
      0 <= k < LISTLIMIT /\ 0 < n < 2 ^ 32 /\
      2 * DSIZE <= GET_SIZE (mem st) (HDRP n) /\
      seg_index (GET_SIZE (mem st) (HDRP n)) = k;
  ok_nodup : forall k, NoDup (L k);
  ok_disjoint : forall k1 k2 n1 n2, In n1 (L k1) -> In n2 (L k2) -> n1 <> n2 ->
      disjoint_blocks (mem st) n1 n2
}.

(** ** Concrete heaps for the examples

    A zero-filled arena of 20 MiB at address 1000, and call sequences on it;
    [None] stands for a walk that ran out of fuel. *)
Definition bind {A B : Type} (c : option A) (k : A -> option B) : option B :=
  match c with
  | Some a => k a
  | None => None
  end.

Notation "' p <- c ;; k" := (bind c (fun x => let p := x in k))
  (at level 61, p pattern, c at next level, right associativity).

Definition arena : heap :=
  mkHeap (fun _ => 0) (fun _ => NULL) 1000 1000 (1000 + 20 * 2 ^ 20).

(** [mm_init()] *)
Definition heap_init : option heap :=
  '(st, _) <- mm_init 100 arena ;; Some st.

(** [mm_init(); extend_heap(CHUNKSIZE)]: one free block of 4160 bytes. *)
Definition heap_chunk : option heap :=
  ' st <- heap_init ;;
  '(st, _) <- extend_heap 100 st CHUNKSIZE ;; Some st.

(** [a = malloc(8); g = malloc(8); h = malloc(24); b = malloc(16);
    g2 = malloc(8); free(a)] after [mm_init()]; [b] is the block at 1080. *)
Definition heap_one_free : option heap :=
  ' st <- heap_init ;;
  '(st, a) <- mm_malloc 100 st 8 ;;
  '(st, g) <- mm_malloc 100 st 8 ;;
  '(st, h) <- mm_malloc 100 st 24 ;;
  '(st, b) <- mm_malloc 100 st 16 ;;
  '(st, g2) <- mm_malloc 100 st 8 ;;
  mm_free 100 st a.

(** [a = malloc(8); b = malloc(4072); t = malloc(56); x = malloc(8);
    y = malloc(8); z = malloc(8); w = malloc(8); free(x); free(z); free(y);
    free(t)] after [mm_init()]; [a] is the block at 1016. *)
Definition heap_before_grow : option heap :=
  ' st <- heap_init ;;
  '(st, a) <- mm_malloc 100 st 8 ;;
  '(st, b) <- mm_malloc 100 st 4072 ;;
  '(st, t) <- mm_malloc 100 st 56 ;;
  '(st, x) <- mm_malloc 100 st 8 ;;
  '(st, y) <- mm_malloc 100 st 8 ;;
  '(st, z) <- mm_malloc 100 st 8 ;;
  '(st, w) <- mm_malloc 100 st 8 ;;
  ' st <- mm_free 100 st x ;;
  ' st <- mm_free 100 st z ;;
  ' st <- mm_free 100 st y ;;
  mm_free 100 st t.

(** [v1 = malloc(64); v2 = malloc(56); p = malloc(8); u1 = malloc(64);
    u2 = malloc(64); free(v1); free(v2)] after [mm_init()], and then the
    caller's stores into its live payloads [p] (at 1152), [u1] (at 1168) and
    [u2] (at 1240). *)
Definition heap_before_move : option heap :=
  ' st <- heap_init ;;
  '(st, v1) <- mm_malloc 100 st 64 ;;
  '(st, v2) <- mm_malloc 100 st 56 ;;
  '(st, p) <- mm_malloc 100 st 8 ;;
  '(st, u1) <- mm_malloc 100 st 64 ;;
  '(st, u2) <- mm_malloc 100 st 64 ;;
  ' st <- mm_free 100 st v1 ;;
  ' st <- mm_free 100 st v2 ;;
  let st := client_store st p 2880154539 in
  let st := client_store st (p + 4) 2880154539 in
  let st := client_store st (u1 + 4) 0 in
  let st := client_store st (u1 + 8) 0 in
  let st := client_store st (u1 + 12) v1 in
  let st := client_store st (u2 + 40) 112 in
  let st := client_store st (u2 + 44) 17 in
  Some st.

(** The heap a call sequence ends in (the untouched arena if it ran out of
    fuel, which none of the sequences above does). *)
Definition state_of (o : option heap) : heap :=
  match o with
  | Some st => st
  | None => arena
  end.

(** The nodes of the index in two of these heaps. *)
Definition index_chunk : Z -> list Z := fun k => if k =? 12 then [1016] else [].
Definition index_one_free : Z -> list Z :=
  fun k => if k =? 4 then [1016] else if k =? 11 then [1120] else [].

(** ** Well-formed heaps

    A block is given by its payload address, its size and its allocation
    bit.  [tiles m p bs q]: the blocks [bs] lie one behind the other from
    payload address [p] to payload address [q]; each is at least 4 words
    long, a multiple of 8, and carries its size and allocation bit in its
    header and in its footer. *)

Fixpoint tiles (m : memory) (p : Z) (bs : list (Z * Z * Z)) (q : Z) : Prop :=
  match bs with
  | [] => p = q
  | (n, s, a) :: rest =>
      n = p /\ 2 * DSIZE <= s /\ s mod 8 = 0 /\ (a = 0 \/ a = 1) /\
      GET m (HDRP n) = PACK s a /\ GET m (n + s - DSIZE) = PACK s a /\
      tiles m (n + s) rest q
  end.

(** The allocation bit of the first and of the last block of a run, read
    as allocated when there is none (the prologue and the epilogue are). *)
Definition alloc_of (b : Z * Z * Z) : Z := snd b.
Definition sentinel : Z * Z * Z := (0, 0, 1).
Definition first_alloc (bs : list (Z * Z * Z)) : Z := alloc_of (hd sentinel bs).
Definition last_alloc (bs : list (Z * Z * Z)) : Z := alloc_of (last bs sentinel).

(** The payload addresses held by the index. *)
Definition listed (L : Z -> list Z) (n : Z) : Prop := exists k, In n (L k).

(** [heap_core st bs]: the arena is laid out as padding, prologue, the
    blocks [bs] and the epilogue header at the break. *)
Record heap_core (st : heap) (bs : list (Z * Z * Z)) : Prop := mk_heap_core {
  hc_start : 0 < mem_start_brk st /\ mem_start_brk st mod 8 = 0;
  hc_max : mem_brk st <= mem_max_addr st /\ mem_max_addr st < 2 ^ 32;
  hc_prologue : GET (mem st) (mem_start_brk st + 1 * WSIZE) = PACK DSIZE 1 /\
                GET (mem st) (mem_start_brk st + 2 * WSIZE) = PACK DSIZE 1;
  hc_tiles : tiles (mem st) (first_block st) bs (mem_brk st);
  hc_epilogue : GET (mem st) (HDRP (mem_brk st)) = PACK 0 1
}.

(** [heap_pre st bs L]: moreover the index [L] is well formed and holds
    free blocks of [bs] only. *)
Record heap_pre (st : heap) (bs : list (Z * Z * Z)) (L : Z -> list Z) : Prop := mk_heap_pre {
  hp_core : heap_core st bs;
  hp_index : seg_ok st L;
  hp_listed : forall n, listed L n -> exists s, In (n, s, 0) bs
}.

(** [heap_ok st bs L]: in addition every free block is in the index and no
    two neighbouring blocks are free. *)
Record heap_ok (st : heap) (bs : list (Z * Z * Z)) (L : Z -> list Z) : Prop := mk_heap_ok {
  hk_pre : heap_pre st bs L;
  hk_free : forall n s, In (n, s, 0) bs -> listed L n;
  hk_coalesced : adjacent_free bs = false
}.

(** The blocks of the heap [heap_one_free], from the prologue to the
    epilogue. *)
Definition blocks_one_free : list (Z * Z * Z) :=
  [(1016, 16, 0); (1032, 16, 1); (1048, 32, 1); (1080, 24, 1); (1104, 16, 1);
   (1120, 4056, 0)].

(** [x = malloc(56); b1 = malloc(8); g1 = malloc(8); b2 = malloc(8);
    g2 = malloc(8); b3 = malloc(8); g3 = malloc(8); free(b1); free(b2);
    free(b3)] after [mm_init()]: three free blocks of 16 bytes, at 1080, 1112
    and 1144, each between two allocated blocks, and the free rest of the
    chunk at 1176. *)
Definition heap_three_free : option heap :=
  ' st <- heap_init ;;
  '(st, x) <- mm_malloc 100 st 56 ;;
  '(st, b1) <- mm_malloc 100 st 8 ;;
  '(st, g1) <- mm_malloc 100 st 8 ;;
  '(st, b2) <- mm_malloc 100 st 8 ;;
  '(st, g2) <- mm_malloc 100 st 8 ;;
  '(st, b3) <- mm_malloc 100 st 8 ;;
  '(st, g3) <- mm_malloc 100 st 8 ;;
  ' st <- mm_free 100 st b1 ;;
  ' st <- mm_free 100 st b2 ;;
  mm_free 100 st b3.

Definition blocks_three_free : list (Z * Z * Z) :=
  [(1016, 64, 1); (1080, 16, 0); (1096, 16, 1); (1112, 16, 0); (1128, 16, 1);
   (1144, 16, 0); (1160, 16, 1); (1176, 4000, 0)].

Definition index_three_free : Z -> list Z :=
  fun k => if k =? 4 then [1144; 1112; 1080] else if k =? 11 then [1176] else [].

(** The heap [heap_three_free] inside [mm_free(g1)], [g1] being the block
    at 1096 between the free blocks at 1080 and 1112: header and footer are
    tagged free and the block is in the index, [coalesce] has not run yet. *)
Definition heap_freeing : option heap :=
  ' st <- heap_three_free ;;
  let m := mem st in
  let size := GET_SIZE m (HDRP 1096) in
  let m := PUT_NOTAG m (HDRP 1096) (PACK size 0) in
  let m := PUT_NOTAG m (FTRP m 1096) (PACK size 0) in
  insert_node 100 (set_mem st m) 1096 size.

Definition blocks_freeing : list (Z * Z * Z) :=
  [(1016, 64, 1); (1080, 16, 0); (1096, 16, 0); (1112, 16, 0); (1128, 16, 1);
   (1144, 16, 0); (1160, 16, 1); (1176, 4000, 0)].

Definition index_freeing : Z -> list Z :=
  fun k => if k =? 4 then [1096; 1144; 1112; 1080] else if k =? 11 then [1176] else [].



(** An arena of 20 MiB in the upper half of the address space, at
    [0xf7000000], and [mm_init(); a = malloc(8); b = malloc(8)] on it: [a]
    and [b] are the blocks at 4143972368 and 4143972384, a free block of 32
    bytes lies behind them. *)
Definition arena_high : heap :=
  mkHeap (fun _ => 0) (fun _ => NULL) 4143972352 4143972352 (4143972352 + 20 * 2 ^ 20).

Definition heap_high : option heap :=
  '(st, _) <- mm_init 100 arena_high ;;
  '(st, a) <- mm_malloc 100 st 8 ;;
  '(st, b) <- mm_malloc 100 st 8 ;; Some st.

Definition blocks_high : list (Z * Z * Z) :=
  [(4143972368, 16, 1); (4143972384, 16, 1); (4143972400, 32, 0)].

Definition index_high : Z -> list Z :=
  fun k => if k =? 5 then [4143972400] else [].

(** ** The reallocation tag

    The macros of [mm.c] for bit 1 of a header word.  The functions of the
    file write their tags with [PUT_NOTAG] and call none of these.

    [GET_TAG(p)], [PUT(p, val)], [SET_RATAG(p)], [REMOVE_RATAG(p)]. *)
Definition GET_TAG (m : memory) (p : Z) : Z := Z.land (GET m p) 2.

Definition PUT (m : memory) (p val : Z) : memory :=
  PUT_NOTAG m p (Z.lor val (GET_TAG m p)).

Definition SET_RATAG (m : memory) (p : Z) : memory :=
  PUT_NOTAG m p (Z.lor (GET m p) 2).

Definition REMOVE_RATAG (m : memory) (p : Z) : memory :=
  PUT_NOTAG m p (Z.land (GET m p) (Z.lnot 2)).

(** * Words, bytes and boundary tags *)


Lemma wrap32_small z : 0 <= z < 2 ^ 32 -> wrap32 z = z.
Proof. intros. unfold wrap32. apply Z.mod_small. assumption. Qed.

Lemma byte_at_range m a : 0 <= byte_at m a < 256.
Proof. unfold byte_at. apply Z.mod_pos_bound. lia. Qed.

Lemma GET_range m p : 0 <= GET m p < 2 ^ 32.
Proof.
  unfold GET.
  pose proof (byte_at_range m p). pose proof (byte_at_range m (p + 1)).
  pose proof (byte_at_range m (p + 2)). pose proof (byte_at_range m (p + 3)).
  change (2 ^ 32) with 4294967296. lia.
Qed.

Lemma PUT_NOTAG_outside m p v a :
  a < p \/ p + 4 <= a -> PUT_NOTAG m p v a = m a.
Proof.
  intros H. unfold PUT_NOTAG.
  destruct (Z.eqb_spec a p); [lia|].
  destruct (Z.eqb_spec a (p + 1)); [lia|].
  destruct (Z.eqb_spec a (p + 2)); [lia|].
  destruct (Z.eqb_spec a (p + 3)); [lia|].
  reflexivity.
Qed.

Lemma GET_PUT_NOTAG_same m p v : GET (PUT_NOTAG m p v) p = wrap32 v.
Proof.
  unfold GET, byte_at, PUT_NOTAG, wrap32.
  rewrite Z.eqb_refl.
  destruct (Z.eqb_spec (p + 1) p); [lia|]. rewrite Z.eqb_refl.
  destruct (Z.eqb_spec (p + 2) p); [lia|].
  destruct (Z.eqb_spec (p + 2) (p + 1)); [lia|]. rewrite Z.eqb_refl.
  destruct (Z.eqb_spec (p + 3) p); [lia|].
  destruct (Z.eqb_spec (p + 3) (p + 1)); [lia|].
  destruct (Z.eqb_spec (p + 3) (p + 2)); [lia|]. rewrite Z.eqb_refl.
  rewrite !Z.mod_mod by lia.
  change (2 ^ 32) with 4294967296.
  Z.div_mod_to_equations. lia.
Qed.

Lemma GET_PUT_NOTAG_other m p v q :
  q + 4 <= p \/ p + 4 <= q -> GET (PUT_NOTAG m p v) q = GET m q.
Proof.
  intros H. unfold GET, byte_at.
  rewrite !PUT_NOTAG_outside by lia. reflexivity.
Qed.

Lemma land_lnot7 x : Z.land x (Z.lnot 7) = 8 * (x / 8).
Proof.
  rewrite <- Z.ldiff_land. change 7 with (Z.ones 3).
  rewrite Z.ldiff_ones_r by lia.
  rewrite Z.shiftl_mul_pow2, Z.shiftr_div_pow2 by lia.
  change (2 ^ 3) with 8. lia.
Qed.

Lemma land_1 x : Z.land x 1 = x mod 2.
Proof. change 1 with (Z.ones 1). rewrite Z.land_ones by lia. reflexivity. Qed.

Lemma GET_SIZE_eq m p : GET_SIZE m p = 8 * (GET m p / 8).
Proof. unfold GET_SIZE. apply land_lnot7. Qed.

Lemma GET_SIZE_range m p : 0 <= GET_SIZE m p < 2 ^ 32.
Proof.
  rewrite GET_SIZE_eq. pose proof (GET_range m p).
  change (2 ^ 32) with 4294967296 in *. Z.div_mod_to_equations. lia.
Qed.

Lemma GET_SIZE_aligned m p : GET_SIZE m p mod 8 = 0.
Proof. rewrite GET_SIZE_eq. rewrite Z.mul_comm. apply Z.mod_mul. lia. Qed.

Lemma PACK_0 s : PACK s 0 = s.
Proof. unfold PACK. apply Z.lor_0_r. Qed.

Lemma PACK_1 s : s mod 8 = 0 -> PACK s 1 = s + 1.
Proof.
  intros H. unfold PACK.
  pose proof (Z.add_lor_land s 1) as E. rewrite land_1 in E.
  assert (s mod 2 = 0) by (Z.div_mod_to_equations; lia). lia.
Qed.

(** What a header or footer written with [PACK s a] reads back as. *)
Lemma tag_read m p s a :
  0 <= s < 2 ^ 32 -> s mod 8 = 0 -> a = 0 \/ a = 1 ->
  GET (PUT_NOTAG m p (PACK s a)) p = PACK s a /\
  GET_SIZE (PUT_NOTAG m p (PACK s a)) p = s /\
  GET_ALLOC (PUT_NOTAG m p (PACK s a)) p = a.
Proof.
  intros Hs Hal Ha.
  assert (Hp : PACK s a = s + a)
    by (destruct Ha; subst a; [rewrite PACK_0 | rewrite PACK_1 by assumption]; lia).
  unfold GET_SIZE, GET_ALLOC.
  rewrite GET_PUT_NOTAG_same, Hp, land_lnot7, land_1.
  change (2 ^ 32) with 4294967296 in *.
  rewrite wrap32_small by (change (2 ^ 32) with 4294967296; Z.div_mod_to_equations; lia).
  repeat split; Z.div_mod_to_equations; lia.
Qed.

Lemma GET_ext m m' a :
  (forall i, a <= i < a + 4 -> m' i = m i) -> GET m' a = GET m a.
Proof.
  intros H. unfold GET, byte_at. rewrite !H by lia. reflexivity.
Qed.

Lemma GET_SET_PTR_same m p v : 0 <= v < 2 ^ 32 -> GET (SET_PTR m p v) p = v.
Proof.
  intros H. unfold SET_PTR. rewrite GET_PUT_NOTAG_same. apply wrap32_small. assumption.
Qed.

Lemma GET_SET_PTR_other m p v q :
  q + 4 <= p \/ p + 4 <= q -> GET (SET_PTR m p v) q = GET m q.
Proof. apply GET_PUT_NOTAG_other. Qed.

Lemma SET_PTR_outside m p v a : a < p \/ p + 4 <= a -> SET_PTR m p v a = m a.
Proof. apply PUT_NOTAG_outside. Qed.

Lemma PACK_tag s a : s mod 8 = 0 -> a = 0 \/ a = 1 -> PACK s a = s + a.
Proof.
  intros Hs [->| ->]; [rewrite PACK_0; lia | apply PACK_1; assumption].
Qed.

Lemma GET_PACK_size m p s a :
  0 <= s < 2 ^ 32 -> s mod 8 = 0 -> a = 0 \/ a = 1 ->
  GET m p = PACK s a -> GET_SIZE m p = s /\ GET_ALLOC m p = a.
Proof.
  intros Hs Hal Ha E. unfold GET_SIZE, GET_ALLOC.
  rewrite E, (PACK_tag s a Hal Ha), land_lnot7, land_1.
  destruct Ha; subst a; split; Z.div_mod_to_equations; lia.
Qed.

(** The four boundary tags that [place] writes when it splits a block into
    a first part [(s1, a1)] and a second part [(s2, a2)]. *)
Lemma split_tags m ptr s1 a1 s2 a2 :
  8 <= s1 -> 8 <= s2 -> s1 + s2 < 2 ^ 32 -> s1 mod 8 = 0 -> s2 mod 8 = 0 ->
  a1 = 0 \/ a1 = 1 -> a2 = 0 \/ a2 = 1 ->
  let m1 := PUT_NOTAG m (HDRP ptr) (PACK s1 a1) in
  let m2 := PUT_NOTAG m1 (FTRP m1 ptr) (PACK s1 a1) in
  let m3 := PUT_NOTAG m2 (HDRP (NEXT_BLKP m2 ptr)) (PACK s2 a2) in
  let m4 := PUT_NOTAG m3 (FTRP m3 (NEXT_BLKP m3 ptr)) (PACK s2 a2) in
  NEXT_BLKP m4 ptr = ptr + s1 /\
  GET m4 (HDRP ptr) = PACK s1 a1 /\
  GET m4 (ptr + s1 - DSIZE) = PACK s1 a1 /\
  GET m4 (HDRP (ptr + s1)) = PACK s2 a2 /\
  GET m4 (ptr + s1 + s2 - DSIZE) = PACK s2 a2 /\
  (forall a, a < HDRP ptr \/ ptr + s1 + s2 - WSIZE <= a -> m4 a = m a).
Proof.
  intros H1 H2 Hlt Hal1 Hal2 Ha1 Ha2 m1 m2 m3 m4.
  assert (R1 : 0 <= s1 < 2 ^ 32) by lia. assert (R2 : 0 <= s2 < 2 ^ 32) by lia.
  assert (P1 : wrap32 (PACK s1 a1) = PACK s1 a1).
  { apply wrap32_small. rewrite (PACK_tag s1 a1 Hal1 Ha1).
    change (2 ^ 32) with 4294967296 in *. Z.div_mod_to_equations. lia. }
  assert (P2 : wrap32 (PACK s2 a2) = PACK s2 a2).
  { apply wrap32_small. rewrite (PACK_tag s2 a2 Hal2 Ha2).
    change (2 ^ 32) with 4294967296 in *. Z.div_mod_to_equations. lia. }
  assert (G1 : GET m1 (HDRP ptr) = PACK s1 a1).
  { unfold m1. rewrite GET_PUT_NOTAG_same. exact P1. }
  assert (F1 : FTRP m1 ptr = ptr + s1 - 8).
  { unfold FTRP, DSIZE. rewrite (proj1 (GET_PACK_size _ _ _ _ R1 Hal1 Ha1 G1)). reflexivity. }
  assert (G2 : GET m2 (HDRP ptr) = PACK s1 a1).
  { unfold m2. rewrite F1. rewrite GET_PUT_NOTAG_other by (unfold HDRP, WSIZE; lia). exact G1. }
  assert (N2 : NEXT_BLKP m2 ptr = ptr + s1).
  { unfold NEXT_BLKP. fold (HDRP ptr).
    rewrite (proj1 (GET_PACK_size _ _ _ _ R1 Hal1 Ha1 G2)). reflexivity. }
  assert (G3 : GET m3 (HDRP ptr) = PACK s1 a1).
  { unfold m3. rewrite N2. rewrite GET_PUT_NOTAG_other by (unfold HDRP, WSIZE; lia). exact G2. }
  assert (N3 : NEXT_BLKP m3 ptr = ptr + s1).
  { unfold NEXT_BLKP. fold (HDRP ptr).
    rewrite (proj1 (GET_PACK_size _ _ _ _ R1 Hal1 Ha1 G3)). reflexivity. }
  assert (G3' : GET m3 (HDRP (ptr + s1)) = PACK s2 a2).
  { unfold m3. rewrite N2. rewrite GET_PUT_NOTAG_same. exact P2. }
  assert (F3 : FTRP m3 (NEXT_BLKP m3 ptr) = ptr + s1 + s2 - 8).
  { rewrite N3. unfold FTRP, DSIZE.
    rewrite (proj1 (GET_PACK_size _ _ _ _ R2 Hal2 Ha2 G3')). reflexivity. }
  assert (G4 : GET m4 (HDRP ptr) = PACK s1 a1).
  { unfold m4. rewrite F3. rewrite GET_PUT_NOTAG_other by (unfold HDRP, WSIZE; lia). exact G3. }
  split; [|split; [|split; [|split; [|split]]]].
  - unfold NEXT_BLKP. fold (HDRP ptr).
    rewrite (proj1 (GET_PACK_size _ _ _ _ R1 Hal1 Ha1 G4)). reflexivity.
  - exact G4.
  - unfold m4. rewrite F3. unfold DSIZE.
    rewrite GET_PUT_NOTAG_other by lia. unfold m3. rewrite N2.
    rewrite GET_PUT_NOTAG_other by (unfold HDRP, WSIZE; lia).
    unfold m2. rewrite F1. rewrite GET_PUT_NOTAG_same. exact P1.
  - unfold m4. rewrite F3. rewrite GET_PUT_NOTAG_other by (unfold HDRP, WSIZE; lia). exact G3'.
  - unfold m4. rewrite F3. unfold DSIZE. rewrite GET_PUT_NOTAG_same. exact P2.
  - intros a Ha. unfold m4. rewrite F3. unfold HDRP, WSIZE in *.
    rewrite PUT_NOTAG_outside by lia. unfold m3. rewrite N2. unfold HDRP, WSIZE.
    rewrite PUT_NOTAG_outside by lia. unfold m2. rewrite F1.
    rewrite PUT_NOTAG_outside by lia. unfold m1. unfold HDRP, WSIZE.
    apply PUT_NOTAG_outside. lia.
Qed.

(** * The bucket index *)

Lemma select_list_spec n : forall list size,
  0 <= list <= 19 -> 1 <= size -> 19 - list <= Z.of_nat n ->
  select_list n list size
  = (Z.min 19 (list + Z.log2 size), Z.shiftr size (Z.min 19 (list + Z.log2 size) - list)).
Proof.
  induction n as [|n IH]; intros list size Hl Hs Hn.
  - assert (list = 19) by lia. subst list. cbn [select_list].
    pose proof (Z.log2_nonneg size).
    rewrite Z.min_l by lia. rewrite Z.sub_diag, Z.shiftr_0_r. reflexivity.
  - cbn [select_list]. unfold LISTLIMIT.
    destruct (Z.ltb_spec list (20 - 1)) as [Hlt|Hge]; cbn [andb].
    + destruct (Z.gtb_spec size 1) as [Hgt|Hle].
      * assert (H2 : 0 < Z.shiftr size 1).
        { rewrite Z.shiftr_div_pow2 by lia. change (2 ^ 1) with 2.
          Z.div_mod_to_equations. lia. }
        assert (H1 : 1 <= Z.log2 size) by (apply Z.log2_le_pow2; lia).
        assert (Hlog : Z.log2 (Z.shiftr size 1) = Z.log2 size - 1).
        { rewrite Z.log2_shiftr by lia. lia. }
        rewrite IH by lia. rewrite Hlog.
        replace (list + 1 + (Z.log2 size - 1)) with (list + Z.log2 size) by lia.
        f_equal. rewrite Z.shiftr_shiftr by lia. f_equal. lia.
      * assert (size = 1) by lia. subst size. change (Z.log2 1) with 0.
        rewrite Z.add_0_r, Z.min_r by lia. rewrite Z.sub_diag. reflexivity.
    + assert (list = 19) by lia. subst list.
      pose proof (Z.log2_nonneg size).
      rewrite Z.min_l by lia. rewrite Z.sub_diag, Z.shiftr_0_r. reflexivity.
Qed.

Lemma seg_index_log2 s : 1 <= s -> seg_index s = Z.min 19 (Z.log2 s).
Proof.
  intros H. unfold seg_index. rewrite select_list_spec by (simpl; lia). reflexivity.
Qed.

Lemma seg_shifted_eq s : 1 <= s -> seg_shifted s = Z.shiftr s (seg_index s).
Proof.
  intros H. unfold seg_shifted, seg_index.
  rewrite select_list_spec by (simpl; lia). cbn [fst snd]. f_equal. lia.
Qed.

Lemma seg_index_0 : seg_index 0 = 0 /\ seg_shifted 0 = 0.
Proof. split; reflexivity. Qed.

Lemma seg_index_range s : 0 <= s -> 0 <= seg_index s <= 19.
Proof.
  intros H. destruct (Z.eq_dec s 0) as [->|].
  - rewrite (proj1 seg_index_0). lia.
  - rewrite seg_index_log2 by lia. pose proof (Z.log2_nonneg s). lia.
Qed.

Lemma seg_index_class s :
  1 <= s -> seg_index s < 19 -> 2 ^ seg_index s <= s < 2 ^ (seg_index s + 1).
Proof.
  intros Hs Hk. rewrite seg_index_log2 in * by assumption.
  rewrite Z.min_r in * by lia.
  pose proof (Z.log2_spec s ltac:(lia)) as Hspec.
  unfold Z.succ in Hspec. exact Hspec.
Qed.

Lemma seg_index_overflow s : 2 ^ 19 <= s -> seg_index s = 19.
Proof.
  intros Hbig. rewrite seg_index_log2 by lia.
  apply Z.min_l. apply Z.log2_le_pow2; lia.
Qed.

(** C8.  For every size [s >= 1] the bucket index that [insert_node] and
    [delete_node] compute is [min(19, floor(log2 s))]; hence a size filed in
    bucket [k < 19] lies in [2^k, 2^(k+1)), and every size from [2^19] on is
    filed in bucket 19. *)
Theorem seg_index_is_min_19_log2 (s : Z) (Hs : 1 <= s) :
  seg_index s = Z.min 19 (Z.log2 s) /\
  (seg_index s < 19 -> 2 ^ seg_index s <= s < 2 ^ (seg_index s + 1)) /\
  (2 ^ 19 <= s -> seg_index s = 19).
Proof.
  split; [apply seg_index_log2; assumption|]. split.
  - apply seg_index_class. assumption.
  - apply seg_index_overflow.
Qed.

Lemma seg_index_is_min_19_log2_witness :
  seg_index 4096 = Z.min 19 (Z.log2 4096) /\
  (seg_index 4096 < 19 -> 2 ^ seg_index 4096 <= 4096 < 2 ^ (seg_index 4096 + 1)) /\
  (2 ^ 19 <= 4096 -> seg_index 4096 = 19).
Proof. apply (seg_index_is_min_19_log2 4096). lia. Defined.

(** The size that [insert_node] compares with the listed blocks is the
    shifted one, and no listed block of the bucket is smaller than that. *)
Lemma seg_shifted_le s t :
  0 <= s < 2 ^ 32 -> 2 * DSIZE <= t -> seg_index t = seg_index s -> seg_shifted s <= t.
Proof.
  intros Hs Ht E. unfold DSIZE in Ht.
  destruct (Z.eq_dec s 0) as [->|Hne].
  - rewrite (proj2 seg_index_0). lia.
  - rewrite seg_shifted_eq by lia.
    pose proof (seg_index_class s ltac:(lia)) as Hlt.
    pose proof (seg_index_log2 t ltac:(lia)) as Hit.
    pose proof (seg_index_range s ltac:(lia)) as Hr.
    rewrite Z.shiftr_div_pow2 by lia.
    destruct (Z_lt_le_dec (seg_index s) 19) as [Hk|Hk].
    + specialize (Hlt Hk).
      assert (s / 2 ^ seg_index s < 2).
      { apply Z.div_lt_upper_bound; [apply Z.pow_pos_nonneg; lia|].
        rewrite Z.pow_add_r in Hlt by lia. change (2 ^ 1) with 2 in Hlt. lia. }
      lia.
    + assert (E19 : seg_index s = 19) by lia. rewrite E19.
      assert (Hlog : 19 <= Z.log2 t) by lia.
      apply Z.log2_le_pow2 in Hlog; [|lia].
      assert (s / 2 ^ 19 < 2 ^ 13).
      { apply Z.div_lt_upper_bound; [lia|].
        change (2 ^ 19 * 2 ^ 13) with (2 ^ 32). lia. }
      change (2 ^ 13) with 8192 in *. change (2 ^ 19) with 524288 in *. lia.
Qed.

(** * The doubly linked bucket lists *)

Lemma last_cons (l : list Z) : forall n d : Z, last (n :: l) d = last l n.
Proof.
  induction l as [|a l IH]; intros n d; [reflexivity|].
  change (last (n :: a :: l) d) with (last (a :: l) d).
  rewrite (IH a d), (IH a n). reflexivity.
Qed.

Lemma lseg_app m l1 : forall s p l2 q,
  lseg m s p (l1 ++ l2) q <-> exists r, lseg m s p l1 r /\ lseg m (last l1 s) r l2 q.
Proof.
  induction l1 as [|n l1 IH]; intros s p l2 q; cbn [app lseg].
  - split.
    + intros H. exists p. split; [reflexivity | exact H].
    + intros (r & -> & H). exact H.
  - rewrite last_cons. split.
    + intros (Hp & Hs & H). apply IH in H. destruct H as (r & H1 & H2).
      exists r. repeat split; assumption.
    + intros (r & (Hp & Hs & H1) & H2). repeat split; try assumption.
      apply IH. exists r. split; assumption.
Qed.

Lemma lseg_frame m m' l : forall s p q,
  (forall n, In n l -> PRED m' n = PRED m n /\ SUCC m' n = SUCC m n) ->
  lseg m s p l q -> lseg m' s p l q.
Proof.
  induction l as [|n l IH]; intros s p q Hfr; cbn [lseg]; [tauto|].
  intros (Hp & Hs & H).
  destruct (Hfr n (or_introl eq_refl)) as (HP & HS).
  repeat split; [assumption | congruence |].
  rewrite HP. apply IH; [|assumption].
  intros x Hx. apply Hfr. right. assumption.
Qed.

(** A segment fixes its entry point and the links of all of its nodes. *)
Lemma lseg_links m m' l : forall s p p' q,
  lseg m s p l q -> lseg m' s p' l q ->
  p = p' /\ forall n, In n l -> PRED m n = PRED m' n /\ SUCC m n = SUCC m' n.
Proof.
  induction l as [|n l IH]; intros s p p' q; cbn [lseg].
  - intros -> ->. split; [reflexivity | intros n []].
  - intros (Hp & Hs & H) (Hp' & Hs' & H').
    destruct (IH _ _ _ _ H H') as (E & Hl).
    split; [congruence|].
    intros x [<-|Hx]; [split; congruence | apply Hl; assumption].
Qed.

(** Unlinking the node [x] from a bucket. *)
Lemma chain_unlink m m' s p l1 x l2 :
  chain m s p (l1 ++ x :: l2) ->
  (forall n, In n (removelast l1 ++ l2) -> PRED m' n = PRED m n) ->
  (forall n, In n (l1 ++ tl l2) -> SUCC m' n = SUCC m n) ->
  (l1 <> [] -> PRED m' (last l1 s) = hd NULL l2) ->
  (l2 <> [] -> SUCC m' (hd NULL l2) = last l1 s) ->
  chain m' s (match l1 with [] => hd NULL l2 | _ => p end) (l1 ++ l2).
Proof.
  unfold chain. intros H HP HS Hz Hy.
  apply lseg_app in H. destruct H as (r & H1 & H2).
  cbn [lseg] in H2. destruct H2 as (-> & Hsx & H2).
  assert (Hy0 : PRED m x = hd NULL l2).
  { destruct l2; cbn [lseg hd] in *; tauto. }
  apply lseg_app. exists (hd NULL l2). split.
  - destruct l1 as [|a l1r]; [reflexivity|].
    destruct (@exists_last _ (a :: l1r) ltac:(discriminate)) as (l1' & z & E).
    rewrite E in *. clear E a l1r.
    rewrite removelast_last in HP. rewrite last_last in Hz.
    apply lseg_app in H1. destruct H1 as (r' & H1 & H3).
    cbn [lseg] in H3. destruct H3 as (-> & Hsz & Hpz).
    apply lseg_app. exists z. split.
    + apply lseg_frame with (m := m); [|assumption].
      intros n Hn. split.
      * apply HP. apply in_or_app. left. assumption.
      * apply HS. apply in_or_app. left. apply in_or_app. left. assumption.
    + cbn [lseg]. repeat split.
      * rewrite HS; [assumption|].
        apply in_or_app. left. apply in_or_app. right. left. reflexivity.
      * apply Hz. intros E. apply app_eq_nil in E. destruct E; discriminate.
  - destruct l2 as [|y l2]; cbn [lseg hd tl] in *; [tauto|].
    destruct H2 as (Hpy & Hsy & H2).
    repeat split; [apply Hy; discriminate |].
    rewrite HP by (apply in_or_app; right; left; reflexivity).
    apply lseg_frame with (m := m); [|assumption].
    intros n Hn. split.
    + apply HP. apply in_or_app. right. right. assumption.
    + apply HS. apply in_or_app. right. assumption.
Qed.

Section SegOk.
Variables (st : heap) (L : Z -> list Z).
Hypothesis Hok : seg_ok st L.

Lemma seg_ok_far k1 k2 n1 n2 :
  In n1 (L k1) -> In n2 (L k2) -> n1 <> n2 -> n1 + 16 <= n2 \/ n2 + 16 <= n1.
Proof.
  intros H1 H2 Hne.
  pose proof (ok_disjoint _ _ Hok _ _ _ _ H1 H2 Hne) as Hd.
  destruct (ok_node _ _ Hok _ _ H1) as (_ & _ & Hs1 & _).
  destruct (ok_node _ _ Hok _ _ H2) as (_ & _ & Hs2 & _).
  unfold disjoint_blocks, DSIZE in *. lia.
Qed.

Lemma seg_ok_head k : 0 <= k < LISTLIMIT -> segregated_free_lists st k = hd NULL (L k).
Proof.
  intros Hk. pose proof (ok_chain _ _ Hok k Hk) as Hc. unfold chain in Hc.
  destruct (L k); cbn [lseg hd] in *; tauto.
Qed.

Lemma seg_ok_bucket_eq k1 k2 n : In n (L k1) -> In n (L k2) -> k1 = k2.
Proof.
  intros H1 H2.
  destruct (ok_node _ _ Hok _ _ H1) as (_ & _ & _ & E1).
  destruct (ok_node _ _ Hok _ _ H2) as (_ & _ & _ & E2). congruence.
Qed.
End SegOk.

(** What [delete_node] does to a listed node: the bucket head moves when the
    node was first, the neighbours are linked to one another, and no other
    byte changes. *)
Lemma delete_node_effect st L k l1 ptr l2 :
  seg_ok st L -> L k = l1 ++ ptr :: l2 ->
  let st' := delete_node st ptr in
  let z := last l1 NULL in
  let y := hd NULL l2 in
  (forall k', segregated_free_lists st' k'
              = if k' =? k then match l1 with [] => y | _ => segregated_free_lists st k end
                else segregated_free_lists st k') /\
  (l1 <> [] -> PRED (mem st') z = y) /\
  (l2 <> [] -> SUCC (mem st') y = z) /\
  (forall a, (l1 = [] \/ a < z \/ z + 4 <= a) ->
             (l2 = [] \/ a < y + 4 \/ y + 8 <= a) -> mem st' a = mem st a) /\
  mem_start_brk st' = mem_start_brk st /\ mem_brk st' = mem_brk st /\
  mem_max_addr st' = mem_max_addr st.
Proof.
  intros Hok HL st' z y.
  assert (Hin : In ptr (L k)) by (rewrite HL; apply in_elt).
  destruct (ok_node _ _ Hok _ _ Hin) as (Hk & Hptr & Hsz & Hidx).
  pose proof (ok_chain _ _ Hok k Hk) as Hc. rewrite HL in Hc. unfold chain in Hc.
  apply lseg_app in Hc. destruct Hc as (r & H1 & H2).
  cbn [lseg] in H2. destruct H2 as (-> & Hsx & H2).
  fold z in Hsx.
  assert (Hpx : PRED (mem st) ptr = y).
  { unfold y. destruct l2; cbn [lseg hd] in *; tauto. }
  assert (Hy : l2 <> [] -> In y (L k) /\ y <> ptr).
  { intros Hne. unfold y. destruct l2 as [|y0 l2']; [congruence|]. cbn [hd]. split.
    - rewrite HL. apply in_or_app. right. right. left. reflexivity.
    - pose proof (ok_nodup _ _ Hok k) as Hnd. rewrite HL in Hnd.
      apply NoDup_remove_2 in Hnd. intros ->. apply Hnd.
      apply in_or_app. right. left. reflexivity. }
  assert (Hz : l1 <> [] -> In z (L k) /\ z <> ptr).
  { intros Hne. unfold z.
    destruct (@exists_last _ l1 Hne) as (l1' & z0 & E). subst l1.
    rewrite last_last. split.
    - rewrite HL. apply in_or_app. left. apply in_or_app. right. left. reflexivity.
    - pose proof (ok_nodup _ _ Hok k) as Hnd. rewrite HL in Hnd.
      apply NoDup_remove_2 in Hnd. intros ->. apply Hnd.
      apply in_or_app. left. apply in_or_app. right. left. reflexivity. }
  assert (Hhead : l1 = [] -> segregated_free_lists st k = ptr).
  { intros ->. cbn [lseg] in H1. exact H1. }
  assert (Hfar : forall n, In n (L k) -> n <> ptr -> n + 16 <= ptr \/ ptr + 16 <= n).
  { intros n Hn Hne. apply (seg_ok_far st L Hok k k); assumption. }
  assert (Hpos : forall n, In n (L k) -> 0 < n < 2 ^ 32).
  { intros n Hn. apply (ok_node _ _ Hok _ _ Hn). }
  unfold st', delete_node. rewrite Hidx, Hpx, Hsx.
  destruct l2 as [|y0 l2']; destruct l1 as [|a0 l1r].
  - (* the only node of its bucket *)
    cbn [hd last] in *. unfold y, z. cbn [negb Z.eqb NULL].
    change (NULL =? NULL) with true. cbn [negb].
    cbn [set_list segregated_free_lists mem mem_start_brk mem_brk mem_max_addr].
    repeat split; try tauto.
  - (* the last node: PRED == NULL, SUCC != NULL *)
    destruct (Hz ltac:(discriminate)) as (Hzin & Hzne).
    pose proof (Hpos _ Hzin). pose proof (Hfar _ Hzin Hzne).
    unfold y. cbn [hd]. change (NULL =? NULL) with true. cbn [negb].
    destruct (Z.eqb_spec z NULL) as [E|_]; [unfold NULL in E; lia|]. cbn [negb].
    cbn [set_mem segregated_free_lists mem mem_start_brk mem_brk mem_max_addr].
    repeat split; try tauto.
    + intros k'. destruct (Z.eqb_spec k' k); [subst k'|]; reflexivity.
    + intros _. unfold PRED, PRED_PTR. apply GET_SET_PTR_same. unfold NULL. lia.
    + intros a [E|Ha] _; [discriminate|]. unfold PRED_PTR. apply SET_PTR_outside. lia.
  - (* the first node: PRED != NULL, SUCC == NULL *)
    destruct (Hy ltac:(discriminate)) as (Hyin & Hyne).
    pose proof (Hpos _ Hyin). pose proof (Hfar _ Hyin Hyne).
    unfold z. cbn [last]. fold y.
    destruct (Z.eqb_spec y NULL) as [E|_]; [unfold NULL in E; lia|]. cbn [negb].
    change (NULL =? NULL) with true. cbn [negb].
    cbn [set_list set_mem segregated_free_lists mem mem_start_brk mem_brk mem_max_addr].
    assert (E : PRED (SET_PTR (mem st) (SUCC_PTR y) NULL) ptr = y).
    { unfold PRED in *. rewrite GET_SET_PTR_other; [assumption|].
      unfold SUCC_PTR, WSIZE. lia. }
    repeat split; try tauto.
    + intros k'. rewrite E. reflexivity.
    + intros _. unfold SUCC. apply GET_SET_PTR_same. unfold NULL. lia.
    + intros a _ [E'|Ha]; [discriminate|].
      apply SET_PTR_outside. unfold SUCC_PTR, WSIZE. lia.
  - (* an inner node *)
    destruct (Hy ltac:(discriminate)) as (Hyin & Hyne).
    destruct (Hz ltac:(discriminate)) as (Hzin & Hzne).
    pose proof (Hpos _ Hyin). pose proof (Hfar _ Hyin Hyne).
    pose proof (Hpos _ Hzin). pose proof (Hfar _ Hzin Hzne).
    fold y. fold z.
    destruct (Z.eqb_spec y NULL) as [E|_]; [unfold NULL in E; lia|]. cbn [negb].
    destruct (Z.eqb_spec z NULL) as [E|_]; [unfold NULL in E; lia|]. cbn [negb].
    cbn [set_list set_mem segregated_free_lists mem mem_start_brk mem_brk mem_max_addr].
    assert (E1 : PRED (SET_PTR (mem st) (SUCC_PTR y) z) ptr = y).
    { unfold PRED in *. rewrite GET_SET_PTR_other; [assumption|].
      unfold SUCC_PTR, WSIZE. lia. }
    assert (E2 : SUCC (SET_PTR (mem st) (SUCC_PTR y) z) ptr = z).
    { unfold SUCC in *. rewrite GET_SET_PTR_other; [assumption|].
      unfold SUCC_PTR, WSIZE. lia. }
    rewrite E1, E2.
    assert (Hyz : y <> z -> y + 16 <= z \/ z + 16 <= y).
    { intros Hne. apply (seg_ok_far st L Hok k k); assumption. }
    assert (Hne : y <> z).
    { pose proof (ok_nodup _ _ Hok k) as Hnd. rewrite HL in Hnd.
      apply NoDup_remove_1 in Hnd.
      destruct (@exists_last _ (a0 :: l1r) ltac:(discriminate)) as (l1' & z0 & E).
      unfold z, y in *. rewrite E in *. rewrite last_last. cbn [hd].
      rewrite <- app_assoc in Hnd. apply NoDup_remove_2 in Hnd.
      intros ->. apply Hnd. apply in_or_app. right. left. reflexivity. }
    specialize (Hyz Hne).
    repeat split; try tauto.
    + intros k'. destruct (Z.eqb_spec k' k); [subst k'|]; reflexivity.
    + intros _. unfold PRED, PRED_PTR. apply GET_SET_PTR_same. lia.
    + intros _. unfold SUCC, PRED_PTR. rewrite GET_SET_PTR_other by (unfold SUCC_PTR, WSIZE; lia).
      apply GET_SET_PTR_same. lia.
    + intros a [E|Ha] [E'|Ha']; try discriminate.
      unfold PRED_PTR. rewrite SET_PTR_outside by lia.
      apply SET_PTR_outside. unfold SUCC_PTR, WSIZE. lia.
Qed.

Lemma in_app_skip (l1 l2 : list Z) (x n : Z) : In n (l1 ++ l2) -> In n (l1 ++ x :: l2).
Proof.
  intros H. apply in_app_or in H. apply in_or_app.
  destruct H; [left | right; right]; assumption.
Qed.

Lemma in_removelast (l : list Z) (n : Z) : In n (removelast l) -> In n l.
Proof.
  induction l as [|a l IH]; [intros []|].
  destruct l as [|b l]; [intros []|].
  change (removelast (a :: b :: l)) with (a :: removelast (b :: l)).
  intros [E|H]; [left; assumption | right; apply IH; assumption].
Qed.

Lemma in_tl (l : list Z) (n : Z) : In n (tl l) -> In n l.
Proof. destruct l; [intros [] | intros H; right; exact H]. Qed.

Lemma upd_bucket_same L k l : upd_bucket L k l k = l.
Proof. unfold upd_bucket. rewrite Z.eqb_refl. reflexivity. Qed.

Lemma upd_bucket_other L k l k' : k' <> k -> upd_bucket L k l k' = L k'.
Proof. intros H. unfold upd_bucket. destruct (Z.eqb_spec k' k); [contradiction | reflexivity]. Qed.

(** [delete_node] on a listed node keeps the index well formed. *)
Lemma delete_node_ok st L k l1 ptr l2 :
  seg_ok st L -> L k = l1 ++ ptr :: l2 ->
  seg_ok (delete_node st ptr) (upd_bucket L k (l1 ++ l2)) /\
  (forall a, (forall k' n, In n (L k') -> n <> ptr -> a < n \/ n + 8 <= a) ->
             mem (delete_node st ptr) a = mem st a) /\
  (forall k' n, In n (L k') ->
     GET (mem (delete_node st ptr)) (HDRP n) = GET (mem st) (HDRP n)).
Proof.
  intros Hok HL.
  destruct (delete_node_effect st L k l1 ptr l2 Hok HL) as (Hh & Hz & Hy & Hfr & _).
  set (st' := delete_node st ptr) in *.
  set (z := last l1 NULL) in *. set (y := hd NULL l2) in *.
  assert (Hnd : NoDup (l1 ++ ptr :: l2)) by (rewrite <- HL; apply (ok_nodup _ _ Hok)).
  assert (Hnd' : NoDup (l1 ++ l2)) by (apply NoDup_remove_1 in Hnd; exact Hnd).
  assert (Hsub : forall n, In n (l1 ++ l2) -> In n (L k)).
  { intros n Hn. rewrite HL. apply in_app_skip. assumption. }
  assert (Hzin : l1 <> [] -> In z (L k) /\ z <> ptr).
  { intros Hne. unfold z.
    destruct (@exists_last _ l1 Hne) as (l1' & z0 & E). subst l1.
    rewrite last_last. split.
    - rewrite HL. apply in_or_app. left. apply in_or_app. right. left. reflexivity.
    - apply NoDup_remove_2 in Hnd. intros ->. apply Hnd.
      apply in_or_app. left. apply in_or_app. right. left. reflexivity. }
  assert (Hyin : l2 <> [] -> In y (L k) /\ y <> ptr).
  { intros Hne. unfold y. destruct l2 as [|y0 l2']; [congruence|]. cbn [hd]. split.
    - rewrite HL. apply in_or_app. right. right. left. reflexivity.
    - apply NoDup_remove_2 in Hnd. intros ->. apply Hnd.
      apply in_or_app. right. left. reflexivity. }
  (* where a listed node stands with respect to the two words written *)
  assert (Hzfar : forall k' n, In n (L k') -> l1 = [] \/ n = z \/ n + 16 <= z \/ z + 16 <= n).
  { intros k' n Hn. destruct l1 as [|a0 l1r] eqn:El1; [left; reflexivity | right].
    rewrite <- El1 in *.
    destruct (Z.eq_dec n z) as [|Hne]; [left; assumption | right].
    apply (seg_ok_far st L Hok k' k); [assumption | | assumption].
    apply Hzin. rewrite El1. discriminate. }
  assert (Hyfar : forall k' n, In n (L k') -> l2 = [] \/ n = y \/ n + 16 <= y \/ y + 16 <= n).
  { intros k' n Hn. destruct l2 as [|y0 l2r] eqn:El2; [left; reflexivity | right].
    rewrite <- El2 in *.
    destruct (Z.eq_dec n y) as [|Hne]; [left; assumption | right].
    apply (seg_ok_far st L Hok k' k); [assumption | | assumption].
    apply Hyin. rewrite El2. discriminate. }
  assert (Hhdr : forall k' n, In n (L k') ->
            GET (mem st') (HDRP n) = GET (mem st) (HDRP n)).
  { intros k' n Hn. apply GET_ext. intros i Hi. unfold HDRP, WSIZE in Hi. apply Hfr.
    - destruct (Hzfar k' n Hn) as [E|F]; [left; exact E | right; lia].
    - destruct (Hyfar k' n Hn) as [E|F]; [left; exact E | right; lia]. }
  assert (HP : forall k' n, In n (L k') -> l1 = [] \/ n <> z ->
            PRED (mem st') n = PRED (mem st) n).
  { intros k' n Hn Hne. apply GET_ext. intros i Hi. apply Hfr.
    - destruct Hne as [E|Hne]; [left; exact E|].
      destruct (Hzfar k' n Hn) as [E|[E|F]]; [left; exact E | contradiction | right; lia].
    - destruct (Hyfar k' n Hn) as [E|F]; [left; exact E | right; lia]. }
  assert (HS : forall k' n, In n (L k') -> l2 = [] \/ n <> y ->
            SUCC (mem st') n = SUCC (mem st) n).
  { intros k' n Hn Hne. apply GET_ext. intros i Hi. unfold SUCC_PTR, WSIZE in Hi. apply Hfr.
    - destruct (Hzfar k' n Hn) as [E|F]; [left; exact E | right; lia].
    - destruct Hne as [E|Hne]; [left; exact E|].
      destruct (Hyfar k' n Hn) as [E|[E|F]]; [left; exact E | contradiction | right; lia]. }
  assert (Hk : 0 <= k < LISTLIMIT).
  { apply (ok_node _ _ Hok k ptr). rewrite HL. apply in_elt. }
  split; [|split].
  - constructor.
    + intros k' Hk'. destruct (Z.eq_dec k' k) as [->|Hne].
      * rewrite upd_bucket_same, Hh, Z.eqb_refl.
        pose proof (ok_chain _ _ Hok k Hk) as Hc. rewrite HL in Hc.
        apply (chain_unlink (mem st) (mem st') NULL _ l1 ptr l2 Hc).
        -- intros n Hn. apply (HP k).
           ++ apply Hsub. apply in_app_or in Hn. apply in_or_app.
              destruct Hn as [Hn|Hn]; [left; apply in_removelast | right]; assumption.
           ++ destruct (list_eq_dec Z.eq_dec l1 []) as [E|Hne1]; [left; exact E | right].
              destruct (@exists_last _ l1 Hne1) as (l1' & z0 & E).
              intros Heq. unfold z in Heq. rewrite E in Heq, Hn, Hnd'.
              rewrite last_last in Heq. subst n. rewrite removelast_last in Hn.
              rewrite <- app_assoc in Hnd'. apply NoDup_remove_2 in Hnd'.
              apply Hnd'. exact Hn.
        -- intros n Hn. apply (HS k).
           ++ apply Hsub. apply in_app_or in Hn. apply in_or_app.
              destruct Hn as [Hn|Hn]; [left | right; apply in_tl]; assumption.
           ++ destruct l2 as [|y0 l2r]; [left; reflexivity | right].
              unfold y. cbn [hd tl] in *. apply NoDup_remove_2 in Hnd'.
              intros ->. apply Hnd'. exact Hn.
        -- exact Hz.
        -- exact Hy.
      * rewrite upd_bucket_other by assumption. rewrite Hh.
        destruct (Z.eqb_spec k' k) as [|_]; [contradiction|].
        apply lseg_frame with (m := mem st); [| apply (ok_chain _ _ Hok k' Hk')].
        intros n Hn. split.
        -- apply (HP k' n Hn). destruct l1 as [|a0 l1r] eqn:El1; [left; reflexivity | right].
           rewrite <- El1 in *. intros ->.
           apply Hne. apply (seg_ok_bucket_eq st L Hok k' k z); [assumption|].
           apply Hzin. rewrite El1. discriminate.
        -- apply (HS k' n Hn). destruct l2 as [|y0 l2r] eqn:El2; [left; reflexivity | right].
           rewrite <- El2 in *. intros ->.
           apply Hne. apply (seg_ok_bucket_eq st L Hok k' k y); [assumption|].
           apply Hyin. rewrite El2. discriminate.
    + intros k' n Hn.
      assert (Hn' : In n (L k')).
      { destruct (Z.eq_dec k' k) as [->|Hne].
        - rewrite upd_bucket_same in Hn. apply Hsub. assumption.
        - rewrite upd_bucket_other in Hn by assumption. assumption. }
      unfold GET_SIZE. rewrite (Hhdr k' n Hn'). apply (ok_node _ _ Hok k' n Hn').
    + intros k'. destruct (Z.eq_dec k' k) as [->|Hne].
      * rewrite upd_bucket_same. exact Hnd'.
      * rewrite upd_bucket_other by assumption. apply (ok_nodup _ _ Hok).
    + intros k1 k2 n1 n2 H1 H2 Hne.
      assert (H1' : In n1 (L k1)).
      { destruct (Z.eq_dec k1 k) as [->|Hk1].
        - rewrite upd_bucket_same in H1. apply Hsub. assumption.
        - rewrite upd_bucket_other in H1 by assumption. assumption. }
      assert (H2' : In n2 (L k2)).
      { destruct (Z.eq_dec k2 k) as [->|Hk2].
        - rewrite upd_bucket_same in H2. apply Hsub. assumption.
        - rewrite upd_bucket_other in H2 by assumption. assumption. }
      unfold disjoint_blocks, GET_SIZE. rewrite (Hhdr k1 n1 H1'), (Hhdr k2 n2 H2').
      apply (ok_disjoint _ _ Hok k1 k2); assumption.
  - intros a Ha. apply Hfr.
    + destruct l1 as [|a0 l1r] eqn:El1; [left; reflexivity | right].
      rewrite <- El1 in *. destruct Hzin as (Hzi & Hzn); [rewrite El1; discriminate|].
      specialize (Ha k z Hzi Hzn). lia.
    + destruct l2 as [|y0 l2r] eqn:El2; [left; reflexivity | right].
      rewrite <- El2 in *. destruct Hyin as (Hyi & Hyn); [rewrite El2; discriminate|].
      specialize (Ha k y Hyi Hyn). lia.
  - exact Hhdr.
Qed.

(** What [insert_node] does on a well-formed index: the search stops at
    the head of the bucket, the new node is linked in front of it and
    becomes the head. *)
Lemma insert_node_effect fuel st L ptr size :
  seg_ok st L -> (0 < fuel)%nat -> 0 <= size < 2 ^ 32 -> 0 < ptr < 2 ^ 32 ->
  let k := seg_index size in
  let h := hd NULL (L k) in
  (forall n, In n (L k) -> n + 8 <= ptr \/ ptr + 8 <= n) ->
  exists st',
    insert_node fuel st ptr size = Some st' /\
    (forall k', segregated_free_lists st' k'
                = if k' =? k then ptr else segregated_free_lists st k') /\
    PRED (mem st') ptr = h /\ SUCC (mem st') ptr = NULL /\
    (L k <> [] -> SUCC (mem st') h = ptr) /\
    (forall a, (a < ptr \/ ptr + 8 <= a) -> (L k = [] \/ a < h + 4 \/ h + 8 <= a) ->
               mem st' a = mem st a) /\
    mem_start_brk st' = mem_start_brk st /\ mem_brk st' = mem_brk st /\
    mem_max_addr st' = mem_max_addr st.
Proof.
  intros Hok Hfuel Hsize Hptr k h Hfar.
  pose proof (seg_index_range size ltac:(lia)) as Hk. fold k in Hk.
  assert (Hk' : 0 <= k < LISTLIMIT) by (unfold LISTLIMIT; lia).
  pose proof (seg_ok_head st L Hok k Hk') as Hhead. fold h in Hhead.
  destruct fuel as [|fuel]; [lia|].
  unfold insert_node. fold k. rewrite Hhead. cbn [insert_search].
  destruct (L k) as [|h0 rest] eqn:ELk.
  - (* empty bucket *)
    unfold h. cbn [hd]. change (NULL =? NULL) with true. cbn [negb andb].
    eexists. split; [reflexivity|].
    cbn [set_list set_mem segregated_free_lists mem mem_start_brk mem_brk mem_max_addr].
    repeat split.
    + unfold PRED, PRED_PTR, SUCC_PTR, WSIZE.
      rewrite GET_SET_PTR_other by lia. apply GET_SET_PTR_same. unfold NULL. lia.
    + unfold SUCC. apply GET_SET_PTR_same. unfold NULL. lia.
    + congruence.
    + intros a Ha _. unfold PRED_PTR, SUCC_PTR, WSIZE.
      rewrite !SET_PTR_outside by lia. reflexivity.
  - (* the new node goes in front of the head *)
    assert (Hin : In h (L k)) by (rewrite ELk; left; reflexivity).
    destruct (ok_node _ _ Hok _ _ Hin) as (_ & Hh & Hsz & Hidx).
    assert (Hhf : h + 8 <= ptr \/ ptr + 8 <= h) by (apply Hfar; rewrite <- ELk; exact Hin).
    assert (Hstop : (seg_shifted size >? GET_SIZE (mem st) (HDRP h)) = false).
    { pose proof (seg_shifted_le size _ Hsize Hsz Hidx).
      destruct (Z.gtb_spec (seg_shifted size) (GET_SIZE (mem st) (HDRP h))); [lia | reflexivity]. }
    rewrite Hstop, andb_false_r.
    destruct (Z.eqb_spec h NULL) as [E|_]; [unfold NULL in E; lia|]. cbn [negb].
    change (NULL =? NULL) with true. cbn [negb].
    eexists. split; [reflexivity|].
    cbn [set_list set_mem segregated_free_lists mem mem_start_brk mem_brk mem_max_addr].
    unfold PRED, SUCC, PRED_PTR, SUCC_PTR, WSIZE.
    repeat split.
    + rewrite !GET_SET_PTR_other by lia. apply GET_SET_PTR_same. lia.
    + apply GET_SET_PTR_same. unfold NULL. lia.
    + intros _. rewrite GET_SET_PTR_other by lia. apply GET_SET_PTR_same. lia.
    + intros a Ha [E|Ha']; [discriminate|].
      rewrite !SET_PTR_outside by lia. reflexivity.
Qed.

(** [insert_node] of a block that overlaps no listed block keeps the index
    well formed, with the block at the head of its bucket. *)
Lemma insert_node_ok fuel st L ptr size :
  seg_ok st L -> (0 < fuel)%nat -> 0 < ptr < 2 ^ 32 ->
  GET_SIZE (mem st) (HDRP ptr) = size -> 2 * DSIZE <= size ->
  (forall k n, In n (L k) -> disjoint_blocks (mem st) ptr n) ->
  exists st',
    insert_node fuel st ptr size = Some st' /\
    seg_ok st' (upd_bucket L (seg_index size) (ptr :: L (seg_index size))) /\
    (forall a, (a < ptr \/ ptr + 8 <= a) ->
               (forall k n, In n (L k) -> a < n + 4 \/ n + 8 <= a) ->
               mem st' a = mem st a) /\
    (forall k n, In n (L k) -> GET (mem st') (HDRP n) = GET (mem st) (HDRP n)) /\
    GET (mem st') (HDRP ptr) = GET (mem st) (HDRP ptr).
Proof.
  intros Hok Hfuel Hptr Hsz Hmin Hdis.
  pose proof (GET_SIZE_range (mem st) (HDRP ptr)) as Hr. rewrite Hsz in Hr.
  set (k := seg_index size).
  assert (Hfar : forall k' n, In n (L k') -> n + 16 <= ptr \/ ptr + 16 <= n).
  { intros k' n Hn. specialize (Hdis k' n Hn).
    destruct (ok_node _ _ Hok _ _ Hn) as (_ & _ & Hs & _).
    unfold disjoint_blocks, DSIZE in *. rewrite Hsz in Hdis. lia. }
  destruct (insert_node_effect fuel st L ptr size Hok Hfuel Hr Hptr)
    as (st' & Hins & Hh & Hp & Hs & Hsh & Hfr & _).
  { intros n Hn. specialize (Hfar _ _ Hn). lia. }
  fold k in Hh, Hp, Hs, Hsh, Hfr.
  set (h := hd NULL (L k)) in *.
  pose proof (seg_index_range size ltac:(lia)) as Hk. fold k in Hk.
  assert (Hhin : L k <> [] -> In h (L k)).
  { unfold h. destruct (L k); [congruence | intros _; left; reflexivity]. }
  assert (Hhfar : forall k' n, In n (L k') -> L k = [] \/ n = h \/ n + 16 <= h \/ h + 16 <= n).
  { intros k' n Hn. destruct (list_eq_dec Z.eq_dec (L k) []) as [E|Hne]; [left; exact E | right].
    destruct (Z.eq_dec n h) as [|Hnh]; [left; assumption | right].
    apply (seg_ok_far st L Hok k' k); auto. }
  assert (Hhdr : forall k' n, In n (L k') -> GET (mem st') (HDRP n) = GET (mem st) (HDRP n)).
  { intros k' n Hn. apply GET_ext. intros i Hi. unfold HDRP, WSIZE in Hi.
    pose proof (Hfar k' n Hn). apply Hfr; [lia|].
    destruct (Hhfar k' n Hn) as [E|F]; [left; exact E | right; lia]. }
  assert (Hhdrp : GET (mem st') (HDRP ptr) = GET (mem st) (HDRP ptr)).
  { apply GET_ext. intros i Hi. unfold HDRP, WSIZE in Hi. apply Hfr; [lia|].
    destruct (list_eq_dec Z.eq_dec (L k) []) as [E|Hne]; [left; exact E | right].
    pose proof (Hfar k h (Hhin Hne)). lia. }
  assert (HP : forall k' n, In n (L k') -> PRED (mem st') n = PRED (mem st) n).
  { intros k' n Hn. apply GET_ext. intros i Hi.
    pose proof (Hfar k' n Hn). apply Hfr; [lia|].
    destruct (Hhfar k' n Hn) as [E|F]; [left; exact E | right; lia]. }
  assert (HS : forall k' n, In n (L k') -> L k = [] \/ n <> h -> SUCC (mem st') n = SUCC (mem st) n).
  { intros k' n Hn Hne. apply GET_ext. intros i Hi. unfold SUCC_PTR, WSIZE in Hi.
    pose proof (Hfar k' n Hn). apply Hfr; [lia|].
    destruct Hne as [E|Hne]; [left; exact E|].
    destruct (Hhfar k' n Hn) as [E|[E|F]]; [left; exact E | contradiction | right; lia]. }
  exists st'. split; [exact Hins|]. split; [|split; [|split]].
  - constructor.
    + intros k' Hk'. rewrite Hh. destruct (Z.eqb_spec k' k) as [->|Hne].
      * rewrite upd_bucket_same. unfold chain. cbn [lseg].
        split; [reflexivity|]. split; [exact Hs|]. rewrite Hp.
        pose proof (ok_chain _ _ Hok k Hk') as Hc. unfold chain in Hc.
        rewrite (seg_ok_head st L Hok k Hk') in Hc. fold h in Hc.
        pose proof (ok_nodup _ _ Hok k) as Hnd.
        destruct (L k) as [|h0 rest] eqn:ELk; [exact Hc|].
        unfold h in *. cbn [hd lseg] in *. destruct Hc as (_ & Hsh0 & Hc).
        split; [reflexivity|]. split; [apply Hsh; discriminate|].
        rewrite (HP k h0) by (rewrite ELk; left; reflexivity).
        apply lseg_frame with (m := mem st); [|exact Hc].
        intros n Hn. split.
        -- apply (HP k). rewrite ELk. right. exact Hn.
        -- apply (HS k); [rewrite ELk; right; exact Hn|]. right.
           intros ->. apply NoDup_cons_iff in Hnd. tauto.
      * rewrite upd_bucket_other by assumption.
        apply lseg_frame with (m := mem st); [| apply (ok_chain _ _ Hok k' Hk')].
        intros n Hn. split; [apply (HP k' n Hn)|].
        apply (HS k' n Hn).
        destruct (list_eq_dec Z.eq_dec (L k) []) as [E|Hne']; [left; exact E | right].
        intros ->. apply Hne. apply (seg_ok_bucket_eq st L Hok k' k h); auto.
    + intros k' n Hn. destruct (Z.eq_dec k' k) as [->|Hne].
      * rewrite upd_bucket_same in Hn. destruct Hn as [<-|Hn].
        -- unfold GET_SIZE. rewrite Hhdrp. fold (GET_SIZE (mem st) (HDRP ptr)).
           rewrite Hsz. unfold LISTLIMIT. repeat split; try lia. 
        -- unfold GET_SIZE. rewrite (Hhdr k n Hn). apply (ok_node _ _ Hok k n Hn).
      * rewrite upd_bucket_other in Hn by assumption.
        unfold GET_SIZE. rewrite (Hhdr k' n Hn). apply (ok_node _ _ Hok k' n Hn).
    + intros k'. destruct (Z.eq_dec k' k) as [->|Hne].
      * rewrite upd_bucket_same. constructor; [|apply (ok_nodup _ _ Hok)].
        intros Hin. pose proof (Hfar k ptr Hin). lia.
      * rewrite upd_bucket_other by assumption. apply (ok_nodup _ _ Hok).
    + assert (Hcase : forall k' n, In n (upd_bucket L k (ptr :: L k) k') ->
                n = ptr \/ In n (L k')).
      { intros k' n Hn. destruct (Z.eq_dec k' k) as [->|Hne].
        - rewrite upd_bucket_same in Hn. destruct Hn; [left; congruence | right; assumption].
        - rewrite upd_bucket_other in Hn by assumption. right. assumption. }
      assert (Hsize : forall k' n, n = ptr \/ In n (L k') ->
                GET_SIZE (mem st') (HDRP n) = GET_SIZE (mem st) (HDRP n)).
      { intros k' n [->|Hn]; unfold GET_SIZE; [rewrite Hhdrp | rewrite (Hhdr k' n Hn)]; reflexivity. }
      intros k1 k2 n1 n2 H1 H2 Hne.
      apply Hcase in H1, H2. unfold disjoint_blocks.
      rewrite (Hsize k1 n1 H1), (Hsize k2 n2 H2).
      destruct H1 as [->|H1]; destruct H2 as [->|H2].
      * congruence.
      * apply (Hdis k2 n2 H2).
      * pose proof (Hdis k1 n1 H1) as Hd. unfold disjoint_blocks in Hd. tauto.
      * apply (ok_disjoint _ _ Hok k1 k2); assumption.
  - intros a Ha Hn. apply Hfr; [exact Ha|].
    destruct (list_eq_dec Z.eq_dec (L k) []) as [E|Hne]; [left; exact E | right].
    apply (Hn k h). apply Hhin. exact Hne.
  - exact Hhdr.
  - exact Hhdrp.
Qed.

(** ** Two concrete indexes *)

Ltac each_bucket k Hk :=
  let C := fresh "C" in
  assert (C : k = 0 \/ k = 1 \/ k = 2 \/ k = 3 \/ k = 4 \/ k = 5 \/ k = 6 \/ k = 7
              \/ k = 8 \/ k = 9 \/ k = 10 \/ k = 11 \/ k = 12 \/ k = 13 \/ k = 14
              \/ k = 15 \/ k = 16 \/ k = 17 \/ k = 18 \/ k = 19)
    by (unfold LISTLIMIT in Hk; lia);
  repeat (destruct C as [C|C]); subst k.

Lemma seg_ok_chunk : seg_ok (state_of heap_chunk) index_chunk.
Proof.
  constructor.
  - intros k Hk. each_bucket k Hk; vm_compute; repeat split; reflexivity.
  - intros k n. unfold index_chunk.
    destruct (Z.eqb_spec k 12) as [->|]; [|intros []].
    intros [<-|[]]. vm_compute. repeat split; congruence.
  - intros k. unfold index_chunk. destruct (k =? 12); repeat constructor. intros [].
  - intros k1 k2 n1 n2. unfold index_chunk.
    destruct (k1 =? 12); destruct (k2 =? 12); cbn [In]; intuition congruence.
Qed.

Lemma seg_ok_one_free : seg_ok (state_of heap_one_free) index_one_free.
Proof.
  constructor.
  - intros k Hk. each_bucket k Hk; vm_compute; repeat split; reflexivity.
  - intros k n. unfold index_one_free.
    destruct (Z.eqb_spec k 4) as [->|]; [intros [<-|[]]; vm_compute; repeat split; congruence|].
    destruct (Z.eqb_spec k 11) as [->|]; [intros [<-|[]]; vm_compute; repeat split; congruence|].
    intros [].
  - intros k. unfold index_one_free.
    destruct (k =? 4); [|destruct (k =? 11)]; repeat constructor; intros [].
  - intros k1 k2 n1 n2. unfold index_one_free.
    destruct (k1 =? 4); [|destruct (k1 =? 11)];
      (destruct (k2 =? 4); [|destruct (k2 =? 11)]);
      cbn [In]; intros H1 H2 Hne;
      try (exfalso; intuition congruence);
      destruct H1 as [<-|[]]; destruct H2 as [<-|[]]; vm_compute; intuition congruence.
Qed.

(** ** Inserting and deleting the same block *)

Lemma seg_ok_ext st L L' : (forall k, L k = L' k) -> seg_ok st L -> seg_ok st L'.
Proof.
  intros E Hok. constructor.
  - intros k Hk. rewrite <- E. apply (ok_chain _ _ Hok k Hk).
  - intros k n Hn. rewrite <- E in Hn. apply (ok_node _ _ Hok k n Hn).
  - intros k. rewrite <- E. apply (ok_nodup _ _ Hok).
  - intros k1 k2 n1 n2 H1 H2. rewrite <- E in H1, H2. apply (ok_disjoint _ _ Hok k1 k2); assumption.
Qed.

(** The index only depends on the bucket heads and on the header and the
    two link words of the listed blocks. *)
Lemma seg_ok_frame st st' L :
  seg_ok st L ->
  (forall k, segregated_free_lists st' k = segregated_free_lists st k) ->
  (forall k n a, In n (L k) -> n - 4 <= a < n + 8 -> mem st' a = mem st a) ->
  seg_ok st' L.
Proof.
  intros Hok Hh Hfr.
  assert (Hhdr : forall k n, In n (L k) -> GET (mem st') (HDRP n) = GET (mem st) (HDRP n)).
  { intros k n Hn. apply GET_ext. intros i Hi. unfold HDRP, WSIZE in Hi.
    apply (Hfr k n); [assumption | lia]. }
  constructor.
  - intros k Hk. rewrite Hh. apply lseg_frame with (m := mem st); [|apply (ok_chain _ _ Hok k Hk)].
    intros n Hn. split; apply GET_ext; intros i Hi; unfold SUCC_PTR, WSIZE in *;
      apply (Hfr k n); (assumption || lia).
  - intros k n Hn. unfold GET_SIZE. rewrite (Hhdr k n Hn). apply (ok_node _ _ Hok k n Hn).
  - apply (ok_nodup _ _ Hok).
  - intros k1 k2 n1 n2 H1 H2 Hne. unfold disjoint_blocks, GET_SIZE.
    rewrite (Hhdr k1 n1 H1), (Hhdr k2 n2 H2). apply (ok_disjoint _ _ Hok k1 k2); assumption.
Qed.

(** C10.  On a well-formed index, for a block [ptr] that overlaps no listed
    block (so that it is in no bucket), [insert_node(ptr, size(ptr))]
    followed by [delete_node(ptr)] gives every bucket head and the [PRED] and
    [SUCC] links of every listed block their prior values. *)
Theorem insert_then_delete_restores (fuel : nat) (st : heap) (L : Z -> list Z) (ptr : Z)
  (Hok : seg_ok st L) (Hfuel : (0 < fuel)%nat) (Hptr : 0 < ptr < 2 ^ 32)
  (Hmin : 2 * DSIZE <= GET_SIZE (mem st) (HDRP ptr))
  (Hfresh : forall k n, In n (L k) -> disjoint_blocks (mem st) ptr n) :
  exists st1,
    insert_node fuel st ptr (GET_SIZE (mem st) (HDRP ptr)) = Some st1 /\
    (forall k, segregated_free_lists (delete_node st1 ptr) k = segregated_free_lists st k) /\
    (forall k n, In n (L k) ->
       PRED (mem (delete_node st1 ptr)) n = PRED (mem st) n /\
       SUCC (mem (delete_node st1 ptr)) n = SUCC (mem st) n) /\
    seg_ok (delete_node st1 ptr) L.
Proof.
  set (size := GET_SIZE (mem st) (HDRP ptr)) in *.
  set (k0 := seg_index size).
  pose proof (GET_SIZE_range (mem st) (HDRP ptr)) as Hr. fold size in Hr.
  pose proof (seg_index_range size ltac:(lia)) as Hk0. fold k0 in Hk0.
  assert (Hk0' : 0 <= k0 < LISTLIMIT) by (unfold LISTLIMIT; lia).
  destruct (insert_node_ok fuel st L ptr size Hok Hfuel Hptr eq_refl Hmin Hfresh)
    as (st1 & Hins & Hok1 & _).
  destruct (insert_node_effect fuel st L ptr size Hok Hfuel Hr Hptr) as (st1' & Hins' & Hh1 & _).
  { intros n Hn. specialize (Hfresh _ _ Hn).
    destruct (ok_node _ _ Hok _ _ Hn) as (_ & _ & Hs & _).
    unfold disjoint_blocks in Hfresh. fold size in Hfresh. unfold DSIZE in *. lia. }
  rewrite Hins in Hins'. injection Hins' as <-.
  fold k0 in Hok1, Hh1.
  set (L1 := upd_bucket L k0 (ptr :: L k0)) in *.
  assert (HL1 : L1 k0 = [] ++ ptr :: L k0) by (unfold L1; apply upd_bucket_same).
  destruct (delete_node_ok st1 L1 k0 [] ptr (L k0) Hok1 HL1) as (Hok2 & _).
  destruct (delete_node_effect st1 L1 k0 [] ptr (L k0) Hok1 HL1) as (Hh2 & _).
  cbn [app] in Hok2.
  assert (Hok2' : seg_ok (delete_node st1 ptr) L).
  { apply (seg_ok_ext _ _ _ (fun k => eq_refl _)) in Hok2.
    revert Hok2. apply seg_ok_ext. intros k. unfold L1, upd_bucket.
    destruct (Z.eqb_spec k k0) as [->|]; reflexivity. }
  exists st1. split; [exact Hins|]. split; [|split; [|exact Hok2']].
  - intros k. rewrite Hh2, Hh1. destruct (Z.eqb_spec k k0) as [->|]; [|reflexivity].
    symmetry. apply (seg_ok_head st L Hok k0 Hk0').
  - intros k n Hn.
    destruct (ok_node _ _ Hok _ _ Hn) as (Hk & _).
    pose proof (ok_chain _ _ Hok2' k Hk) as C2. pose proof (ok_chain _ _ Hok k Hk) as C1.
    destruct (lseg_links _ _ _ _ _ _ _ C2 C1) as (_ & Hl). apply Hl. exact Hn.
Qed.

Lemma insert_then_delete_restores_witness :
  exists st1,
    insert_node 100 (state_of heap_one_free) 1080 24 = Some st1 /\
    (forall k, segregated_free_lists (delete_node st1 1080) k
               = segregated_free_lists (state_of heap_one_free) k).
Proof.
  assert (E : GET_SIZE (mem (state_of heap_one_free)) (HDRP 1080) = 24)
    by (vm_compute; reflexivity).
  destruct (insert_then_delete_restores 100 (state_of heap_one_free) index_one_free 1080
              seg_ok_one_free) as (st1 & Hi & Hh & _).
  - lia.
  - lia.
  - rewrite E. unfold DSIZE. lia.
  - intros k n. unfold index_one_free.
    destruct (k =? 4); [|destruct (k =? 11)]; cbn [In]; intros H;
      try contradiction; destruct H as [<-|[]]; vm_compute; intuition congruence.
  - rewrite E in Hi. exists st1. split; assumption.
Defined.

(** * The placement thresholds of [place] *)

(** The boundary tags of a block that [place] hands out whole. *)
Lemma whole_block_tags m ptr s :
  0 <= s < 2 ^ 32 -> s mod 8 = 0 ->
  let m1 := PUT_NOTAG m (HDRP ptr) (PACK s 1) in
  let m2 := PUT_NOTAG m1 (FTRP m1 ptr) (PACK s 1) in
  FTRP m2 ptr = ptr + s - DSIZE /\
  GET m2 (HDRP ptr) = PACK s 1 /\ GET m2 (ptr + s - DSIZE) = PACK s 1 /\
  GET_SIZE m2 (HDRP ptr) = s /\ GET_ALLOC m2 (HDRP ptr) = 1 /\
  (forall a, (a < HDRP ptr \/ HDRP ptr + 4 <= a) ->
             (a < ptr + s - DSIZE \/ ptr + s - DSIZE + 4 <= a) -> m2 a = m a).
Proof.
  intros Hs Hal m1 m2.
  destruct (tag_read m (HDRP ptr) s 1 Hs Hal (or_intror eq_refl)) as (Hg & Hsz & Hb).
  fold m1 in Hg, Hsz, Hb.
  assert (Hf : FTRP m1 ptr = ptr + s - DSIZE) by (unfold FTRP; rewrite Hsz; reflexivity).
  assert (Hfar : HDRP ptr + 4 <= ptr + s - DSIZE \/ ptr + s - DSIZE + 4 <= HDRP ptr).
  { unfold HDRP, WSIZE, DSIZE. Z.div_mod_to_equations. lia. }
  assert (Hh : GET m2 (HDRP ptr) = GET m1 (HDRP ptr)).
  { unfold m2. rewrite Hf. apply GET_PUT_NOTAG_other. lia. }
  assert (Hs2 : GET_SIZE m2 (HDRP ptr) = s) by (unfold GET_SIZE; rewrite Hh; exact Hsz).
  repeat split.
  - unfold FTRP. rewrite Hs2. reflexivity.
  - rewrite Hh. exact Hg.
  - unfold m2. rewrite Hf.
    destruct (tag_read m1 (ptr + s - DSIZE) s 1 Hs Hal (or_intror eq_refl)) as (Hg' & _).
    exact Hg'.
  - exact Hs2.
  - unfold GET_ALLOC. rewrite Hh. exact Hb.
  - intros a Ha1 Ha2. unfold m2. rewrite Hf.
    rewrite PUT_NOTAG_outside by lia. unfold m1. apply PUT_NOTAG_outside. lia.
Qed.

(** C3, as amended.  When the remainder [size(ptr) - asize] is at most 16
    bytes ([2 * DSIZE]), [place] does not split: it unlinks [ptr], writes
    header and footer [(size(ptr), allocated)], inserts nothing into the
    index and returns [ptr]. *)
Theorem place_no_split (fuel : nat) (st : heap) (ptr asize : Z)
  (Hle : 0 <= asize <= GET_SIZE (mem st) (HDRP ptr))
  (Hrem : GET_SIZE (mem st) (HDRP ptr) - asize <= 16) :
  let ptr_size := GET_SIZE (mem st) (HDRP ptr) in
  exists st',
    place fuel st ptr asize = Some (st', ptr) /\
    GET (mem st') (HDRP ptr) = PACK ptr_size 1 /\
    FTRP (mem st') ptr = ptr + ptr_size - DSIZE /\
    GET (mem st') (FTRP (mem st') ptr) = PACK ptr_size 1 /\
    GET_SIZE (mem st') (HDRP ptr) = ptr_size /\
    GET_ALLOC (mem st') (HDRP ptr) = 1 /\
    segregated_free_lists st' = segregated_free_lists (delete_node st ptr) /\
    (forall a, (a < HDRP ptr \/ HDRP ptr + 4 <= a) ->
               (a < ptr + ptr_size - DSIZE \/ ptr + ptr_size - DSIZE + 4 <= a) ->
               mem st' a = mem (delete_node st ptr) a).
Proof.
  intros ptr_size.
  pose proof (GET_SIZE_range (mem st) (HDRP ptr)) as Hr.
  pose proof (GET_SIZE_aligned (mem st) (HDRP ptr)) as Hal.
  fold ptr_size in Hle, Hrem, Hr, Hal.
  unfold place. fold ptr_size.
  rewrite (wrap32_small (ptr_size - asize)) by lia.
  destruct (Z.leb_spec (ptr_size - asize) (DSIZE * 2)) as [_|Hgt];
    [|unfold DSIZE in Hgt; lia].
  destruct (whole_block_tags (mem (delete_node st ptr)) ptr ptr_size Hr Hal)
    as (Hf & Hh & Hft & Hsz & Hb & Hfr).
  eexists. split; [reflexivity|]. cbn [mem set_mem segregated_free_lists].
  rewrite Hf. repeat split; assumption.
Qed.

Lemma place_no_split_witness :
  exists st',
    place 100 (state_of heap_init) 1016 48 = Some (st', 1016) /\
    GET (mem st') (HDRP 1016) = PACK 64 1.
Proof.
  assert (E : GET_SIZE (mem (state_of heap_init)) (HDRP 1016) = 64)
    by (vm_compute; reflexivity).
  destruct (place_no_split 100 (state_of heap_init) 1016 48) as (st' & Hp & Hh & _).
  - rewrite E. lia.
  - rewrite E. lia.
  - exists st'. rewrite E in Hh. split; assumption.
Defined.

(** C3, counterexample.  After [mm_init()] the block at 1016 is free and 64
    bytes long.  A request of [asize = 40] leaves a remainder of 24 < 32, and
    [place] splits all the same: the block handed out has size 40, not 64,
    and a free block of 24 bytes is filed in bucket 4. *)
Lemma place_splits_remainder_24 :
  let st := state_of heap_init in
  GET (mem st) (HDRP 1016) = PACK 64 0 /\
  segregated_free_lists st (seg_index 64) = 1016 /\
  64 - 40 < 32 /\
  match place 100 st 1016 40 with
  | Some (st', q) =>
      q = 1016 /\
      GET (mem st') (HDRP 1016) = PACK 40 1 /\
      GET (mem st') (HDRP 1016) <> PACK 64 1 /\
      GET (mem st') (HDRP (1016 + 40)) = PACK 24 0 /\
      segregated_free_lists st' (seg_index 24) = 1016 + 40
  | None => False
  end.
Proof. vm_compute. repeat split; congruence. Qed.

(** C4, as amended.  For a listed free block [ptr] and an aligned request
    [asize >= 73] that leaves a remainder of more than 16 bytes, [place]
    writes header and footer [(remainder, free)] at [ptr], header and footer
    [(asize, allocated)] for the block behind it, files the remainder at the
    head of its bucket and returns the payload of the second block. *)
Theorem place_splits_high (fuel : nat) (st : heap) (L : Z -> list Z) (k ptr asize : Z)
  (Hok : seg_ok st L) (Hfuel : (0 < fuel)%nat) (Hin : In ptr (L k))
  (Hal : asize mod 8 = 0) (Hbig : 73 <= asize)
  (Hrem : 2 * DSIZE < GET_SIZE (mem st) (HDRP ptr) - asize) :
  let ptr_size := GET_SIZE (mem st) (HDRP ptr) in
  let remainder := ptr_size - asize in
  exists st',
    place fuel st ptr asize = Some (st', ptr + remainder) /\
    GET (mem st') (HDRP ptr) = PACK remainder 0 /\
    GET (mem st') (ptr + remainder - DSIZE) = PACK remainder 0 /\
    GET (mem st') (HDRP (ptr + remainder)) = PACK asize 1 /\
    GET (mem st') (ptr + remainder + asize - DSIZE) = PACK asize 1 /\
    segregated_free_lists st' (seg_index remainder) = ptr.
Proof.
  intros ptr_size remainder.
  pose proof (GET_SIZE_range (mem st) (HDRP ptr)) as Hr.
  pose proof (GET_SIZE_aligned (mem st) (HDRP ptr)) as Hal0.
  fold ptr_size in Hr, Hal0, Hrem. unfold DSIZE in Hrem.
  assert (Hrem8 : remainder mod 8 = 0).
  { unfold remainder. Z.div_mod_to_equations. lia. }
  assert (Hrem24 : 24 <= remainder).
  { unfold remainder in *. Z.div_mod_to_equations. lia. }
  destruct (ok_node _ _ Hok _ _ Hin) as (Hk & Hptr & _ & Hidx).
  destruct (in_split _ _ Hin) as (l1 & l2 & HL).
  destruct (delete_node_ok st L k l1 ptr l2 Hok HL) as (Hok1 & Hfr1 & Hhdr1).
  destruct (delete_node_effect st L k l1 ptr l2 Hok HL) as (_ & _ & _ & _ & Hb1).
  set (st1 := delete_node st ptr) in *.
  set (L1 := upd_bucket L k (l1 ++ l2)) in *.
  assert (HL1 : forall k' n, In n (L1 k') -> In n (L k') /\ n <> ptr).
  { intros k' n Hn. unfold L1, upd_bucket in Hn.
    pose proof (ok_nodup _ _ Hok k) as Hnd. rewrite HL in Hnd.
    destruct (Z.eqb_spec k' k) as [->|Hne].
    - split; [rewrite HL; apply in_app_skip; assumption|].
      apply NoDup_remove_2 in Hnd. intros ->. contradiction.
    - split; [assumption|]. intros ->. apply Hne.
      apply (seg_ok_bucket_eq st L Hok k' k ptr); assumption. }
  (* every other listed block lies outside the block of [ptr] *)
  assert (Hout : forall k' n, In n (L1 k') ->
            2 * DSIZE <= GET_SIZE (mem st) (HDRP n) /\
            (n + GET_SIZE (mem st) (HDRP n) <= ptr \/ ptr + ptr_size <= n)).
  { intros k' n Hn. destruct (HL1 k' n Hn) as (Hn' & Hne).
    split; [apply (ok_node _ _ Hok k' n Hn')|].
    pose proof (ok_disjoint _ _ Hok k' k n ptr Hn' Hin Hne) as Hd.
    unfold disjoint_blocks in Hd. fold ptr_size in Hd. lia. }
  unfold place. fold ptr_size. fold st1.
  rewrite (wrap32_small (ptr_size - asize)) by lia. fold remainder.
  destruct (Z.leb_spec remainder (DSIZE * 2)) as [Hle|_]; [unfold DSIZE in Hle; lia|].
  destruct (Z.geb_spec asize 73) as [_|Hlt]; [|lia].
  destruct (split_tags (mem st1) ptr remainder 0 asize 1)
    as (Hnext & G1 & G2 & G3 & G4 & Hfr); try lia; try tauto.
  set (m4 := PUT_NOTAG _ (FTRP _ (NEXT_BLKP _ ptr)) (PACK asize 1)) in *.
  replace (ptr + remainder + asize) with (ptr + ptr_size) in * by (unfold remainder; lia).
  assert (Hok4 : seg_ok (set_mem st1 m4) L1).
  { apply (seg_ok_frame st1); [exact Hok1 | reflexivity |].
    intros k' n a Hn Ha. cbn [mem set_mem]. apply Hfr.
    destruct (Hout k' n Hn) as (Hs & Hd). unfold HDRP, WSIZE, DSIZE in *. lia. }
  assert (Hsz4 : GET_SIZE m4 (HDRP ptr) = remainder).
  { apply (GET_PACK_size m4 (HDRP ptr) remainder 0); first [lia | tauto | exact G1]. }
  destruct (insert_node_ok fuel (set_mem st1 m4) L1 ptr remainder Hok4 Hfuel Hptr)
    as (st' & Hins & Hok' & Hfr' & _ & Hhdr').
  { exact Hsz4. }
  { unfold DSIZE. lia. }
  { intros k' n Hn. unfold disjoint_blocks. cbn [mem set_mem]. rewrite Hsz4.
    destruct (Hout k' n Hn) as (Hs & Hd).
    destruct (HL1 k' n Hn) as (Hn' & _).
    assert (E : GET_SIZE m4 (HDRP n) = GET_SIZE (mem st) (HDRP n)).
    { unfold GET_SIZE. rewrite <- (Hhdr1 k' n Hn'). f_equal.
      apply GET_ext. intros i Hi. apply Hfr. unfold HDRP, WSIZE, DSIZE in *. lia. }
    rewrite E. unfold remainder. lia. }
  cbn [mem set_mem] in Hfr', Hhdr'.
  assert (Hkeep : forall q, ptr + 8 <= q -> q + 4 <= ptr + ptr_size - 4 + 4 ->
            GET (mem st') q = GET m4 q).
  { intros q Hq1 Hq2. apply GET_ext. intros i Hi. apply Hfr'; [lia|].
    intros k' n Hn. destruct (Hout k' n Hn) as (Hs & Hd). unfold DSIZE in *. lia. }
  rewrite Hins.
  assert (Hsz' : GET_SIZE (mem st') (HDRP ptr) = remainder).
  { unfold GET_SIZE. rewrite Hhdr'. exact Hsz4. }
  exists st'. split; [|split; [|split; [|split; [|split]]]].
  - unfold NEXT_BLKP. fold (HDRP ptr). rewrite Hsz'. reflexivity.
  - rewrite Hhdr'. exact G1.
  - rewrite Hkeep by (unfold DSIZE, remainder in *; lia). exact G2.
  - rewrite Hkeep by (unfold HDRP, WSIZE, remainder in *; lia). exact G3.
  - rewrite Hkeep by (unfold DSIZE, remainder in *; lia). exact G4.
  - rewrite (seg_ok_head _ _ Hok' (seg_index remainder)).
    + rewrite upd_bucket_same. reflexivity.
    + pose proof (seg_index_range remainder ltac:(lia)). unfold LISTLIMIT. lia.
Qed.

Lemma place_splits_high_witness :
  exists st',
    place 100 (state_of heap_chunk) 1016 80 = Some (st', 1016 + 4080) /\
    GET (mem st') (HDRP 1016) = PACK 4080 0 /\
    GET (mem st') (HDRP (1016 + 4080)) = PACK 80 1.
Proof.
  assert (E : GET_SIZE (mem (state_of heap_chunk)) (HDRP 1016) = 4160)
    by (vm_compute; reflexivity).
  destruct (place_splits_high 100 (state_of heap_chunk) index_chunk 12 1016 80 seg_ok_chunk)
    as (st' & Hp & G1 & _ & G3 & _).
  - lia.
  - left. reflexivity.
  - reflexivity.
  - lia.
  - rewrite E. unfold DSIZE. lia.
  - rewrite E in *. exists st'. repeat split; assumption.
Defined.

(** C4, counterexample.  On the free block of 4160 bytes at 1016 a request of
    [asize = 72] leaves a remainder of 4088, large enough to split, and
    [72 >= 72]; yet [place] puts the allocated block first, at 1016, and
    the free remainder behind it. *)
Lemma place_72_allocates_low :
  let st := state_of heap_chunk in
  GET (mem st) (HDRP 1016) = PACK 4160 0 /\
  segregated_free_lists st (seg_index 4160) = 1016 /\
  match place 100 st 1016 72 with
  | Some (st', q) =>
      q = 1016 /\ q <> 1016 + 4088 /\
      GET (mem st') (HDRP 1016) = PACK 72 1 /\
      GET (mem st') (HDRP 1016) <> PACK 4088 0 /\
      GET (mem st') (HDRP (1016 + 72)) = PACK 4088 0
  | None => False
  end.
Proof. vm_compute. repeat split; congruence. Qed.

(** * The block structure of the heap *)

Lemma tiles_app m l1 : forall p l2 q,
  tiles m p (l1 ++ l2) q <-> exists r, tiles m p l1 r /\ tiles m r l2 q.
Proof.
  induction l1 as [|[[n s] a] l1 IH]; intros p l2 q; cbn [app tiles].
  - split.
    + intros H. exists p. split; [reflexivity | exact H].
    + intros (r & -> & H). exact H.
  - split.
    + intros (Hn & Hs & Hal & Ha & Hh & Hf & H). apply IH in H.
      destruct H as (r & H1 & H2). exists r. tauto.
    + intros (r & (Hn & Hs & Hal & Ha & Hh & Hf & H1) & H2).
      repeat (split; [assumption|]). apply IH. exists r. tauto.
Qed.

(** What the tiling says about one of its blocks. *)
Lemma tiles_block m bs : forall p q n s a,
  tiles m p bs q -> In (n, s, a) bs ->
  p <= n /\ n + s <= q /\ 2 * DSIZE <= s /\ s mod 8 = 0 /\ (a = 0 \/ a = 1) /\
  GET m (HDRP n) = PACK s a /\ GET m (n + s - DSIZE) = PACK s a.
Proof.
  induction bs as [|[[n0 s0] a0] bs IH]; intros p q n s a; cbn [tiles In]; [tauto|].
  intros (Hn & Hs & Hal & Ha & Hh & Hf & H) [E|Hin].
  - injection E as -> -> ->. subst p.
    assert (n + s <= q).
    { clear - H. revert H. generalize (n + s). induction bs as [|[[n1 s1] a1] bs IH];
        intros p; cbn [tiles]; [lia|].
      intros (Hn & Hs & _ & _ & _ & _ & H). apply IH in H. unfold DSIZE in *. lia. }
    unfold DSIZE in *. repeat split; try assumption; lia.
  - destruct (IH _ _ _ _ _ H Hin) as (H1 & H2). unfold DSIZE in *. split; [lia | exact H2].
Qed.

Lemma tiles_le m bs : forall p q, tiles m p bs q -> p <= q.
Proof.
  induction bs as [|[[n s] a] bs IH]; intros p q; cbn [tiles]; [lia|].
  intros (Hn & Hs & _ & _ & _ & _ & H). apply IH in H. unfold DSIZE in *. lia.
Qed.

Lemma tiles_disjoint m bs : forall p q n1 s1 a1 n2 s2 a2,
  tiles m p bs q -> In (n1, s1, a1) bs -> In (n2, s2, a2) bs ->
  (n1, s1, a1) = (n2, s2, a2) \/ n1 + s1 <= n2 \/ n2 + s2 <= n1.
Proof.
  induction bs as [|[[n0 s0] a0] bs IH]; intros p q n1 s1 a1 n2 s2 a2; cbn [tiles In]; [tauto|].
  intros (Hn & Hs & Hal & Ha & Hh & Hf & H) [E1|H1] [E2|H2].
  - left. congruence.
  - injection E1 as -> -> ->. right. left.
    destruct (tiles_block _ _ _ _ _ _ _ H H2). lia.
  - injection E2 as -> -> ->. right. right.
    destruct (tiles_block _ _ _ _ _ _ _ H H1). lia.
  - apply (IH _ _ _ _ _ _ _ _ H H1 H2).
Qed.

(** A block of the tiling is determined by its payload address. *)
Lemma tiles_functional m bs p q n s1 a1 s2 a2 :
  tiles m p bs q -> In (n, s1, a1) bs -> In (n, s2, a2) bs -> s1 = s2 /\ a1 = a2.
Proof.
  intros H H1 H2.
  destruct (tiles_disjoint _ _ _ _ _ _ _ _ _ _ H H1 H2) as [E|Hd]; [split; congruence|].
  destruct (tiles_block _ _ _ _ _ _ _ H H1) as (_ & _ & Hs1 & _).
  destruct (tiles_block _ _ _ _ _ _ _ H H2) as (_ & _ & Hs2 & _).
  unfold DSIZE in *. lia.
Qed.

(** The tiling only depends on the header and footer words. *)
Lemma tiles_frame m m' bs : forall p q,
  tiles m p bs q ->
  (forall n s a i, In (n, s, a) bs ->
     HDRP n <= i < n \/ n + s - DSIZE <= i < n + s - WSIZE -> m' i = m i) ->
  tiles m' p bs q.
Proof.
  induction bs as [|[[n s] a] bs IH]; intros p q; cbn [tiles]; [tauto|].
  intros (Hn & Hs & Hal & Ha & Hh & Hf & H) Hfr.
  repeat (split; [assumption|]). split; [|split].
  - rewrite <- Hh. apply GET_ext. intros i Hi.
    apply (Hfr n s a); [left; reflexivity|]. unfold HDRP, WSIZE in *. lia.
  - rewrite <- Hf. apply GET_ext. intros i Hi.
    apply (Hfr n s a); [left; reflexivity|]. unfold DSIZE, WSIZE in *. lia.
  - apply IH; [assumption|]. intros n' s' a' i Hin Hi.
    apply (Hfr n' s' a'); [right; assumption | assumption].
Qed.

Lemma tiles_frame_range m m' bs p q :
  tiles m p bs q ->
  (forall i, HDRP p <= i < HDRP q -> m' i = m i) ->
  tiles m' p bs q.
Proof.
  intros H Hfr. apply (tiles_frame m); [assumption|].
  intros n s a i Hin Hi. apply Hfr.
  destruct (tiles_block _ _ _ _ _ _ _ H Hin) as (H1 & H2 & H3 & _).
  unfold HDRP, WSIZE, DSIZE in *. lia.
Qed.

Lemma tiles_aligned m bs : forall p q n s a,
  tiles m p bs q -> p mod 8 = 0 -> In (n, s, a) bs -> n mod 8 = 0.
Proof.
  induction bs as [|[[n0 s0] a0] bs IH]; intros p q n s a; cbn [tiles In]; [tauto|].
  intros (Hn & Hs & Hal & Ha & Hh & Hf & H) Hp [E|Hin].
  - injection E as -> -> ->. subst p. assumption.
  - apply (IH _ _ n s a H); [|assumption]. subst p. Z.div_mod_to_equations. lia.
Qed.

(** Size and allocation bit as the macros read them. *)
Lemma tiles_read m bs p q n s a :
  tiles m p bs q -> In (n, s, a) bs -> q <= 2 ^ 32 -> 0 < p ->
  GET_SIZE m (HDRP n) = s /\ GET_ALLOC m (HDRP n) = a /\
  GET_SIZE m (n + s - DSIZE) = s /\ GET_ALLOC m (n + s - DSIZE) = a /\
  NEXT_BLKP m n = n + s /\ FTRP m n = n + s - DSIZE.
Proof.
  intros H Hin Hq Hp.
  destruct (tiles_block _ _ _ _ _ _ _ H Hin) as (H1 & H2 & H3 & Hal & Ha & Hh & Hf).
  assert (Hr : 0 <= s < 2 ^ 32) by (unfold DSIZE in *; lia).
  destruct (GET_PACK_size _ _ _ _ Hr Hal Ha Hh) as (E1 & E2).
  destruct (GET_PACK_size _ _ _ _ Hr Hal Ha Hf) as (E3 & E4).
  repeat split; try assumption.
  - unfold NEXT_BLKP. fold (HDRP n). rewrite E1. reflexivity.
  - unfold FTRP. rewrite E1. reflexivity.
Qed.

(** * Heaps under the operations of the index *)

Section Core.
Variables (st : heap) (bs : list (Z * Z * Z)).
Hypothesis Hc : heap_core st bs.

Lemma core_first : first_block st = mem_start_brk st + 16 /\ 0 < first_block st
                   /\ first_block st mod 8 = 0 /\ first_block st <= mem_brk st
                   /\ mem_brk st < 2 ^ 32.
Proof.
  destruct (hc_start _ _ Hc) as (H1 & H2). destruct (hc_max _ _ Hc) as (H3 & H4).
  pose proof (tiles_le _ _ _ _ (hc_tiles _ _ Hc)) as H5.
  unfold first_block, WSIZE in *. repeat split; try lia.
  Z.div_mod_to_equations. lia.
Qed.

(** A block of the heap, as the macros read it. *)
Lemma core_block n s a :
  In (n, s, a) bs ->
  first_block st <= n /\ n + s <= mem_brk st /\ 0 < n < 2 ^ 32 /\ n mod 8 = 0 /\
  2 * DSIZE <= s /\ s mod 8 = 0 /\ (a = 0 \/ a = 1) /\
  GET_SIZE (mem st) (HDRP n) = s /\ GET_ALLOC (mem st) (HDRP n) = a /\
  NEXT_BLKP (mem st) n = n + s /\ FTRP (mem st) n = n + s - DSIZE.
Proof.
  intros Hin. destruct core_first as (F1 & F2 & F3 & F4 & F5).
  pose proof (hc_tiles _ _ Hc) as Ht.
  destruct (tiles_block _ _ _ _ _ _ _ Ht Hin) as (H1 & H2 & H3 & H4 & H5 & _).
  destruct (tiles_read _ _ _ _ _ _ _ Ht Hin ltac:(lia) F2) as (R1 & R2 & _ & _ & R3 & R4).
  pose proof (tiles_aligned _ _ _ _ _ _ _ Ht F3 Hin).
  unfold DSIZE in *. repeat split; try assumption; lia.
Qed.

(** The header and footer bytes of a block are no link bytes of a block. *)
Lemma tag_not_link n s a n' s' a' i :
  In (n, s, a) bs -> In (n', s', a') bs ->
  HDRP n <= i < n \/ n + s - DSIZE <= i < n + s - WSIZE ->
  i < n' \/ n' + 8 <= i.
Proof.
  intros H1 H2 Hi. pose proof (hc_tiles _ _ Hc) as Ht.
  destruct (tiles_block _ _ _ _ _ _ _ Ht H1) as (_ & _ & Hs1 & _).
  destruct (tiles_block _ _ _ _ _ _ _ Ht H2) as (_ & _ & Hs2 & _).
  destruct (tiles_disjoint _ _ _ _ _ _ _ _ _ _ Ht H1 H2) as [E|Hd].
  - injection E as -> -> ->. unfold HDRP, WSIZE, DSIZE in *. lia.
  - unfold HDRP, WSIZE, DSIZE in *. lia.
Qed.

(** Stores into link words of blocks leave the block structure alone. *)
Lemma core_frame_links st' :
  mem_start_brk st' = mem_start_brk st -> mem_brk st' = mem_brk st ->
  mem_max_addr st' = mem_max_addr st ->
  (forall i, (forall n s a, In (n, s, a) bs -> i < n \/ n + 8 <= i) -> mem st' i = mem st i) ->
  heap_core st' bs.
Proof.
  intros E1 E2 E3 Hfr. destruct core_first as (F1 & F2 & F3 & F4 & F5).
  assert (Hlow : forall i, i < first_block st -> mem st' i = mem st i).
  { intros i Hi. apply Hfr. intros n s a Hin.
    destruct (core_block _ _ _ Hin) as (B1 & _). lia. }
  assert (Hhigh : forall i, mem_brk st - 4 <= i -> mem st' i = mem st i).
  { intros i Hi. apply Hfr. intros n s a Hin.
    destruct (core_block _ _ _ Hin) as (_ & B2 & _ & _ & B3 & _). unfold DSIZE in *. lia. }
  constructor.
  - rewrite E1. apply (hc_start _ _ Hc).
  - rewrite E2, E3. apply (hc_max _ _ Hc).
  - rewrite E1. destruct (hc_prologue _ _ Hc) as (P1 & P2). split.
    + rewrite <- P1. apply GET_ext. intros i Hi. apply Hlow. unfold WSIZE in *. lia.
    + rewrite <- P2. apply GET_ext. intros i Hi. apply Hlow. unfold WSIZE in *. lia.
  - unfold first_block. rewrite E1, E2. fold (first_block st).
    apply (tiles_frame (mem st)); [apply (hc_tiles _ _ Hc)|].
    intros n s a i Hin Hi. apply Hfr. intros n' s' a' Hin'.
    apply (tag_not_link n s a n' s' a'); assumption.
  - rewrite E2. rewrite <- (hc_epilogue _ _ Hc). apply GET_ext. intros i Hi.
    apply Hhigh. unfold HDRP, WSIZE in *. lia.
Qed.
End Core.

(** [delete_node] on a listed block. *)
Lemma delete_node_pre st bs L k ptr :
  heap_pre st bs L -> In ptr (L k) ->
  exists L',
    heap_pre (delete_node st ptr) bs L' /\
    (forall n, listed L' n <-> listed L n /\ n <> ptr) /\
    mem_brk (delete_node st ptr) = mem_brk st /\
    mem_start_brk (delete_node st ptr) = mem_start_brk st /\
    mem_max_addr (delete_node st ptr) = mem_max_addr st /\
    (forall i, (forall n, listed L n -> n <> ptr -> i < n \/ n + 8 <= i) ->
               mem (delete_node st ptr) i = mem st i).
Proof.
  intros Hp Hin. destruct (in_split _ _ Hin) as (l1 & l2 & HL).
  pose proof (hp_index _ _ _ Hp) as Hok.
  destruct (delete_node_ok st L k l1 ptr l2 Hok HL) as (Hok' & Hfr & _).
  destruct (delete_node_effect st L k l1 ptr l2 Hok HL) as (_ & _ & _ & _ & E1 & E2 & E3).
  assert (Hnd : NoDup (l1 ++ ptr :: l2)) by (rewrite <- HL; apply (ok_nodup _ _ Hok)).
  assert (Hl : forall n, listed (upd_bucket L k (l1 ++ l2)) n <-> listed L n /\ n <> ptr).
  { intros n. split.
    - intros (k' & Hn). unfold upd_bucket in Hn. destruct (Z.eqb_spec k' k) as [E|Hne]; [subst k'|].
      + split; [exists k; rewrite HL; apply in_app_skip; assumption|].
        apply NoDup_remove_2 in Hnd. intros ->. contradiction.
      + split; [exists k'; assumption|]. intros ->. apply Hne.
        apply (seg_ok_bucket_eq st L Hok k' k ptr); assumption.
    - intros ((k' & Hn) & Hne). exists k'. unfold upd_bucket.
      destruct (Z.eqb_spec k' k) as [E|]; [subst k'|assumption].
      rewrite HL in Hn. apply in_app_or in Hn. apply in_or_app.
      destruct Hn as [Hn|[Hn|Hn]]; [left; assumption | congruence | right; assumption]. }
  assert (Hfr' : forall i, (forall n, listed L n -> n <> ptr -> i < n \/ n + 8 <= i) ->
            mem (delete_node st ptr) i = mem st i).
  { intros i Hi. apply Hfr. intros k' n Hn. apply Hi. exists k'. assumption. }
  exists (upd_bucket L k (l1 ++ l2)).
  split; [|split; [exact Hl | split; [exact E2 | split; [exact E1 | split; [exact E3 | exact Hfr']]]]].
  constructor.
  - apply (core_frame_links st bs (hp_core _ _ _ Hp)); try assumption.
    intros i Hi. apply Hfr'. intros n Hn _.
    destruct (hp_listed _ _ _ Hp n Hn) as (s & Hs). apply (Hi n s 0 Hs).
  - exact Hok'.
  - intros n Hn. apply Hl in Hn. apply (hp_listed _ _ _ Hp). tauto.
Qed.

(** [insert_node] on a free block that is not listed yet. *)
Lemma insert_node_pre fuel st bs L ptr s :
  heap_pre st bs L -> In (ptr, s, 0) bs -> ~ listed L ptr -> (0 < fuel)%nat ->
  exists st' L',
    insert_node fuel st ptr s = Some st' /\
    heap_pre st' bs L' /\
    (forall n, listed L' n <-> listed L n \/ n = ptr) /\
    mem_brk st' = mem_brk st /\ mem_start_brk st' = mem_start_brk st /\
    mem_max_addr st' = mem_max_addr st /\
    (forall i, (i < ptr \/ ptr + 8 <= i) ->
               (forall n, listed L n -> i < n \/ n + 8 <= i) -> mem st' i = mem st i).
Proof.
  intros Hp Hin Hnl Hfuel.
  pose proof (hp_index _ _ _ Hp) as Hok. pose proof (hp_core _ _ _ Hp) as Hc.
  destruct (core_block st bs Hc _ _ _ Hin) as (B1 & B2 & B3 & B4 & B5 & B6 & _ & B7 & _).
  assert (Hdis : forall k n, In n (L k) -> disjoint_blocks (mem st) ptr n).
  { intros k n Hn.
    destruct (hp_listed _ _ _ Hp n (ex_intro _ k Hn)) as (s' & Hs').
    destruct (core_block st bs Hc _ _ _ Hs') as (_ & _ & _ & _ & _ & _ & _ & B7' & _).
    unfold disjoint_blocks. rewrite B7, B7'.
    destruct (tiles_disjoint _ _ _ _ _ _ _ _ _ _ (hc_tiles _ _ Hc) Hin Hs') as [E|Hd]; [|exact Hd].
    injection E as -> _. exfalso. apply Hnl. exists k. assumption. }
  destruct (insert_node_ok fuel st L ptr s Hok Hfuel B3 B7 B5 Hdis)
    as (st' & Hins & Hok' & Hfr & _).
  pose proof (GET_SIZE_range (mem st) (HDRP ptr)) as Hr. rewrite B7 in Hr.
  destruct (insert_node_effect fuel st L ptr s Hok Hfuel Hr B3) as (st'' & Hins' & _ & _ & _ & _ & _ & E1 & E2 & E3).
  { intros n Hn. specialize (Hdis _ _ Hn). unfold disjoint_blocks in Hdis.
    destruct (ok_node _ _ Hok _ _ Hn) as (_ & _ & Hsn & _). rewrite B7 in Hdis.
    unfold DSIZE in *. lia. }
  rewrite Hins in Hins'. injection Hins' as <-.
  set (k0 := seg_index s) in *.
  assert (Hl : forall n, listed (upd_bucket L k0 (ptr :: L k0)) n <-> listed L n \/ n = ptr).
  { intros n. split.
    - intros (k' & Hn). unfold upd_bucket in Hn. destruct (Z.eqb_spec k' k0) as [E|Hne]; [subst k'|].
      + destruct Hn as [<-|Hn]; [right; reflexivity | left; exists k0; assumption].
      + left. exists k'. assumption.
    - intros [(k' & Hn)| ->].
      + exists k'. unfold upd_bucket. destruct (Z.eqb_spec k' k0) as [E|]; [subst k'; right|]; assumption.
      + exists k0. rewrite upd_bucket_same. left. reflexivity. }
  assert (Hfr' : forall i, (i < ptr \/ ptr + 8 <= i) ->
               (forall n, listed L n -> i < n \/ n + 8 <= i) -> mem st' i = mem st i).
  { intros i Hi Hn. apply Hfr; [assumption|].
    intros k n Hk. specialize (Hn n (ex_intro _ k Hk)). lia. }
  exists st', (upd_bucket L k0 (ptr :: L k0)).
  split; [exact Hins|].
  split; [|split; [exact Hl | split; [exact E2 | split; [exact E1 | split; [exact E3 | exact Hfr']]]]].
  constructor.
  - apply (core_frame_links st bs Hc); try assumption.
    intros i Hi. apply Hfr'; [apply (Hi ptr s 0 Hin)|].
    intros n Hn. destruct (hp_listed _ _ _ Hp n Hn) as (s' & Hs'). apply (Hi n s' 0 Hs').
  - exact Hok'.
  - intros n Hn. apply Hl in Hn. destruct Hn as [Hn| ->].
    + apply (hp_listed _ _ _ Hp). assumption.
    + exists s. assumption.
Qed.

(** Two stores to words that do not overlap. *)
Lemma put2 m a v b w :
  a + 4 <= b \/ b + 4 <= a -> 0 <= v < 2 ^ 32 -> 0 <= w < 2 ^ 32 ->
  let m' := PUT_NOTAG (PUT_NOTAG m a v) b w in
  GET m' a = v /\ GET m' b = w /\
  (forall i, i < a \/ a + 4 <= i -> i < b \/ b + 4 <= i -> m' i = m i).
Proof.
  intros Hab Hv Hw m'. unfold m'. split; [|split].
  - rewrite GET_PUT_NOTAG_other by lia. rewrite GET_PUT_NOTAG_same. apply wrap32_small. assumption.
  - rewrite GET_PUT_NOTAG_same. apply wrap32_small. assumption.
  - intros i Ha Hb. rewrite !PUT_NOTAG_outside by lia. reflexivity.
Qed.

Lemma PACK_range s a :
  0 <= s < 2 ^ 32 -> s mod 8 = 0 -> a = 0 \/ a = 1 -> 0 <= PACK s a < 2 ^ 32.
Proof.
  intros Hs Hal Ha. rewrite (PACK_tag s a Hal Ha).
  change (2 ^ 32) with 4294967296 in *. Z.div_mod_to_equations. lia.
Qed.

(** One block, from its two boundary tags. *)
Lemma tiles_single m n s a :
  2 * DSIZE <= s -> s mod 8 = 0 -> a = 0 \/ a = 1 ->
  GET m (HDRP n) = PACK s a -> GET m (n + s - DSIZE) = PACK s a ->
  tiles m n [(n, s, a)] (n + s).
Proof. intros. cbn [tiles]. tauto. Qed.

(** Replacing a run of unlisted blocks by another tiling of the same
    stretch of the heap. *)
Lemma pre_replace st L pre mid mid' post r r' m' :
  heap_pre st (pre ++ mid ++ post) L ->
  tiles (mem st) (first_block st) pre r -> tiles (mem st) r mid r' ->
  tiles (mem st) r' post (mem_brk st) ->
  (forall n s a, In (n, s, a) mid -> ~ listed L n) ->
  (forall i, i < HDRP r \/ HDRP r' <= i -> m' i = mem st i) ->
  tiles m' r mid' r' ->
  heap_pre (set_mem st m') (pre ++ mid' ++ post) L.
Proof.
  intros Hp T1 T2 T3 Hmid Hfr T2'.
  pose proof (hp_core _ _ _ Hp) as Hc.
  destruct (core_first st _ Hc) as (F1 & F2 & F3 & F4 & F5).
  pose proof (tiles_le _ _ _ _ T1) as Le1. pose proof (tiles_le _ _ _ _ T2) as Le2.
  pose proof (tiles_le _ _ _ _ T3) as Le3.
  constructor.
  - constructor; cbn [set_mem mem mem_start_brk mem_brk mem_max_addr].
    + apply (hc_start _ _ Hc).
    + apply (hc_max _ _ Hc).
    + destruct (hc_prologue _ _ Hc) as (P1 & P2). split.
      * rewrite <- P1. apply GET_ext. intros i Hi. apply Hfr. unfold HDRP, WSIZE in *. lia.
      * rewrite <- P2. apply GET_ext. intros i Hi. apply Hfr. unfold HDRP, WSIZE in *. lia.
    + change (first_block (set_mem st m')) with (first_block st).
      apply tiles_app. exists r. split.
      * apply (tiles_frame_range (mem st)); [assumption|].
        intros i Hi. apply Hfr. lia.
      * apply tiles_app. exists r'. split; [assumption|].
        apply (tiles_frame_range (mem st)); [assumption|].
        intros i Hi. apply Hfr. lia.
    + rewrite <- (hc_epilogue _ _ Hc). apply GET_ext. intros i Hi. apply Hfr.
      unfold HDRP, WSIZE in *. lia.
  - apply (seg_ok_frame st); [apply (hp_index _ _ _ Hp) | reflexivity |].
    intros k n a Hn Ha. cbn [set_mem mem]. apply Hfr.
    destruct (hp_listed _ _ _ Hp n (ex_intro _ k Hn)) as (s & Hs).
    apply in_app_or in Hs. destruct Hs as [Hs|Hs].
    + destruct (tiles_block _ _ _ _ _ _ _ T1 Hs) as (_ & B & Bs & _).
      unfold HDRP, WSIZE, DSIZE in *. lia.
    + apply in_app_or in Hs. destruct Hs as [Hs|Hs].
      * exfalso. apply (Hmid n s 0 Hs). exists k. assumption.
      * destruct (tiles_block _ _ _ _ _ _ _ T3 Hs) as (B & _).
        unfold HDRP, WSIZE, DSIZE in *. lia.
  - intros n Hn. destruct (hp_listed _ _ _ Hp n Hn) as (s & Hs). exists s.
    apply in_app_or in Hs. apply in_or_app. destruct Hs as [Hs|Hs]; [left; assumption | right].
    apply in_app_or in Hs. apply in_or_app. destruct Hs as [Hs|Hs]; [|right; assumption].
    exfalso. apply (Hmid n s 0 Hs). assumption.
Qed.

(** * Neighbours *)

Lemma adjacent_free_cons b bs :
  adjacent_free (b :: bs)
  = ((alloc_of b =? 0) && (first_alloc bs =? 0)) || adjacent_free bs.
Proof.
  destruct b as [[n s] a]. destruct bs as [|[[n' s'] a'] bs]; cbn.
  - rewrite andb_false_r. reflexivity.
  - reflexivity.
Qed.

Lemma last_alloc_cons b bs : bs <> [] -> last_alloc (b :: bs) = last_alloc bs.
Proof. intros H. unfold last_alloc. destruct bs; [congruence | reflexivity]. Qed.

Lemma adjacent_free_app l1 : forall l2,
  adjacent_free (l1 ++ l2)
  = adjacent_free l1 || adjacent_free l2 || ((last_alloc l1 =? 0) && (first_alloc l2 =? 0)).
Proof.
  induction l1 as [|b l1 IH]; intros l2.
  - change (adjacent_free ([] ++ l2)) with (adjacent_free l2).
    change (adjacent_free []) with false. change (last_alloc []) with 1.
    change (1 =? 0) with false. cbn [orb andb]. rewrite orb_false_r. reflexivity.
  - change ((b :: l1) ++ l2) with (b :: (l1 ++ l2)).
    rewrite (adjacent_free_cons b (l1 ++ l2)), (adjacent_free_cons b l1), IH.
    destruct l1 as [|b1 l1].
    + change (first_alloc ([] ++ l2)) with (first_alloc l2).
      change (last_alloc [b]) with (alloc_of b).
      change (first_alloc []) with 1. change (last_alloc []) with 1.
      change (adjacent_free []) with false. change (1 =? 0) with false.
      destruct (alloc_of b =? 0), (first_alloc l2 =? 0), (adjacent_free l2); reflexivity.
    + rewrite (last_alloc_cons b (b1 :: l1)) by discriminate.
      change (first_alloc ((b1 :: l1) ++ l2)) with (first_alloc (b1 :: l1)).
      destruct (alloc_of b =? 0), (first_alloc (b1 :: l1) =? 0), (adjacent_free (b1 :: l1)),
        (adjacent_free l2), (last_alloc (b1 :: l1) =? 0), (first_alloc l2 =? 0); reflexivity.
Qed.

Lemma last_alloc_snoc l b : last_alloc (l ++ [b]) = alloc_of b.
Proof. unfold last_alloc. rewrite last_last. reflexivity. Qed.

Section Neighbours.
Variables (st : heap) (pre post : list (Z * Z * Z)) (ptr s a : Z).
Hypothesis Hc : heap_core st (pre ++ (ptr, s, a) :: post).

Lemma split_tiles :
  tiles (mem st) (first_block st) pre ptr /\
  tiles (mem st) (ptr + s) post (mem_brk st).
Proof.
  pose proof (hc_tiles _ _ Hc) as Ht. apply tiles_app in Ht.
  destruct Ht as (r & T1 & T2). cbn [tiles] in T2. destruct T2 as (-> & _ & _ & _ & _ & _ & T2).
  split; assumption.
Qed.

(** The block in front of [ptr], as [coalesce] reads it through the footer
    at [ptr - DSIZE]; in front of the first block it finds the prologue. *)
Lemma prev_block :
  GET_ALLOC (mem st) (HDRP (PREV_BLKP (mem st) ptr)) = last_alloc pre /\
  forall pre' pv sv av, pre = pre' ++ [(pv, sv, av)] ->
    PREV_BLKP (mem st) ptr = pv /\ pv + sv = ptr /\
    tiles (mem st) (first_block st) pre' pv.
Proof.
  destruct split_tiles as (T1 & _). destruct (core_first st _ Hc) as (F1 & F2 & F3 & F4 & F5).
  destruct pre as [|b0 pre0] eqn:Epre.
  - cbn [tiles] in T1. split; [|intros pre' pv sv av E; destruct pre'; discriminate].
    destruct (hc_prologue _ _ Hc) as (P1 & P2).
    assert (Hr : 0 <= DSIZE < 2 ^ 32) by (unfold DSIZE; lia).
    assert (E8 : DSIZE mod 8 = 0) by reflexivity.
    destruct (GET_PACK_size _ _ _ _ Hr E8 (or_intror eq_refl) P2) as (S2 & _).
    destruct (GET_PACK_size _ _ _ _ Hr E8 (or_intror eq_refl) P1) as (_ & A1).
    unfold PREV_BLKP, HDRP. rewrite <- T1, F1.
    replace (mem_start_brk st + 16 - DSIZE) with (mem_start_brk st + 2 * WSIZE)
      by (unfold DSIZE, WSIZE; lia).
    rewrite S2.
    replace (mem_start_brk st + 16 - DSIZE - WSIZE) with (mem_start_brk st + 1 * WSIZE)
      by (unfold DSIZE, WSIZE; lia).
    rewrite A1. reflexivity.
  - rewrite <- Epre in *.
    destruct (@exists_last _ pre ltac:(rewrite Epre; discriminate)) as (pre' & [[pv sv] av] & E).
    rewrite E in T1. apply tiles_app in T1. destruct T1 as (r & T1 & T1').
    cbn [tiles] in T1'. destruct T1' as (Epv & Hs & Hal & Ha & Hh & Hf & Eptr).
    subst r.
    pose proof (tiles_le _ _ _ _ T1) as Hle. rewrite <- Eptr.
    assert (Hr : 0 <= sv < 2 ^ 32).
    { pose proof (hc_tiles _ _ Hc) as Ht.
      assert (Hin : In (ptr, s, a) (pre ++ (ptr, s, a) :: post)) by apply in_elt.
      destruct (tiles_block _ _ _ _ _ _ _ Ht Hin) as (_ & B & Bs & _). unfold DSIZE in *. lia. }
    destruct (GET_PACK_size _ _ _ _ Hr Hal Ha Hf) as (S1 & _).
    destruct (GET_PACK_size _ _ _ _ Hr Hal Ha Hh) as (_ & A1).
    assert (EP : PREV_BLKP (mem st) (pv + sv) = pv).
    { unfold PREV_BLKP. rewrite S1. lia. }
    split.
    + rewrite EP, A1, E, last_alloc_snoc. reflexivity.
    + intros pre'' pv' sv' av' E'. rewrite E in E'. apply app_inj_tail in E'.
      destruct E' as (-> & E'). injection E' as <- <- <-. tauto.
Qed.

(** The block behind [ptr]; behind the last block it is the epilogue. *)
Lemma next_block :
  0 <= s < 2 ^ 32 /\ NEXT_BLKP (mem st) ptr = ptr + s /\
  GET_SIZE (mem st) (HDRP ptr) = s /\
  GET_ALLOC (mem st) (HDRP (ptr + s)) = first_alloc post /\
  (post = [] -> ptr + s = mem_brk st /\ GET_SIZE (mem st) (HDRP (ptr + s)) = 0) /\
  forall nx sx ax post', post = (nx, sx, ax) :: post' ->
    nx = ptr + s /\ GET_SIZE (mem st) (HDRP (ptr + s)) = sx /\
    tiles (mem st) (nx + sx) post' (mem_brk st).
Proof.
  destruct split_tiles as (_ & T2).
  assert (Hin : In (ptr, s, a) (pre ++ (ptr, s, a) :: post)) by apply in_elt.
  destruct (core_block st _ Hc _ _ _ Hin) as (B1 & B2 & B3 & _ & B4 & _ & _ & B5 & _ & B6 & _).
  destruct (core_first st _ Hc) as (F1 & F2 & F3 & F4 & F5).
  assert (Hr : 0 <= s < 2 ^ 32) by (unfold DSIZE in *; lia).
  split; [assumption|]. split; [assumption|]. split; [assumption|].
  destruct post as [|[[nx sx] ax] post'] eqn:Epost.
  - cbn [tiles] in T2. split; [|split; [|intros; discriminate]].
    + rewrite T2. unfold GET_ALLOC. rewrite (hc_epilogue _ _ Hc). reflexivity.
    + intros _. split; [assumption|]. rewrite T2. unfold GET_SIZE.
      rewrite (hc_epilogue _ _ Hc). reflexivity.
  - cbn [tiles] in T2. destruct T2 as (-> & Hs & Hal & Ha & Hh & Hf & T2).
    assert (Hin' : In (ptr + s, sx, ax) (pre ++ (ptr, s, a) :: (ptr + s, sx, ax) :: post'))
      by (apply in_or_app; right; right; left; reflexivity).
    destruct (core_block st _ Hc _ _ _ Hin') as (_ & _ & _ & _ & _ & _ & _ & C1 & C2 & _).
    split; [exact C2|]. split; [intros; discriminate|].
    intros nx' sx' ax' post'' E. injection E as <- <- <- <-. tauto.
Qed.
End Neighbours.

Lemma tiles_len m bs : forall p q,
  tiles m p bs q -> (q - p) mod 8 = 0 /\ (bs <> [] -> 2 * DSIZE <= q - p).
Proof.
  induction bs as [|[[n s] a] bs IH]; intros p q; cbn [tiles].
  - intros ->. rewrite Z.sub_diag. split; [reflexivity | congruence].
  - intros (-> & Hs & Hal & _ & _ & _ & H). destruct (IH _ _ H) as (H1 & H2).
    pose proof (tiles_le _ _ _ _ H). split.
    + Z.div_mod_to_equations. lia.
    + intros _. unfold DSIZE in *. lia.
Qed.

(** * Merging blocks *)

(** Once a run [mid] of unlisted blocks carries the boundary tags of one
    free block, [insert_node] files that block and the heap is laid out with
    it in place of the run. *)
Lemma merge_blocks fuel st L pre mid post r r' m' :
  heap_pre st (pre ++ mid ++ post) L ->
  tiles (mem st) (first_block st) pre r -> tiles (mem st) r mid r' ->
  tiles (mem st) r' post (mem_brk st) ->
  (forall n s a, In (n, s, a) mid -> ~ listed L n) -> mid <> [] ->
  GET m' (HDRP r) = PACK (r' - r) 0 -> GET m' (r' - DSIZE) = PACK (r' - r) 0 ->
  (forall i, i < HDRP r \/ HDRP r' <= i -> m' i = mem st i) ->
  (0 < fuel)%nat ->
  exists st' L',
    insert_node fuel (set_mem st m') r (r' - r) = Some st' /\
    heap_pre st' (pre ++ (r, r' - r, 0) :: post) L' /\
    (forall n, listed L' n <-> listed L n \/ n = r) /\
    mem_brk st' = mem_brk st /\ mem_start_brk st' = mem_start_brk st /\
    mem_max_addr st' = mem_max_addr st /\
    (forall i, i < HDRP r \/ HDRP r' <= i ->
               (forall n, listed L n -> i < n \/ n + 8 <= i) -> mem st' i = mem st i).
Proof.
  intros Hp T1 T2 T3 Hmid Hne G1 G2 Hfr Hfuel.
  destruct (tiles_len _ _ _ _ T2) as (L1 & L2). specialize (L2 Hne).
  assert (Hnl : ~ listed L r).
  { destruct mid as [|[[n s] a] mid]; [congruence|].
    cbn [tiles] in T2. destruct T2 as (E & _). subst n.
    apply (Hmid r s a). left. reflexivity. }
  assert (T2' : tiles m' r [(r, r' - r, 0)] r').
  { cbn [tiles]. replace (r + (r' - r)) with r' by lia. tauto. }
  pose proof (pre_replace st L pre mid [(r, r' - r, 0)] post r r' m' Hp T1 T2 T3 Hmid Hfr T2') as Hp'.
  cbn [app] in Hp'.
  destruct (insert_node_pre fuel (set_mem st m') _ L r (r' - r) Hp') as (st' & L' & Hins & Hp'' & Hl & E1 & E2 & E3 & Hfr').
  { apply in_elt. }
  { assumption. }
  { assumption. }
  cbn [set_mem mem mem_brk mem_start_brk mem_max_addr] in *.
  exists st', L'. split; [exact Hins|]. split; [exact Hp''|]. split; [exact Hl|].
  split; [exact E1|]. split; [exact E2|]. split; [exact E3|].
  intros i Hi Hn. rewrite Hfr'; [apply Hfr; exact Hi | | exact Hn].
  unfold HDRP, WSIZE, DSIZE in *. lia.
Qed.

Lemma alloc_bit_cases m bs p q :
  tiles m p bs q ->
  (first_alloc bs = 1 \/ exists n s rest, bs = (n, s, 0) :: rest) /\
  (last_alloc bs = 1 \/ exists n s front, bs = front ++ [(n, s, 0)]).
Proof.
  intros T. split.
  - destruct bs as [|[[n s] a] rest]; [left; reflexivity|].
    cbn [tiles] in T. destruct T as (_ & _ & _ & [-> | ->] & _);
      [right; eauto | left; reflexivity].
  - destruct bs as [|b0 bs0] eqn:E; [left; reflexivity|]. rewrite <- E in *.
    destruct (@exists_last _ bs ltac:(rewrite E; discriminate)) as (front & [[n s] a] & E').
    rewrite E' in *. apply tiles_app in T. destruct T as (r & _ & T).
    cbn [tiles] in T. destruct T as (_ & _ & _ & [-> | ->] & _).
    + right. eauto.
    + left. rewrite last_alloc_snoc. reflexivity.
Qed.

(** The heap after a merge: the block [(r, sz, 0)] has taken the place of
    the run [mid] of free blocks, its neighbours are allocated. *)
Lemma merged_heap_ok st' L L' pre mid post r sz :
  heap_pre st' (pre ++ (r, sz, 0) :: post) L' ->
  (forall n s, In (n, s, 0) (pre ++ mid ++ post) -> listed L n) ->
  (forall n, listed L' n <-> (listed L n /\ forall s a, ~ In (n, s, a) mid) \/ n = r) ->
  (forall n s a, In (n, s, a) mid -> a = 0) ->
  (forall n s a, In (n, s, a) (pre ++ post) -> forall s' a', ~ In (n, s', a') mid) ->
  adjacent_free pre = false -> adjacent_free post = false ->
  last_alloc pre = 1 -> first_alloc post = 1 ->
  heap_ok st' (pre ++ (r, sz, 0) :: post) L' /\
  (forall n s, In (n, s, 1) (pre ++ (r, sz, 0) :: post) <-> In (n, s, 1) (pre ++ mid ++ post)).
Proof.
  intros Hp Hfree Hl Hmid Hsep A1 A2 La Fa. split.
  - constructor; [exact Hp | |].
    + intros n s Hin. apply Hl. apply in_app_or in Hin. destruct Hin as [Hin|[E|Hin]].
      * left. split; [apply (Hfree n s); apply in_or_app; left; assumption|].
        apply (Hsep n s 0). apply in_or_app. left. assumption.
      * right. congruence.
      * left. split; [apply (Hfree n s); apply in_or_app; right; apply in_or_app; right; assumption|].
        apply (Hsep n s 0). apply in_or_app. right. assumption.
    + rewrite adjacent_free_app, adjacent_free_cons, A1, A2, La, Fa. reflexivity.
  - intros n s. split; intros Hin.
    + apply in_app_or in Hin. apply in_or_app. destruct Hin as [Hin|[E|Hin]].
      * left. assumption.
      * discriminate.
      * right. apply in_or_app. right. assumption.
    + apply in_app_or in Hin. apply in_or_app. destruct Hin as [Hin|Hin]; [left; assumption|].
      apply in_app_or in Hin. destruct Hin as [Hin|Hin].
      * specialize (Hmid _ _ _ Hin). discriminate.
      * right. right. assumption.
Qed.

(** * [coalesce] *)

(** Blocks of a heap that stand in different places of the list are
    different blocks. *)
Lemma tiles_apart m pre mid post p q n s a s' a' :
  tiles m p (pre ++ mid ++ post) q ->
  In (n, s, a) (pre ++ post) -> ~ In (n, s', a') mid.
Proof.
  intros T Hin Hmid.
  apply tiles_app in T. destruct T as (r & T1 & T). apply tiles_app in T.
  destruct T as (r' & T2 & T3).
  destruct (tiles_block _ _ _ _ _ _ _ T2 Hmid) as (M1 & M2 & M3 & _).
  apply in_app_or in Hin. destruct Hin as [Hin|Hin].
  - destruct (tiles_block _ _ _ _ _ _ _ T1 Hin) as (B1 & B2 & B3 & _). unfold DSIZE in *. lia.
  - destruct (tiles_block _ _ _ _ _ _ _ T3 Hin) as (B1 & B2 & B3 & _). unfold DSIZE in *. lia.
Qed.

(** Case 2: only the next block is free. *)
Lemma coalesce_next fuel st L pre ptr s nx sx post :
  let bs := pre ++ (ptr, s, 0) :: (nx, sx, 0) :: post in
  heap_pre st bs L -> (forall n sz, In (n, sz, 0) bs -> listed L n) ->
  adjacent_free pre = false -> adjacent_free ((nx, sx, 0) :: post) = false ->
  last_alloc pre = 1 -> (0 < fuel)%nat ->
  exists st' L',
    coalesce fuel st ptr = Some (st', ptr) /\
    heap_ok st' (pre ++ (ptr, s + sx, 0) :: post) L' /\
    mem_brk st' = mem_brk st /\ mem_start_brk st' = mem_start_brk st /\
    mem_max_addr st' = mem_max_addr st /\
    (forall n sz, In (n, sz, 1) (pre ++ (ptr, s + sx, 0) :: post) <-> In (n, sz, 1) bs) /\
    (forall i, (forall n sz, In (n, sz, 0) bs -> i < HDRP n \/ n + sz - WSIZE <= i) ->
               mem st' i = mem st i).
Proof.
  intros bs Hp Hfree A1 A2 La Hfuel.
  pose proof (hp_core _ _ _ Hp) as Hc.
  destruct (prev_block st pre _ ptr s 0 Hc) as (PA & _).
  destruct (next_block st pre _ ptr s 0 Hc) as (Hr & NB & SZ & NA & _ & NX).
  destruct (NX nx sx 0 post eq_refl) as (Enx & SX & T3).
  destruct (split_tiles st pre _ ptr s 0 Hc) as (T1 & _).
  assert (Iptr : In (ptr, s, 0) bs) by apply in_elt.
  assert (Inx : In (nx, sx, 0) bs) by (apply in_or_app; right; right; left; reflexivity).
  destruct (core_block st bs Hc _ _ _ Iptr) as (_ & _ & Bp & _ & Bs & Bs8 & _).
  destruct (core_block st bs Hc _ _ _ Inx) as (_ & Bx2 & _ & _ & Bsx & Bsx8 & _).
  destruct (core_first st bs Hc) as (_ & _ & _ & _ & F5).
  rewrite adjacent_free_cons in A2. apply orb_false_iff in A2. destruct A2 as (A2 & A3).
  change (alloc_of (nx, sx, 0) =? 0) with true in A2. cbn [andb] in A2.
  assert (Fa : first_alloc post = 1).
  { destruct (alloc_bit_cases _ _ _ _ T3) as ([E|(n0 & s0 & r0 & E)] & _); [exact E|].
    rewrite E in A2. discriminate. }
  (* unlink both blocks *)
  destruct (Hfree _ _ Iptr) as (k & Hk).
  destruct (delete_node_pre st bs L k ptr Hp Hk) as (L1 & Hp1 & Hl1 & E1b & E1s & E1m & Hfr1).
  set (st1 := delete_node st ptr) in *.
  pose proof (hp_core _ _ _ Hp1) as Hc1.
  destruct (next_block st1 pre _ ptr s 0 Hc1) as (_ & NB1 & _).
  assert (Hx1 : listed L1 nx).
  { apply Hl1. split; [apply (Hfree _ _ Inx)|]. unfold DSIZE in *. lia. }
  destruct Hx1 as (k' & Hk').
  destruct (delete_node_pre st1 bs L1 k' nx Hp1 Hk') as (L2 & Hp2 & Hl2 & E2b & E2s & E2m & Hfr2).
  set (st2 := delete_node st1 nx) in *.
  pose proof (hp_core _ _ _ Hp2) as Hc2.
  destruct (next_block st2 pre _ ptr s 0 Hc2) as (_ & NB2 & _ & _ & _ & NX2).
  destruct (NX2 nx sx 0 post eq_refl) as (_ & SX2 & T32).
  destruct (split_tiles st2 pre _ ptr s 0 Hc2) as (T12 & T22).
  (* the boundary tags of the merged block *)
  assert (Hsz : 0 <= s + sx < 2 ^ 32) by (unfold DSIZE in *; lia).
  assert (Hsz8 : (s + sx) mod 8 = 0) by (Z.div_mod_to_equations; lia).
  destruct (tag_read (mem st2) (HDRP ptr) (s + sx) 0 Hsz Hsz8 (or_introl eq_refl)) as (_ & TS & _).
  pose proof (PACK_range (s + sx) 0 Hsz Hsz8 (or_introl eq_refl)) as Hpk.
  destruct (put2 (mem st2) (HDRP ptr) (PACK (s + sx) 0) (ptr + (s + sx) - DSIZE) (PACK (s + sx) 0))
    as (G1 & G2 & Hfr4); try assumption.
  { unfold HDRP, WSIZE, DSIZE in *. lia. }
  set (m4 := PUT_NOTAG (PUT_NOTAG (mem st2) (HDRP ptr) (PACK (s + sx) 0))
                       (ptr + (s + sx) - DSIZE) (PACK (s + sx) 0)) in *.
  destruct (merge_blocks fuel st2 L2 pre [(ptr, s, 0); (nx, sx, 0)] post ptr (nx + sx) m4)
    as (st' & L' & Hins & Hp' & Hl' & E3b & E3s & E3m & Hfr').
  { exact Hp2. }
  { exact T12. }
  { cbn [tiles]. destruct (tiles_block _ _ _ _ _ _ _ (hc_tiles _ _ Hc2) Iptr) as (_ & _ & ? & ? & ? & ? & ?).
    destruct (tiles_block _ _ _ _ _ _ _ (hc_tiles _ _ Hc2) Inx) as (_ & _ & ? & ? & ? & ? & ?).
    subst nx. tauto. }
  { exact T32. }
  { intros n sz a [E|[E|[]]] Hn; injection E as <- <- <-.
    - apply Hl2 in Hn. destruct Hn as (Hn & _). apply Hl1 in Hn. tauto.
    - apply Hl2 in Hn. tauto. }
  { discriminate. }
  { replace (nx + sx - ptr) with (s + sx) by lia. exact G1. }
  { replace (nx + sx - ptr) with (s + sx) by lia.
    replace (nx + sx - DSIZE) with (ptr + (s + sx) - DSIZE) by lia. exact G2. }
  { intros i Hi. apply Hfr4; unfold HDRP, WSIZE, DSIZE in *; lia. }
  { exact Hfuel. }
  replace (nx + sx - ptr) with (s + sx) in * by lia.
  (* the result of [coalesce] *)
  assert (Hres : coalesce fuel st ptr = Some (st', ptr)).
  { unfold coalesce. rewrite PA, NB, NA, SZ, La.
    change (first_alloc ((nx, sx, 0) :: post)) with 0.
    change (1 =? 0) with false. change (0 =? 0) with true. cbn [negb andb].
    fold st1. rewrite NB1, <- Enx. fold st2. rewrite NB2, SX2.
    rewrite (wrap32_small (s + sx)) by assumption.
    unfold FTRP. rewrite TS. fold m4. rewrite Hins. reflexivity. }
  assert (Hl'' : forall n, listed L' n <->
            (listed L n /\ forall sz a, ~ In (n, sz, a) [(ptr, s, 0); (nx, sx, 0)]) \/ n = ptr).
  { intros n. rewrite Hl', Hl2, Hl1. cbn [In]. split.
    - intros [((Hn & N1) & N2)|E]; [left | right; exact E].
      split; [exact Hn|]. intros sz a [E|[E|[]]]; congruence.
    - intros [(Hn & N)|E]; [left | right; exact E].
      split; [split; [exact Hn|]|].
      + intros ->. apply (N s 0). left. reflexivity.
      + intros ->. apply (N sx 0). right. left. reflexivity. }
  destruct (merged_heap_ok st' L L' pre [(ptr, s, 0); (nx, sx, 0)] post ptr (s + sx))
    as (Hok' & Hal'); try assumption.
  { intros n sz a [E|[E|[]]]; congruence. }
  { intros n sz a Hin sz' a'.
    apply (tiles_apart (mem st) pre [(ptr, s, 0); (nx, sx, 0)] post _ _ n sz a sz' a'
             (hc_tiles _ _ Hc) Hin). }
  exists st', L'. split; [exact Hres|]. split; [exact Hok'|].
  split; [congruence|]. split; [congruence|]. split; [congruence|]. split; [exact Hal'|].
  intros i Hi.
  assert (Hlinks : forall n, listed L n -> i < n \/ n + 8 <= i).
  { intros n (k0 & Hn).
    destruct (hp_listed _ _ _ Hp n (ex_intro _ k0 Hn)) as (sz & Hsz').
    destruct (core_block st bs Hc _ _ _ Hsz') as (_ & _ & _ & _ & ? & _).
    specialize (Hi n sz Hsz'). unfold HDRP, WSIZE, DSIZE in *. lia. }
  pose proof (Hi _ _ Iptr) as Hi1. pose proof (Hi _ _ Inx) as Hi2.
  rewrite Hfr'.
  - unfold st2. rewrite Hfr2 by (intros n Hn _; apply Hlinks; apply Hl1 in Hn; tauto).
    apply Hfr1. intros n Hn _. apply Hlinks. exact Hn.
  - unfold HDRP, WSIZE, DSIZE in *. lia.
  - intros n Hn. apply Hlinks. apply Hl2 in Hn. destruct Hn as (Hn & _). apply Hl1 in Hn. tauto.
Qed.

Lemma GET_SIZE_PUT_other m a v p :
  p + 4 <= a \/ a + 4 <= p -> GET_SIZE (PUT_NOTAG m a v) p = GET_SIZE m p.
Proof. intros H. unfold GET_SIZE. rewrite GET_PUT_NOTAG_other by lia. reflexivity. Qed.

Lemma last_alloc_before_free pre n s :
  adjacent_free (pre ++ [(n, s, 0)]) = false -> 
  adjacent_free pre = false /\ (last_alloc pre =? 0) = false.
Proof.
  rewrite adjacent_free_app. intros H.
  apply orb_false_iff in H. destruct H as (H & H2).
  apply orb_false_iff in H. destruct H as (H & _).
  change (first_alloc [(n, s, 0)] =? 0) with true in H2. rewrite andb_true_r in H2.
  split; assumption.
Qed.

(** Case 3: only the previous block is free. *)
Lemma coalesce_prev fuel st L pre pv sv ptr s post :
  let bs := pre ++ (pv, sv, 0) :: (ptr, s, 0) :: post in
  heap_pre st bs L -> (forall n sz, In (n, sz, 0) bs -> listed L n) ->
  adjacent_free (pre ++ [(pv, sv, 0)]) = false -> adjacent_free post = false ->
  first_alloc post = 1 -> (0 < fuel)%nat ->
  exists st' L',
    coalesce fuel st ptr = Some (st', pv) /\
    heap_ok st' (pre ++ (pv, sv + s, 0) :: post) L' /\
    mem_brk st' = mem_brk st /\ mem_start_brk st' = mem_start_brk st /\
    mem_max_addr st' = mem_max_addr st /\
    (forall n sz, In (n, sz, 1) (pre ++ (pv, sv + s, 0) :: post) <-> In (n, sz, 1) bs) /\
    (forall i, (forall n sz, In (n, sz, 0) bs -> i < HDRP n \/ n + sz - WSIZE <= i) ->
               mem st' i = mem st i).
Proof.
  intros bs Hp Hfree A1 A2 Fa Hfuel.
  assert (Ebs : bs = (pre ++ [(pv, sv, 0)]) ++ (ptr, s, 0) :: post)
    by (unfold bs; rewrite <- app_assoc; reflexivity).
  destruct (last_alloc_before_free _ _ _ A1) as (A0 & La).
  assert (Iptr : In (ptr, s, 0) bs) by (apply in_or_app; right; right; left; reflexivity).
  assert (Ipv : In (pv, sv, 0) bs) by apply in_elt.
  (* reading a heap of this shape *)
  assert (Hread : forall st0, heap_core st0 bs ->
            GET_ALLOC (mem st0) (HDRP (PREV_BLKP (mem st0) ptr)) = 0 /\
            PREV_BLKP (mem st0) ptr = pv /\ pv + sv = ptr /\
            NEXT_BLKP (mem st0) ptr = ptr + s /\ GET_SIZE (mem st0) (HDRP ptr) = s /\
            GET_ALLOC (mem st0) (HDRP (ptr + s)) = 1 /\
            GET_SIZE (mem st0) (HDRP pv) = sv /\ FTRP (mem st0) ptr = ptr + s - DSIZE /\
            tiles (mem st0) (first_block st0) pre pv /\
            tiles (mem st0) (ptr + s) post (mem_brk st0)).
  { intros st0 Hc0. pose proof Hc0 as Hc0'. rewrite Ebs in Hc0'.
    destruct (prev_block st0 _ _ ptr s 0 Hc0') as (PA & PV).
    destruct (PV pre pv sv 0 eq_refl) as (P1 & P2 & P3).
    destruct (next_block st0 _ _ ptr s 0 Hc0') as (_ & NB & SZ & NA & _).
    destruct (split_tiles st0 _ _ ptr s 0 Hc0') as (_ & T3).
    destruct (core_block st0 bs Hc0 _ _ _ Ipv) as (_ & _ & _ & _ & _ & _ & _ & SV & _).
    destruct (core_block st0 bs Hc0 _ _ _ Iptr) as (_ & _ & _ & _ & _ & _ & _ & _ & _ & _ & FT).
    rewrite last_alloc_snoc in PA. rewrite Fa in NA. tauto. }
  pose proof (hp_core _ _ _ Hp) as Hc.
  destruct (Hread st Hc) as (PA & PV & Epv & NB & SZ & NA & SV & FT & T1 & T3).
  destruct (core_block st bs Hc _ _ _ Iptr) as (_ & Bp2 & Bp & _ & Bs & Bs8 & _).
  destruct (core_block st bs Hc _ _ _ Ipv) as (_ & _ & Bv & _ & Bsv & Bsv8 & _).
  destruct (core_first st bs Hc) as (_ & _ & _ & _ & F5).
  (* unlink both blocks *)
  destruct (Hfree _ _ Iptr) as (k & Hk).
  destruct (delete_node_pre st bs L k ptr Hp Hk) as (L1 & Hp1 & Hl1 & E1b & E1s & E1m & Hfr1).
  set (st1 := delete_node st ptr) in *.
  destruct (Hread st1 (hp_core _ _ _ Hp1)) as (_ & PV1 & _).
  assert (Hx1 : listed L1 pv).
  { apply Hl1. split; [apply (Hfree _ _ Ipv)|]. unfold DSIZE in *. lia. }
  destruct Hx1 as (k' & Hk').
  destruct (delete_node_pre st1 bs L1 k' pv Hp1 Hk') as (L2 & Hp2 & Hl2 & E2b & E2s & E2m & Hfr2).
  set (st2 := delete_node st1 pv) in *.
  pose proof (hp_core _ _ _ Hp2) as Hc2.
  destruct (Hread st2 Hc2) as (_ & PV2 & _ & _ & SZ2 & _ & SV2 & FT2 & T12 & T32).
  (* the boundary tags of the merged block *)
  assert (Hsz : 0 <= s + sv < 2 ^ 32) by (unfold DSIZE in *; lia).
  assert (Hsz8 : (s + sv) mod 8 = 0) by (Z.div_mod_to_equations; lia).
  pose proof (PACK_range (s + sv) 0 Hsz Hsz8 (or_introl eq_refl)) as Hpk.
  destruct (put2 (mem st2) (ptr + s - DSIZE) (PACK (s + sv) 0) (HDRP pv) (PACK (s + sv) 0))
    as (G1 & G2 & Hfr4); try assumption.
  { unfold HDRP, WSIZE, DSIZE in *. lia. }
  set (m3 := PUT_NOTAG (mem st2) (ptr + s - DSIZE) (PACK (s + sv) 0)) in *.
  set (m4 := PUT_NOTAG m3 (HDRP pv) (PACK (s + sv) 0)) in *.
  assert (PV3 : PREV_BLKP m3 ptr = pv).
  { unfold PREV_BLKP, m3. rewrite GET_SIZE_PUT_other by (unfold DSIZE in *; lia). exact PV2. }
  assert (PV4 : PREV_BLKP m4 ptr = pv).
  { unfold PREV_BLKP, m4. rewrite GET_SIZE_PUT_other by (unfold HDRP, WSIZE, DSIZE in *; lia).
    exact PV3. }
  destruct (merge_blocks fuel st2 L2 pre [(pv, sv, 0); (ptr, s, 0)] post pv (ptr + s) m4)
    as (st' & L' & Hins & Hp' & Hl' & E3b & E3s & E3m & Hfr').
  { exact Hp2. }
  { exact T12. }
  { cbn [tiles]. destruct (tiles_block _ _ _ _ _ _ _ (hc_tiles _ _ Hc2) Iptr) as (_ & _ & ? & ? & ? & ? & ?).
    destruct (tiles_block _ _ _ _ _ _ _ (hc_tiles _ _ Hc2) Ipv) as (_ & _ & ? & ? & ? & ? & ?).
    repeat (split; [first [assumption | reflexivity | lia]|]). reflexivity. }
  { exact T32. }
  { intros n sz a [E|[E|[]]] Hn; injection E as <- <- <-.
    - apply Hl2 in Hn. tauto.
    - apply Hl2 in Hn. destruct Hn as (Hn & _). apply Hl1 in Hn. tauto. }
  { discriminate. }
  { replace (ptr + s - pv) with (s + sv) by lia. exact G2. }
  { replace (ptr + s - pv) with (s + sv) by lia. exact G1. }
  { intros i Hi. apply Hfr4; unfold HDRP, WSIZE, DSIZE in *; lia. }
  { exact Hfuel. }
  replace (ptr + s - pv) with (s + sv) in * by lia.
  assert (Hres : coalesce fuel st ptr = Some (st', pv)).
  { unfold coalesce. rewrite PA, NB, NA, SZ.
    change (1 =? 0) with false. change (0 =? 0) with true. cbn [negb andb].
    fold st1. rewrite PV1. fold st2. rewrite PV2, SV2, FT2.
    rewrite (wrap32_small (s + sv)) by assumption.
    fold m3. rewrite PV3. fold m4. rewrite PV4, Hins. reflexivity. }
  assert (Hl'' : forall n, listed L' n <->
            (listed L n /\ forall sz a, ~ In (n, sz, a) [(pv, sv, 0); (ptr, s, 0)]) \/ n = pv).
  { intros n. rewrite Hl', Hl2, Hl1. cbn [In]. split.
    - intros [((Hn & N1) & N2)|E]; [left | right; exact E].
      split; [exact Hn|]. intros sz a [E|[E|[]]]; congruence.
    - intros [(Hn & N)|E]; [left | right; exact E].
      split; [split; [exact Hn|]|].
      + intros ->. apply (N s 0). right. left. reflexivity.
      + intros ->. apply (N sv 0). left. reflexivity. }
  destruct (merged_heap_ok st' L L' pre [(pv, sv, 0); (ptr, s, 0)] post pv (s + sv))
    as (Hok' & Hal'); try assumption.
  { intros n sz a [E|[E|[]]]; congruence. }
  { intros n sz a Hin sz' a'.
    apply (tiles_apart (mem st) pre [(pv, sv, 0); (ptr, s, 0)] post _ _ n sz a sz' a'
             (hc_tiles _ _ Hc) Hin). }
  { destruct (alloc_bit_cases _ _ _ _ T1) as (_ & [E|(n0 & s0 & f0 & E)]); [exact E|].
    rewrite E, last_alloc_snoc in La. discriminate. }
  replace (sv + s) with (s + sv) by lia.
  exists st', L'. split; [exact Hres|]. split; [exact Hok'|].
  split; [congruence|]. split; [congruence|]. split; [congruence|]. split; [exact Hal'|].
  intros i Hi.
  assert (Hlinks : forall n, listed L n -> i < n \/ n + 8 <= i).
  { intros n (k0 & Hn).
    destruct (hp_listed _ _ _ Hp n (ex_intro _ k0 Hn)) as (sz & Hsz').
    destruct (core_block st bs Hc _ _ _ Hsz') as (_ & _ & _ & _ & ? & _).
    specialize (Hi n sz Hsz'). unfold HDRP, WSIZE, DSIZE in *. lia. }
  pose proof (Hi _ _ Iptr) as Hi1. pose proof (Hi _ _ Ipv) as Hi2.
  rewrite Hfr'.
  - unfold st2. rewrite Hfr2 by (intros n Hn _; apply Hlinks; apply Hl1 in Hn; tauto).
    apply Hfr1. intros n Hn _. apply Hlinks. exact Hn.
  - unfold HDRP, WSIZE, DSIZE in *. lia.
  - intros n Hn. apply Hlinks. apply Hl2 in Hn. destruct Hn as (Hn & _). apply Hl1 in Hn. tauto.
Qed.

(** Case 4: both neighbours are free. *)
Lemma coalesce_both fuel st L pre pv sv ptr s nx sx post :
  let bs := pre ++ (pv, sv, 0) :: (ptr, s, 0) :: (nx, sx, 0) :: post in
  heap_pre st bs L -> (forall n sz, In (n, sz, 0) bs -> listed L n) ->
  adjacent_free (pre ++ [(pv, sv, 0)]) = false ->
  adjacent_free ((nx, sx, 0) :: post) = false -> (0 < fuel)%nat ->
  exists st' L',
    coalesce fuel st ptr = Some (st', pv) /\
    heap_ok st' (pre ++ (pv, sv + s + sx, 0) :: post) L' /\
    mem_brk st' = mem_brk st /\ mem_start_brk st' = mem_start_brk st /\
    mem_max_addr st' = mem_max_addr st /\
    (forall n sz, In (n, sz, 1) (pre ++ (pv, sv + s + sx, 0) :: post) <-> In (n, sz, 1) bs) /\
    (forall i, (forall n sz, In (n, sz, 0) bs -> i < HDRP n \/ n + sz - WSIZE <= i) ->
               mem st' i = mem st i).
Proof.
  intros bs Hp Hfree A1 A2 Hfuel.
  assert (Ebs : bs = (pre ++ [(pv, sv, 0)]) ++ (ptr, s, 0) :: (nx, sx, 0) :: post)
    by (unfold bs; rewrite <- app_assoc; reflexivity).
  destruct (last_alloc_before_free _ _ _ A1) as (A0 & La).
  rewrite adjacent_free_cons in A2. apply orb_false_iff in A2. destruct A2 as (A2 & A3).
  change (alloc_of (nx, sx, 0) =? 0) with true in A2. cbn [andb] in A2.
  assert (Iptr : In (ptr, s, 0) bs) by (apply in_or_app; right; right; left; reflexivity).
  assert (Ipv : In (pv, sv, 0) bs) by apply in_elt.
  assert (Inx : In (nx, sx, 0) bs)
    by (apply in_or_app; right; right; right; left; reflexivity).
  assert (Hread : forall st0, heap_core st0 bs ->
            GET_ALLOC (mem st0) (HDRP (PREV_BLKP (mem st0) ptr)) = 0 /\
            PREV_BLKP (mem st0) ptr = pv /\ pv + sv = ptr /\
            NEXT_BLKP (mem st0) ptr = ptr + s /\ GET_SIZE (mem st0) (HDRP ptr) = s /\
            GET_ALLOC (mem st0) (HDRP (ptr + s)) = 0 /\ nx = ptr + s /\
            GET_SIZE (mem st0) (HDRP pv) = sv /\ GET_SIZE (mem st0) (HDRP nx) = sx /\
            tiles (mem st0) (first_block st0) pre pv /\
            tiles (mem st0) (nx + sx) post (mem_brk st0)).
  { intros st0 Hc0. pose proof Hc0 as Hc0'. rewrite Ebs in Hc0'.
    destruct (prev_block st0 _ _ ptr s 0 Hc0') as (PA & PV).
    destruct (PV pre pv sv 0 eq_refl) as (P1 & P2 & P3).
    destruct (next_block st0 _ _ ptr s 0 Hc0') as (_ & NB & SZ & NA & _ & NX).
    destruct (NX nx sx 0 post eq_refl) as (Enx & SX & T3).
    destruct (core_block st0 bs Hc0 _ _ _ Ipv) as (_ & _ & _ & _ & _ & _ & _ & SV & _).
    rewrite last_alloc_snoc in PA. rewrite <- Enx in SX.
    change (first_alloc ((nx, sx, 0) :: post)) with 0 in NA. tauto. }
  pose proof (hp_core _ _ _ Hp) as Hc.
  destruct (Hread st Hc) as (PA & PV & Epv & NB & SZ & NA & Enx & SV & SX & T1 & T3).
  destruct (core_block st bs Hc _ _ _ Iptr) as (_ & Bp2 & Bp & _ & Bs & Bs8 & _).
  destruct (core_block st bs Hc _ _ _ Ipv) as (_ & _ & Bv & _ & Bsv & Bsv8 & _).
  destruct (core_block st bs Hc _ _ _ Inx) as (_ & Bx2 & _ & _ & Bsx & Bsx8 & _).
  destruct (core_first st bs Hc) as (_ & _ & _ & _ & F5).
  assert (Fa : first_alloc post = 1).
  { destruct (alloc_bit_cases _ _ _ _ T3) as ([E|(n0 & s0 & r0 & E)] & _); [exact E|].
    rewrite E in A2. discriminate. }
  (* unlink the three blocks *)
  destruct (Hfree _ _ Iptr) as (k & Hk).
  destruct (delete_node_pre st bs L k ptr Hp Hk) as (L1 & Hp1 & Hl1 & E1b & E1s & E1m & Hfr1).
  set (st1 := delete_node st ptr) in *.
  destruct (Hread st1 (hp_core _ _ _ Hp1)) as (_ & PV1 & _).
  assert (Hx1 : listed L1 pv).
  { apply Hl1. split; [apply (Hfree _ _ Ipv)|]. unfold DSIZE in *. lia. }
  destruct Hx1 as (k' & Hk').
  destruct (delete_node_pre st1 bs L1 k' pv Hp1 Hk') as (L2 & Hp2 & Hl2 & E2b & E2s & E2m & Hfr2).
  set (st2 := delete_node st1 pv) in *.
  destruct (Hread st2 (hp_core _ _ _ Hp2)) as (_ & _ & _ & NB2 & _).
  assert (Hx2 : listed L2 nx).
  { apply Hl2. split; [apply Hl1; split; [apply (Hfree _ _ Inx)|]|]; unfold DSIZE in *; lia. }
  destruct Hx2 as (k'' & Hk'').
  destruct (delete_node_pre st2 bs L2 k'' nx Hp2 Hk'') as (L3 & Hp3 & Hl3 & E3b & E3s & E3m & Hfr3).
  set (st3 := delete_node st2 nx) in *.
  pose proof (hp_core _ _ _ Hp3) as Hc3.
  destruct (Hread st3 Hc3) as (_ & PV3 & _ & NB3 & SZ3 & _ & _ & SV3 & SX3 & T13 & T33).
  (* the boundary tags of the merged block *)
  assert (Hsz : 0 <= s + sv + sx < 2 ^ 32) by (unfold DSIZE in *; lia).
  assert (Hsz8 : (s + sv + sx) mod 8 = 0) by (Z.div_mod_to_equations; lia).
  pose proof (PACK_range (s + sv + sx) 0 Hsz Hsz8 (or_introl eq_refl)) as Hpk.
  destruct (put2 (mem st3) (HDRP pv) (PACK (s + sv + sx) 0)
                 (nx + sx - DSIZE) (PACK (s + sv + sx) 0))
    as (G1 & G2 & Hfr4); try assumption.
  { unfold HDRP, WSIZE, DSIZE in *. lia. }
  set (m4 := PUT_NOTAG (mem st3) (HDRP pv) (PACK (s + sv + sx) 0)) in *.
  set (m5 := PUT_NOTAG m4 (nx + sx - DSIZE) (PACK (s + sv + sx) 0)) in *.
  assert (NB4 : NEXT_BLKP m4 ptr = nx).
  { unfold NEXT_BLKP, m4. rewrite GET_SIZE_PUT_other by (unfold HDRP, WSIZE, DSIZE in *; lia).
    fold (HDRP ptr). rewrite SZ3. lia. }
  assert (FT4 : FTRP m4 nx = nx + sx - DSIZE).
  { unfold FTRP, m4. rewrite GET_SIZE_PUT_other by (unfold HDRP, WSIZE, DSIZE in *; lia).
    rewrite SX3. reflexivity. }
  assert (PV5 : PREV_BLKP m5 ptr = pv).
  { unfold PREV_BLKP, m5, m4. rewrite !GET_SIZE_PUT_other by (unfold HDRP, WSIZE, DSIZE in *; lia).
    exact PV3. }
  destruct (merge_blocks fuel st3 L3 pre [(pv, sv, 0); (ptr, s, 0); (nx, sx, 0)] post
              pv (nx + sx) m5)
    as (st' & L' & Hins & Hp' & Hl' & E4b & E4s & E4m & Hfr').
  { exact Hp3. }
  { exact T13. }
  { cbn [tiles]. destruct (tiles_block _ _ _ _ _ _ _ (hc_tiles _ _ Hc3) Iptr) as (_ & _ & ? & ? & ? & ? & ?).
    destruct (tiles_block _ _ _ _ _ _ _ (hc_tiles _ _ Hc3) Ipv) as (_ & _ & ? & ? & ? & ? & ?).
    destruct (tiles_block _ _ _ _ _ _ _ (hc_tiles _ _ Hc3) Inx) as (_ & _ & ? & ? & ? & ? & ?).
    repeat (split; [first [assumption | reflexivity | lia]|]). reflexivity. }
  { exact T33. }
  { intros n sz a [E|[E|[E|[]]]] Hn; injection E as <- <- <-.
    - apply Hl3 in Hn. destruct Hn as (Hn & _). apply Hl2 in Hn. tauto.
    - apply Hl3 in Hn. destruct Hn as (Hn & _). apply Hl2 in Hn.
      destruct Hn as (Hn & _). apply Hl1 in Hn. tauto.
    - apply Hl3 in Hn. tauto. }
  { discriminate. }
  { replace (nx + sx - pv) with (s + sv + sx) by lia. exact G1. }
  { replace (nx + sx - pv) with (s + sv + sx) by lia. exact G2. }
  { intros i Hi. apply Hfr4; unfold HDRP, WSIZE, DSIZE in *; lia. }
  { exact Hfuel. }
  replace (nx + sx - pv) with (s + sv + sx) in * by lia.
  assert (Hres : coalesce fuel st ptr = Some (st', pv)).
  { unfold coalesce. rewrite PA, NB, NA, SZ.
    change (0 =? 0) with true. cbn [negb andb].
    fold st1. rewrite PV1. fold st2. rewrite NB2, <- Enx. fold st3.
    rewrite PV3, NB3, <- Enx, SV3, SX3.
    rewrite (wrap32_small (s + sv + sx)) by assumption.
    fold m4. rewrite NB4, FT4. fold m5. rewrite PV5, Hins. reflexivity. }
  assert (Hl'' : forall n, listed L' n <->
            (listed L n /\ forall sz a, ~ In (n, sz, a) [(pv, sv, 0); (ptr, s, 0); (nx, sx, 0)])
            \/ n = pv).
  { intros n. rewrite Hl', Hl3, Hl2, Hl1. cbn [In]. split.
    - intros [(((Hn & N1) & N2) & N3)|E]; [left | right; exact E].
      split; [exact Hn|]. intros sz a [E|[E|[E|[]]]]; congruence.
    - intros [(Hn & N)|E]; [left | right; exact E].
      split; [split; [split; [exact Hn|]|]|].
      + intros ->. apply (N s 0). right. left. reflexivity.
      + intros ->. apply (N sv 0). left. reflexivity.
      + intros ->. apply (N sx 0). right. right. left. reflexivity. }
  destruct (merged_heap_ok st' L L' pre [(pv, sv, 0); (ptr, s, 0); (nx, sx, 0)] post pv
              (s + sv + sx)) as (Hok' & Hal'); try assumption.
  { intros n sz a [E|[E|[E|[]]]]; congruence. }
  { intros n sz a Hin sz' a'.
    apply (tiles_apart (mem st) pre [(pv, sv, 0); (ptr, s, 0); (nx, sx, 0)] post _ _
             n sz a sz' a' (hc_tiles _ _ Hc) Hin). }
  { destruct (alloc_bit_cases _ _ _ _ T1) as (_ & [E|(n0 & s0 & f0 & E)]); [exact E|].
    rewrite E, last_alloc_snoc in La. discriminate. }
  replace (sv + s + sx) with (s + sv + sx) by lia.
  exists st', L'. split; [exact Hres|]. split; [exact Hok'|].
  split; [congruence|]. split; [congruence|]. split; [congruence|]. split; [exact Hal'|].
  intros i Hi.
  assert (Hlinks : forall n, listed L n -> i < n \/ n + 8 <= i).
  { intros n (k0 & Hn).
    destruct (hp_listed _ _ _ Hp n (ex_intro _ k0 Hn)) as (sz & Hsz').
    destruct (core_block st bs Hc _ _ _ Hsz') as (_ & _ & _ & _ & ? & _).
    specialize (Hi n sz Hsz'). unfold HDRP, WSIZE, DSIZE in *. lia. }
  pose proof (Hi _ _ Iptr) as Hi1. pose proof (Hi _ _ Ipv) as Hi2.
  pose proof (Hi _ _ Inx) as Hi3.
  rewrite Hfr'.
  - unfold st3. rewrite Hfr3.
    + unfold st2. rewrite Hfr2 by (intros n Hn _; apply Hlinks; apply Hl1 in Hn; tauto).
      apply Hfr1. intros n Hn _. apply Hlinks. exact Hn.
    + intros n Hn _. apply Hlinks. apply Hl2 in Hn. destruct Hn as (Hn & _).
      apply Hl1 in Hn. tauto.
  - unfold HDRP, WSIZE, DSIZE in *. lia.
  - intros n Hn. apply Hlinks. apply Hl3 in Hn. destruct Hn as (Hn & _).
    apply Hl2 in Hn. destruct Hn as (Hn & _). apply Hl1 in Hn. tauto.
Qed.

Lemma app_cons_assoc (A : Type) (l1 : list A) (x : A) (l2 : list A) :
  (l1 ++ [x]) ++ l2 = l1 ++ x :: l2.
Proof. rewrite <- app_assoc. reflexivity. Qed.

(** [coalesce] on a listed free block whose neighbourhood is the only place
    where two free blocks may meet: the result is a well-formed heap, the
    returned block is free, listed and contains the block given; allocated
    blocks and every byte outside the free blocks are left alone. *)
Lemma coalesce_ok fuel st L pre ptr s post :
  let bs := pre ++ (ptr, s, 0) :: post in
  heap_pre st bs L -> (forall n sz, In (n, sz, 0) bs -> listed L n) ->
  adjacent_free pre = false -> adjacent_free post = false -> (0 < fuel)%nat ->
  exists st' bs' L' ptr' s',
    coalesce fuel st ptr = Some (st', ptr') /\
    heap_ok st' bs' L' /\ In (ptr', s', 0) bs' /\
    ptr' <= ptr /\ ptr + s <= ptr' + s' /\
    mem_brk st' = mem_brk st /\ mem_start_brk st' = mem_start_brk st /\
    mem_max_addr st' = mem_max_addr st /\
    (forall n sz, In (n, sz, 1) bs' <-> In (n, sz, 1) bs) /\
    (forall i, (forall n sz, In (n, sz, 0) bs -> i < HDRP n \/ n + sz - WSIZE <= i) ->
               mem st' i = mem st i) /\
    (exists front back, bs' = front ++ (ptr', s', 0) :: back /\
       (front = pre /\ ptr' = ptr \/ exists sv, pre = front ++ [(ptr', sv, 0)]) /\
       (back = post /\ ptr' + s' = ptr + s \/
        exists sx, post = (ptr + s, sx, 0) :: back /\ ptr' + s' = ptr + s + sx)).
Proof.
  intros bs Hp Hfree A1 A2 Hfuel.
  pose proof (hp_core _ _ _ Hp) as Hc.
  destruct (split_tiles st pre post ptr s 0 Hc) as (T1 & T2).
  assert (Iptr : In (ptr, s, 0) bs) by apply in_elt.
  destruct (core_block st bs Hc _ _ _ Iptr) as (_ & _ & _ & _ & Bs & _).
  destruct (alloc_bit_cases _ _ _ _ T1) as (_ & [La|(pv & sv & front & Epre)]);
    destruct (alloc_bit_cases _ _ _ _ T2) as ([Fa|(nx & sx & rest & Epost)] & _).
  - (* Case 1 *)
    destruct (prev_block st pre post ptr s 0 Hc) as (PA & _).
    destruct (next_block st pre post ptr s 0 Hc) as (_ & NB & SZ & NA & _).
    exists st, bs, L, ptr, s. split; [|split; [|split; [exact Iptr|]]].
    + unfold coalesce. rewrite PA, NB, NA, La, Fa. reflexivity.
    + constructor; [exact Hp | exact Hfree |].
      unfold bs. rewrite adjacent_free_app, adjacent_free_cons, A1, A2, La, Fa. reflexivity.
    + do 6 (split; [first [lia | reflexivity | tauto]|]). split; [intros i _; reflexivity|].
      exists pre, post. split; [reflexivity|]. split; left; split; reflexivity.
  - (* Case 2 *)
    subst post.
    destruct (coalesce_next fuel st L pre ptr s nx sx rest Hp Hfree A1 A2 La Hfuel)
      as (st' & L' & Hres & Hok & E1 & E2 & E3 & Hal & Hfr).
    destruct (next_block st pre _ ptr s 0 Hc) as (_ & _ & _ & _ & _ & NX).
    destruct (NX nx sx 0 rest eq_refl) as (Enx & _).
    assert (Inx : In (nx, sx, 0) bs) by (apply in_or_app; right; right; left; reflexivity).
    destruct (core_block st bs Hc _ _ _ Inx) as (_ & _ & _ & _ & Bsx & _).
    exists st', (pre ++ (ptr, s + sx, 0) :: rest), L', ptr, (s + sx).
    split; [exact Hres|]. split; [exact Hok|]. split; [apply in_elt|].
    unfold DSIZE in *. do 7 (split; [first [lia | assumption]|]).
    exists pre, rest. split; [reflexivity|]. split; [left; split; reflexivity|].
    right. exists sx. subst nx. split; [reflexivity | lia].
  - (* Case 3 *)
    subst pre. unfold bs in *. rewrite app_cons_assoc in *.
    destruct (coalesce_prev fuel st L front pv sv ptr s post Hp Hfree A1 A2 Fa Hfuel)
      as (st' & L' & Hres & Hok & E1 & E2 & E3 & Hal & Hfr).
    assert (Ipv : In (pv, sv, 0) (front ++ (pv, sv, 0) :: (ptr, s, 0) :: post)) by apply in_elt.
    destruct (core_block st _ Hc _ _ _ Ipv) as (_ & _ & _ & _ & Bsv & _).
    rewrite <- app_cons_assoc in Hc.
    destruct (prev_block st _ post ptr s 0 Hc) as (_ & PV).
    destruct (PV front pv sv 0 eq_refl) as (_ & Epv & _).
    exists st', (front ++ (pv, sv + s, 0) :: post), L', pv, (sv + s).
    split; [exact Hres|]. split; [exact Hok|]. split; [apply in_elt|].
    unfold DSIZE in *. do 7 (split; [first [lia | assumption]|]).
    exists front, post. split; [reflexivity|]. split; [right; exists sv; reflexivity|].
    left. split; [reflexivity | lia].
  - (* Case 4 *)
    subst pre post. unfold bs in *. rewrite app_cons_assoc in *.
    destruct (coalesce_both fuel st L front pv sv ptr s nx sx rest Hp Hfree A1 A2 Hfuel)
      as (st' & L' & Hres & Hok & E1 & E2 & E3 & Hal & Hfr).
    assert (Ipv : In (pv, sv, 0) (front ++ (pv, sv, 0) :: (ptr, s, 0) :: (nx, sx, 0) :: rest))
      by apply in_elt.
    destruct (core_block st _ Hc _ _ _ Ipv) as (_ & _ & _ & _ & Bsv & _).
    assert (Inx : In (nx, sx, 0) (front ++ (pv, sv, 0) :: (ptr, s, 0) :: (nx, sx, 0) :: rest))
      by (apply in_or_app; right; right; right; left; reflexivity).
    destruct (core_block st _ Hc _ _ _ Inx) as (_ & _ & _ & _ & Bsx & _).
    rewrite <- app_cons_assoc in Hc.
    destruct (prev_block st _ _ ptr s 0 Hc) as (_ & PV).
    destruct (PV front pv sv 0 eq_refl) as (_ & Epv & _).
    destruct (next_block st _ _ ptr s 0 Hc) as (_ & _ & _ & _ & _ & NX).
    destruct (NX nx sx 0 rest eq_refl) as (Enx & _).
    exists st', (front ++ (pv, sv + s + sx, 0) :: rest), L', pv, (sv + s + sx).
    split; [exact Hres|]. split; [exact Hok|]. split; [apply in_elt|].
    unfold DSIZE in *. do 7 (split; [first [lia | assumption]|]).
    exists front, rest. split; [reflexivity|]. split; [right; exists sv; reflexivity|].
    right. exists sx. subst nx. split; [reflexivity | lia].
Qed.

(** Header and footer of one block, written the way [mm_free] and [place]
    write them: the footer address is read back from the new header. *)
Lemma retag_block m ptr s a :
  0 <= s < 2 ^ 32 -> s mod 8 = 0 -> a = 0 \/ a = 1 ->
  let m1 := PUT_NOTAG m (HDRP ptr) (PACK s a) in
  let m2 := PUT_NOTAG m1 (FTRP m1 ptr) (PACK s a) in
  FTRP m1 ptr = ptr + s - DSIZE /\ FTRP m2 ptr = ptr + s - DSIZE /\
  GET m2 (HDRP ptr) = PACK s a /\ GET m2 (ptr + s - DSIZE) = PACK s a /\
  GET_SIZE m2 (HDRP ptr) = s /\ GET_ALLOC m2 (HDRP ptr) = a /\
  (forall i, (i < HDRP ptr \/ HDRP ptr + 4 <= i) ->
             (i < ptr + s - DSIZE \/ ptr + s - DSIZE + 4 <= i) -> m2 i = m i).
Proof.
  intros Hs Hal Ha m1 m2.
  destruct (tag_read m (HDRP ptr) s a Hs Hal Ha) as (Hg & Hsz & Hb).
  fold m1 in Hg, Hsz, Hb.
  assert (Hf : FTRP m1 ptr = ptr + s - DSIZE) by (unfold FTRP; rewrite Hsz; reflexivity).
  assert (Hfar : HDRP ptr + 4 <= ptr + s - DSIZE \/ ptr + s - DSIZE + 4 <= HDRP ptr).
  { unfold HDRP, WSIZE, DSIZE. Z.div_mod_to_equations. lia. }
  pose proof (PACK_range s a Hs Hal Ha) as Hpk.
  destruct (put2 m (HDRP ptr) (PACK s a) (ptr + s - DSIZE) (PACK s a) Hfar Hpk Hpk)
    as (G1 & G2 & Hfr).
  unfold m2. rewrite Hf. fold m1 in G1, G2, Hfr.
  destruct (GET_PACK_size _ _ _ _ Hs Hal Ha G1) as (S1 & A1).
  split; [reflexivity|]. split; [unfold FTRP; rewrite S1; reflexivity|].
  repeat (split; [assumption|]). exact Hfr.
Qed.

Lemma adjacent_free_split pre b post :
  adjacent_free (pre ++ b :: post) = false ->
  adjacent_free pre = false /\ adjacent_free post = false.
Proof.
  rewrite adjacent_free_app, adjacent_free_cons. intros H.
  apply orb_false_iff in H. destruct H as (H & _).
  apply orb_false_iff in H. destruct H as (H1 & H2).
  apply orb_false_iff in H2. tauto.
Qed.

(** * [mm_free] *)

(** Freeing an allocated block of a well-formed heap gives a well-formed
    heap; the other allocated blocks stay, and nothing is written outside the
    freed block and the free blocks. *)
Lemma mm_free_ok fuel st bs L ptr s :
  heap_ok st bs L -> In (ptr, s, 1) bs -> (0 < fuel)%nat ->
  exists st' bs' L',
    mm_free fuel st ptr = Some st' /\ heap_ok st' bs' L' /\
    mem_brk st' = mem_brk st /\ mem_start_brk st' = mem_start_brk st /\
    mem_max_addr st' = mem_max_addr st /\
    (forall n sz, In (n, sz, 1) bs' <-> In (n, sz, 1) bs /\ n <> ptr) /\
    (forall i, (forall n sz, In (n, sz, 0) bs -> i < HDRP n \/ n + sz - WSIZE <= i) ->
               (i < HDRP ptr \/ ptr + s - WSIZE <= i) -> mem st' i = mem st i) /\
    (exists p' s', In (p', s', 0) bs' /\ p' <= ptr /\ ptr + s <= p' + s') /\
    (length bs' <= length bs)%nat.
Proof.
  intros Hok Hin Hfuel.
  pose proof (hk_pre _ _ _ Hok) as Hp. pose proof (hp_core _ _ _ Hp) as Hc.
  destruct (in_split _ _ Hin) as (pre & post & Ebs). subst bs.
  destruct (core_block st _ Hc _ _ _ Hin) as (_ & B2 & Bp & _ & Bs & Bs8 & _ & SZ & _).
  destruct (core_first st _ Hc) as (_ & _ & _ & _ & F5).
  destruct (split_tiles st pre post ptr s 1 Hc) as (T1 & T3).
  assert (Hr : 0 <= s < 2 ^ 32) by (unfold DSIZE in *; lia).
  destruct (retag_block (mem st) ptr s 0 Hr Bs8 (or_introl eq_refl))
    as (_ & _ & G1 & G2 & _ & _ & Hfr2).
  set (m2 := PUT_NOTAG (PUT_NOTAG (mem st) (HDRP ptr) (PACK s 0))
               (FTRP (PUT_NOTAG (mem st) (HDRP ptr) (PACK s 0)) ptr) (PACK s 0)) in *.
  assert (Hnl : ~ listed L ptr).
  { intros Hl. destruct (hp_listed _ _ _ Hp ptr Hl) as (s' & Hs').
    destruct (tiles_functional _ _ _ _ _ _ _ _ _ (hc_tiles _ _ Hc) Hin Hs'). discriminate. }
  assert (Hp2 : heap_pre (set_mem st m2) (pre ++ [(ptr, s, 0)] ++ post) L).
  { apply (pre_replace st L pre [(ptr, s, 1)] [(ptr, s, 0)] post ptr (ptr + s) m2);
      try assumption.
    - cbn [tiles]. destruct (tiles_block _ _ _ _ _ _ _ (hc_tiles _ _ Hc) Hin) as (_ & _ & ? & ? & ? & ? & ?).
      tauto.
    - intros n sz a [E|[]]. injection E as <- <- <-. exact Hnl.
    - intros i Hi. apply Hfr2; unfold HDRP, WSIZE, DSIZE in *; lia.
    - apply tiles_single; try assumption. left. reflexivity. }
  cbn [app] in Hp2.
  destruct (insert_node_pre fuel (set_mem st m2) _ L ptr s Hp2) as (st3 & L3 & Hins & Hp3 & Hl3 & E1 & E2 & E3 & Hfr3).
  { apply in_elt. }
  { exact Hnl. }
  { exact Hfuel. }
  cbn [set_mem mem mem_brk mem_start_brk mem_max_addr] in *.
  destruct (adjacent_free_split _ _ _ (hk_coalesced _ _ _ Hok)) as (A1 & A2).
  destruct (coalesce_ok fuel st3 L3 pre ptr s post Hp3) as
    (st' & bs' & L' & ptr' & s' & Hco & Hok' & Hin' & Hlo & Hhi & E4 & E5 & E6 & Hal & Hfr4 & Hsh);
    try assumption.
  { intros n sz Hn. apply Hl3. apply in_app_or in Hn. destruct Hn as [Hn|[E|Hn]].
    - left. apply (hk_free _ _ _ Hok n sz). apply in_or_app. left. assumption.
    - right. congruence.
    - left. apply (hk_free _ _ _ Hok n sz). apply in_or_app. right. right. assumption. }
  exists st', bs', L'. split; [|split; [exact Hok'|]].
  { unfold mm_free. rewrite SZ. fold m2. rewrite Hins, Hco. reflexivity. }
  split; [congruence|]. split; [congruence|]. split; [congruence|]. split; [|split; [|split]].
  - intros n sz. rewrite Hal. split.
    + intros Hn. apply in_app_or in Hn. destruct Hn as [Hn|[E|Hn]]; [|discriminate|].
      * split; [apply in_or_app; left; assumption|].
        intros ->. apply (tiles_apart (mem st) pre [(ptr, s, 1)] post _ _ ptr sz 1 s 1
                            (hc_tiles _ _ Hc)); [apply in_or_app|]; left; [assumption | reflexivity].
      * split; [apply in_or_app; right; right; assumption|].
        intros ->. apply (tiles_apart (mem st) pre [(ptr, s, 1)] post _ _ ptr sz 1 s 1
                            (hc_tiles _ _ Hc)); [apply in_or_app; right | left]; [assumption | reflexivity].
    + intros (Hn & Hne). apply in_app_or in Hn. apply in_or_app.
      destruct Hn as [Hn|[E|Hn]]; [left; assumption | congruence | right; right; assumption].
  - intros i Hi Hip.
    assert (Hlinks : forall n, listed L n -> i < n \/ n + 8 <= i).
    { intros n Hn. destruct (hp_listed _ _ _ Hp n Hn) as (sz & Hsz).
      destruct (core_block st _ Hc _ _ _ Hsz) as (_ & _ & _ & _ & ? & _).
      specialize (Hi n sz Hsz). unfold HDRP, WSIZE, DSIZE in *. lia. }
    rewrite Hfr4.
    + rewrite Hfr3.
      * apply Hfr2; unfold HDRP, WSIZE, DSIZE in *; lia.
      * unfold HDRP, WSIZE, DSIZE in *. lia.
      * exact Hlinks.
    + intros n sz Hn. apply in_app_or in Hn. destruct Hn as [Hn|[E|Hn]].
      * apply (Hi n sz). apply in_or_app. left. assumption.
      * injection E as <- <-. exact Hip.
      * apply (Hi n sz). apply in_or_app. right. right. assumption.
  - exists ptr', s'. split; [exact Hin'|]. split; assumption.
  - destruct Hsh as (front & back & -> & Hfront & Hback).
    rewrite !length_app. cbn [length].
    assert (length front <= length pre)%nat.
    { destruct Hfront as [(-> & _)|(sv & ->)]; [lia|]. rewrite length_app. lia. }
    assert (length back <= length post)%nat.
    { destruct Hback as [(-> & _)|(sx & -> & _)]; [lia|]. cbn [length]. lia. }
    lia.
Qed.

(** * [place] *)

Lemma free_neighbours pre n s post :
  adjacent_free (pre ++ (n, s, 0) :: post) = false ->
  adjacent_free pre = false /\ adjacent_free post = false /\
  (last_alloc pre =? 0) = false /\ (first_alloc post =? 0) = false.
Proof.
  rewrite adjacent_free_app, adjacent_free_cons. intros H.
  apply orb_false_iff in H. destruct H as (H & H3).
  apply orb_false_iff in H. destruct H as (H1 & H2).
  apply orb_false_iff in H2. destruct H2 as (H2 & H4).
  change (alloc_of (n, s, 0) =? 0) with true in H2.
  change (first_alloc ((n, s, 0) :: post) =? 0) with true in H3.
  rewrite andb_true_r in H3. cbn [andb] in H2. tauto.
Qed.

(** [place] on a free block of a well-formed heap that is large enough:
    the heap stays well formed and the block returned is allocated, lies
    inside the block given and has at least [asize] bytes. *)
Lemma place_ok fuel st bs L ptr s asize :
  heap_ok st bs L -> In (ptr, s, 0) bs ->
  asize mod 8 = 0 -> 2 * DSIZE <= asize <= s -> (0 < fuel)%nat ->
  exists st' bs' L' p' s',
    place fuel st ptr asize = Some (st', p') /\ heap_ok st' bs' L' /\
    In (p', s', 1) bs' /\ asize <= s' /\ ptr <= p' /\ p' + s' <= ptr + s /\
    mem_brk st' = mem_brk st /\ mem_start_brk st' = mem_start_brk st /\
    mem_max_addr st' = mem_max_addr st /\
    (forall n sz, In (n, sz, 1) bs' <-> In (n, sz, 1) bs \/ (n, sz) = (p', s')) /\
    (forall i, (forall n sz, In (n, sz, 0) bs -> i < HDRP n \/ n + sz - WSIZE <= i) ->
               mem st' i = mem st i).
Proof.
  intros Hok Hin Hal Hsize Hfuel.
  pose proof (hk_pre _ _ _ Hok) as Hp. pose proof (hp_core _ _ _ Hp) as Hc.
  destruct (in_split _ _ Hin) as (pre & post & Ebs). subst bs.
  destruct (core_block st _ Hc _ _ _ Hin) as (_ & B2 & Bp & _ & Bs & Bs8 & _ & SZ & _).
  destruct (core_first st _ Hc) as (_ & _ & _ & _ & F5).
  destruct (free_neighbours _ _ _ _ (hk_coalesced _ _ _ Hok)) as (A1 & A2 & La & Fa).
  assert (Hr : 0 <= s < 2 ^ 32) by (unfold DSIZE in *; lia).
  (* unlink the block *)
  destruct (hk_free _ _ _ Hok _ _ Hin) as (k & Hk).
  destruct (delete_node_pre st _ L k ptr Hp Hk) as (L1 & Hp1 & Hl1 & E1b & E1s & E1m & Hfr1).
  set (st1 := delete_node st ptr) in *.
  pose proof (hp_core _ _ _ Hp1) as Hc1.
  destruct (split_tiles st1 pre post ptr s 0 Hc1) as (T1 & T3).
  assert (Tmid : tiles (mem st1) ptr [(ptr, s, 0)] (ptr + s)).
  { destruct (tiles_block _ _ _ _ _ _ _ (hc_tiles _ _ Hc1) Hin) as (_ & _ & ? & ? & ? & ? & ?).
    apply tiles_single; assumption. }
  assert (Hnl1 : forall n sz a, In (n, sz, a) [(ptr, s, 0)] -> ~ listed L1 n).
  { intros n sz a [E|[]] Hn. injection E as <- <- <-. apply Hl1 in Hn. tauto. }
  assert (Hlinks : forall i,
            (forall n sz, In (n, sz, 0) (pre ++ (ptr, s, 0) :: post) ->
                          i < HDRP n \/ n + sz - WSIZE <= i) ->
            forall n, listed L n -> i < n \/ n + 8 <= i).
  { intros i Hi n Hn. destruct (hp_listed _ _ _ Hp n Hn) as (sz & Hsz).
    destruct (core_block st _ Hc _ _ _ Hsz) as (_ & _ & _ & _ & ? & _).
    specialize (Hi n sz Hsz). unfold HDRP, WSIZE, DSIZE in *. lia. }
  assert (Hfree1 : forall n sz, In (n, sz, 0) (pre ++ post) -> listed L1 n).
  { intros n sz Hn. apply Hl1. split.
    - apply (hk_free _ _ _ Hok n sz). apply in_app_or in Hn. apply in_or_app.
      destruct Hn; [left | right; right]; assumption.
    - intros ->. apply (tiles_apart (mem st) pre [(ptr, s, 0)] post _ _ ptr sz 0 s 0
                          (hc_tiles _ _ Hc) Hn). left. reflexivity. }
  unfold place. rewrite SZ. fold st1.
  rewrite (wrap32_small (s - asize)) by (unfold DSIZE in *; lia).
  destruct (Z.leb_spec (s - asize) (DSIZE * 2)) as [Hsmall|Hsplit].
  - (* the whole block *)
    destruct (retag_block (mem st1) ptr s 1 Hr Bs8 (or_intror eq_refl))
      as (_ & _ & G1 & G2 & _ & _ & Hfr2).
    set (m2 := PUT_NOTAG (PUT_NOTAG (mem st1) (HDRP ptr) (PACK s 1))
                 (FTRP (PUT_NOTAG (mem st1) (HDRP ptr) (PACK s 1)) ptr) (PACK s 1)) in *.
    assert (Hp2 : heap_pre (set_mem st1 m2) (pre ++ [(ptr, s, 1)] ++ post) L1).
    { apply (pre_replace st1 L1 pre [(ptr, s, 0)] [(ptr, s, 1)] post ptr (ptr + s) m2);
        try assumption.
      - intros i Hi. apply Hfr2; unfold HDRP, WSIZE, DSIZE in *; lia.
      - apply tiles_single; try assumption. right. reflexivity. }
    cbn [app] in Hp2.
    exists (set_mem st1 m2), (pre ++ (ptr, s, 1) :: post), L1, ptr, s.
    split; [reflexivity|]. split.
    { constructor; [exact Hp2 | |].
      - intros n sz Hn. apply (Hfree1 n sz). apply in_app_or in Hn. apply in_or_app.
        destruct Hn as [Hn|[E|Hn]]; [left; assumption | discriminate | right; assumption].
      - rewrite adjacent_free_app, adjacent_free_cons, A1, A2.
        change (alloc_of (ptr, s, 1) =? 0) with false.
        change (first_alloc ((ptr, s, 1) :: post) =? 0) with false.
        rewrite andb_false_r. reflexivity. }
    split; [apply in_elt|]. cbn [set_mem mem_brk mem_start_brk mem_max_addr mem].
    repeat (split; [first [lia | assumption]|]). split.
    + intros n sz. split.
      * intros Hn. apply in_app_or in Hn. destruct Hn as [Hn|[E|Hn]].
        -- left. apply in_or_app. left. assumption.
        -- right. congruence.
        -- left. apply in_or_app. right. right. assumption.
      * intros [Hn|E].
        -- apply in_app_or in Hn. apply in_or_app.
           destruct Hn as [Hn|[E|Hn]]; [left; assumption | discriminate | right; right; assumption].
        -- injection E as -> ->. apply in_elt.
    + intros i Hi. pose proof (Hi _ _ Hin).
      rewrite Hfr2 by (unfold HDRP, WSIZE, DSIZE in *; lia).
      apply Hfr1. intros n Hn _. apply (Hlinks i Hi n Hn).
  - set (rem := s - asize) in *.
    assert (Hrem8 : rem mod 8 = 0) by (unfold rem; Z.div_mod_to_equations; lia).
    assert (Hrem24 : 24 <= rem) by (unfold rem, DSIZE in *; Z.div_mod_to_equations; lia).
    destruct (Z.geb_spec asize 73) as [Hbig|Hlow].
    + (* the free remainder first *)
      destruct (split_tags (mem st1) ptr rem 0 asize 1)
        as (NB4 & G1 & G2 & G3 & G4 & Hfr4);
        try (unfold rem, DSIZE in *; lia); try tauto.
      set (m4 := PUT_NOTAG _ (FTRP _ (NEXT_BLKP _ ptr)) (PACK asize 1)) in *.
      assert (Hp4 : heap_pre (set_mem st1 m4)
                      (pre ++ [(ptr, rem, 0); (ptr + rem, asize, 1)] ++ post) L1).
      { apply (pre_replace st1 L1 pre [(ptr, s, 0)] _ post ptr (ptr + s) m4); try assumption.
        - intros i Hi. apply Hfr4. unfold rem, HDRP, WSIZE, DSIZE in *. lia.
        - cbn [tiles]. replace (ptr + rem + asize) with (ptr + s) in * by (unfold rem; lia).
          unfold DSIZE in *. repeat (split; [first [assumption | reflexivity | lia | tauto]|]).
          reflexivity. }
      cbn [app] in Hp4.
      destruct (insert_node_pre fuel (set_mem st1 m4) _ L1 ptr rem Hp4)
        as (st' & L' & Hins & Hp' & Hl' & E2b & E2s & E2m & Hfr').
      { apply in_elt. }
      { intros Hn. apply Hl1 in Hn. tauto. }
      { exact Hfuel. }
      cbn [set_mem mem mem_brk mem_start_brk mem_max_addr] in *.
      rewrite Hins.
      assert (Irem : In (ptr, rem, 0) (pre ++ (ptr, rem, 0) :: (ptr + rem, asize, 1) :: post))
        by apply in_elt.
      destruct (core_block st' _ (hp_core _ _ _ Hp') _ _ _ Irem)
        as (_ & _ & _ & _ & _ & _ & _ & _ & _ & NB' & _).
      rewrite NB'.
      exists st', (pre ++ (ptr, rem, 0) :: (ptr + rem, asize, 1) :: post), L', (ptr + rem), asize.
      split; [reflexivity|]. split.
      { constructor; [exact Hp' | |].
        - intros n sz Hn. apply Hl'. apply in_app_or in Hn. destruct Hn as [Hn|[E|[E|Hn]]].
          + left. apply (Hfree1 n sz). apply in_or_app. left. assumption.
          + right. congruence.
          + discriminate.
          + left. apply (Hfree1 n sz). apply in_or_app. right. assumption.
        - rewrite adjacent_free_app, !adjacent_free_cons, A1, A2.
          change (first_alloc ((ptr, rem, 0) :: (ptr + rem, asize, 1) :: post) =? 0) with true.
          change (first_alloc ((ptr + rem, asize, 1) :: post) =? 0) with false.
          change (alloc_of (ptr + rem, asize, 1) =? 0) with false.
          rewrite La, andb_false_r. reflexivity. }
      split; [apply in_or_app; right; right; left; reflexivity|].
      repeat (split; [first [unfold rem; lia | congruence]|]). split.
      * intros n sz. split.
        -- intros Hn. apply in_app_or in Hn. destruct Hn as [Hn|[E|[E|Hn]]].
           ++ left. apply in_or_app. left. assumption.
           ++ discriminate.
           ++ right. congruence.
           ++ left. apply in_or_app. right. right. assumption.
        -- intros [Hn|E].
           ++ apply in_app_or in Hn. apply in_or_app.
              destruct Hn as [Hn|[E|Hn]];
                [left; assumption | discriminate | right; right; right; assumption].
           ++ injection E as -> ->. apply in_or_app. right. right. left. reflexivity.
      * intros i Hi. pose proof (Hi _ _ Hin).
        rewrite Hfr'.
        -- rewrite Hfr4 by (unfold rem, HDRP, WSIZE, DSIZE in *; lia).
           apply Hfr1. intros n Hn _. apply (Hlinks i Hi n Hn).
        -- unfold HDRP, WSIZE, DSIZE in *. lia.
        -- intros n Hn. apply (Hlinks i Hi n). apply Hl1 in Hn. tauto.
    + (* the allocated part first *)
      destruct (split_tags (mem st1) ptr asize 1 rem 0)
        as (NB4 & G1 & G2 & G3 & G4 & Hfr4);
        try (unfold rem, DSIZE in *; lia); try tauto.
      set (m4 := PUT_NOTAG _ (FTRP _ (NEXT_BLKP _ ptr)) (PACK rem 0)) in *.
      assert (Hp4 : heap_pre (set_mem st1 m4)
                      (pre ++ [(ptr, asize, 1); (ptr + asize, rem, 0)] ++ post) L1).
      { apply (pre_replace st1 L1 pre [(ptr, s, 0)] _ post ptr (ptr + s) m4); try assumption.
        - intros i Hi. apply Hfr4. unfold rem, HDRP, WSIZE, DSIZE in *. lia.
        - cbn [tiles]. replace (ptr + asize + rem) with (ptr + s) in * by (unfold rem; lia).
          unfold DSIZE in *. repeat (split; [first [assumption | reflexivity | lia | tauto]|]).
          reflexivity. }
      cbn [app] in Hp4.
      destruct (insert_node_pre fuel (set_mem st1 m4) _ L1 (ptr + asize) rem Hp4)
        as (st' & L' & Hins & Hp' & Hl' & E2b & E2s & E2m & Hfr').
      { apply in_or_app. right. right. left. reflexivity. }
      { intros Hn. apply Hl1 in Hn. destruct Hn as (Hn & _).
        destruct (hp_listed _ _ _ Hp _ Hn) as (sz & Hsz).
        destruct (tiles_disjoint _ _ _ _ _ _ _ _ _ _ (hc_tiles _ _ Hc) Hin Hsz) as [E|Hd].
        - injection E as E _. unfold DSIZE in *. lia.
        - destruct (core_block st _ Hc _ _ _ Hsz) as (_ & _ & _ & _ & ? & _).
          unfold rem, DSIZE in *. lia. }
      { exact Hfuel. }
      cbn [set_mem mem mem_brk mem_start_brk mem_max_addr] in *.
      rewrite NB4, Hins.
      exists st', (pre ++ (ptr, asize, 1) :: (ptr + asize, rem, 0) :: post), L', ptr, asize.
      split; [reflexivity|]. split.
      { constructor; [exact Hp' | |].
        - intros n sz Hn. apply Hl'. apply in_app_or in Hn. destruct Hn as [Hn|[E|[E|Hn]]].
          + left. apply (Hfree1 n sz). apply in_or_app. left. assumption.
          + discriminate.
          + right. congruence.
          + left. apply (Hfree1 n sz). apply in_or_app. right. assumption.
        - rewrite adjacent_free_app, !adjacent_free_cons, A1, A2.
          change (first_alloc ((ptr, asize, 1) :: (ptr + asize, rem, 0) :: post) =? 0) with false.
          change (alloc_of (ptr, asize, 1) =? 0) with false.
          change (alloc_of (ptr + asize, rem, 0) =? 0) with true.
          rewrite Fa. cbn [andb orb]. rewrite andb_false_r. reflexivity. }
      split; [apply in_elt|].
      repeat (split; [first [unfold rem; lia | congruence]|]). split.
      * intros n sz. split.
        -- intros Hn. apply in_app_or in Hn. destruct Hn as [Hn|[E|[E|Hn]]].
           ++ left. apply in_or_app. left. assumption.
           ++ right. congruence.
           ++ discriminate.
           ++ left. apply in_or_app. right. right. assumption.
        -- intros [Hn|E].
           ++ apply in_app_or in Hn. apply in_or_app.
              destruct Hn as [Hn|[E|Hn]];
                [left; assumption | discriminate | right; right; right; assumption].
           ++ injection E as -> ->. apply in_elt.
      * intros i Hi. pose proof (Hi _ _ Hin).
        rewrite Hfr'.
        -- rewrite Hfr4 by (unfold rem, HDRP, WSIZE, DSIZE in *; lia).
           apply Hfr1. intros n Hn _. apply (Hlinks i Hi n Hn).
        -- unfold rem, HDRP, WSIZE, DSIZE in *. lia.
        -- intros n Hn. apply (Hlinks i Hi n). apply Hl1 in Hn. tauto.
Qed.

(** * [extend_heap] *)

Lemma ALIGN_aligned x : 0 <= x < 2 ^ 32 -> x mod 8 = 0 -> ALIGN x = x.
Proof.
  intros Hx H8. unfold ALIGN, ALIGNMENT.
  change (2 ^ 32) with 4294967296 in *.
  rewrite wrap32_small by (change (2 ^ 32) with 4294967296; Z.div_mod_to_equations; lia).
  rewrite land_lnot7. Z.div_mod_to_equations. lia.
Qed.

Lemma ALIGN_up x :
  0 <= x -> x + 7 < 2 ^ 32 ->
  x <= ALIGN x < 2 ^ 32 /\ ALIGN x < x + 8 /\ ALIGN x mod 8 = 0.
Proof.
  intros Hx Hlt. unfold ALIGN, ALIGNMENT.
  rewrite wrap32_small by lia. rewrite land_lnot7.
  change (2 ^ 32) with 4294967296 in *.
  repeat split; Z.div_mod_to_equations; lia.
Qed.

(** [extend_heap] on a well-formed heap: when [mem_sbrk] fails nothing
    changes; otherwise the heap is well formed again, the break has moved by
    [size] bytes and the block returned is the last one, free and at least
    [size] bytes long. *)
Lemma extend_heap_ok fuel st bs L size :
  heap_ok st bs L -> size mod 8 = 0 -> 2 * DSIZE <= size < 2 ^ 32 -> (0 < fuel)%nat ->
  (mem_max_addr st < mem_brk st + size -> extend_heap fuel st size = Some (st, NULL)) /\
  (mem_brk st + size <= mem_max_addr st ->
   exists st' bs' L' ptr s',
     extend_heap fuel st size = Some (st', ptr) /\ ptr <> NULL /\
     heap_ok st' bs' L' /\ In (ptr, s', 0) bs' /\ size <= s' /\
     mem_brk st' = mem_brk st + size /\ mem_start_brk st' = mem_start_brk st /\
     mem_max_addr st' = mem_max_addr st /\
     (forall n sz, In (n, sz, 1) bs' <-> In (n, sz, 1) bs) /\
     (forall i, (forall n sz, In (n, sz, 0) bs -> i < HDRP n \/ n + sz - WSIZE <= i) ->
                i < HDRP (mem_brk st) -> mem st' i = mem st i) /\
     (bs' = bs ++ [(ptr, s', 0)] /\ ptr = mem_brk st /\ s' = size \/
      exists front sv, bs = front ++ [(ptr, sv, 0)] /\ bs' = front ++ [(ptr, s', 0)] /\
                       s' = sv + size)).
Proof.
  intros Hok H8 Hsize Hfuel.
  pose proof (hk_pre _ _ _ Hok) as Hp. pose proof (hp_core _ _ _ Hp) as Hc.
  destruct (core_first st _ Hc) as (F1 & F2 & F3 & F4 & F5).
  destruct (hc_max _ _ Hc) as (M1 & M2).
  assert (Hr : 0 <= size < 2 ^ 32) by (unfold DSIZE in *; lia).
  unfold extend_heap. rewrite (ALIGN_aligned size Hr H8). unfold mem_sbrk.
  split.
  - intros Hfail. destruct (Z.leb_spec (mem_brk st + size) (mem_max_addr st)); [lia|].
    change (SBRK_FAIL =? SBRK_FAIL) with true. reflexivity.
  - intros Hfit. destruct (Z.leb_spec (mem_brk st + size) (mem_max_addr st)); [|lia].
    set (brk := mem_brk st) in *.
    assert (Hbrk8 : brk mod 8 = 0).
    { destruct (tiles_len _ _ _ _ (hc_tiles _ _ Hc)) as (Hl & _). fold brk in Hl.
      Z.div_mod_to_equations. lia. }
    destruct (Z.eqb_spec brk SBRK_FAIL) as [E|_].
    { exfalso. unfold SBRK_FAIL, wrap32 in E. change ((-1) mod 2 ^ 32) with 4294967295 in E.
      rewrite E in Hbrk8. discriminate. }
    set (st1 := mkHeap (mem st) (segregated_free_lists st) (mem_start_brk st)
                       (brk + size) (mem_max_addr st)).
    cbn [mem].
    destruct (retag_block (mem st) brk size 0 Hr H8 (or_introl eq_refl))
      as (_ & _ & G1 & G2 & S2 & _ & Hfr2).
    set (m2 := PUT_NOTAG (PUT_NOTAG (mem st) (HDRP brk) (PACK size 0))
                 (FTRP (PUT_NOTAG (mem st) (HDRP brk) (PACK size 0)) brk) (PACK size 0)) in *.
    assert (NB2 : NEXT_BLKP m2 brk = brk + size).
    { unfold NEXT_BLKP. fold (HDRP brk). rewrite S2. reflexivity. }
    change (mem st1) with (mem st). fold m2. rewrite NB2.
    set (m3 := PUT_NOTAG m2 (HDRP (brk + size)) (PACK 0 1)).
    assert (G3 : GET m3 (HDRP (brk + size)) = PACK 0 1).
    { unfold m3. rewrite GET_PUT_NOTAG_same. reflexivity. }
    assert (Hfr3 : forall i, i < HDRP brk -> m3 i = mem st i).
    { intros i Hi. unfold m3. unfold HDRP, WSIZE, DSIZE in *.
      rewrite PUT_NOTAG_outside by lia. apply Hfr2; lia. }
    assert (Hp3 : heap_pre (set_mem st1 m3) (bs ++ [(brk, size, 0)]) L).
    { constructor.
      - constructor; cbn [set_mem st1 mem mem_start_brk mem_brk mem_max_addr].
        + apply (hc_start _ _ Hc).
        + lia.
        + destruct (hc_prologue _ _ Hc) as (P1 & P2). split.
          * rewrite <- P1. apply GET_ext. intros i Hi. apply Hfr3. unfold HDRP, WSIZE in *. lia.
          * rewrite <- P2. apply GET_ext. intros i Hi. apply Hfr3. unfold HDRP, WSIZE in *. lia.
        + change (first_block (set_mem st1 m3)) with (first_block st).
          apply tiles_app. exists brk. split.
          * apply (tiles_frame_range (mem st)); [apply (hc_tiles _ _ Hc)|].
            intros i Hi. apply Hfr3. lia.
          * apply tiles_single; try tauto.
            -- unfold m3. rewrite GET_PUT_NOTAG_other by (unfold HDRP, WSIZE, DSIZE in *; lia).
               exact G1.
            -- unfold m3. rewrite GET_PUT_NOTAG_other by (unfold HDRP, WSIZE, DSIZE in *; lia).
               exact G2.
        + exact G3.
      - apply (seg_ok_frame st); [apply (hp_index _ _ _ Hp) | reflexivity |].
        intros k n a Hn Ha. cbn [set_mem mem]. apply Hfr3.
        destruct (hp_listed _ _ _ Hp n (ex_intro _ k Hn)) as (s & Hs).
        destruct (core_block st _ Hc _ _ _ Hs) as (_ & B2 & _ & _ & B3 & _).
        fold brk in B2. unfold HDRP, WSIZE, DSIZE in *. lia.
      - intros n Hn. destruct (hp_listed _ _ _ Hp n Hn) as (s & Hs). exists s.
        apply in_or_app. left. assumption. }
    destruct (insert_node_pre fuel (set_mem st1 m3) _ L brk size Hp3)
      as (st4 & L4 & Hins & Hp4 & Hl4 & E1 & E2 & E3 & Hfr4).
    { apply in_or_app. right. left. reflexivity. }
    { intros Hn. destruct (hp_listed _ _ _ Hp _ Hn) as (s & Hs).
      destruct (core_block st _ Hc _ _ _ Hs) as (_ & B2 & _ & _ & B3 & _).
      fold brk in B2. unfold DSIZE in *. lia. }
    { exact Hfuel. }
    cbn [set_mem st1 mem mem_brk mem_start_brk mem_max_addr] in *.
    destruct (coalesce_ok fuel st4 L4 bs brk size [] Hp4)
      as (st' & bs' & L' & ptr' & s' & Hco & Hok' & Hin' & Hle1 & Hle2 & E4 & E5 & E6 & Hal & Hfr5 & Hsh).
    { intros n sz Hn. apply Hl4. apply in_app_or in Hn. destruct Hn as [Hn|[E|[]]].
      - left. apply (hk_free _ _ _ Hok n sz Hn).
      - right. congruence. }
    { apply (hk_coalesced _ _ _ Hok). }
    { reflexivity. }
    { exact Hfuel. }
    fold m3. rewrite Hins.
    exists st', bs', L', ptr', s'. split; [exact Hco|].
    destruct (core_block st' _ (hp_core _ _ _ (hk_pre _ _ _ Hok')) _ _ _ Hin')
      as (C1 & C2 & C3 & _).
    split; [unfold NULL; lia|]. split; [exact Hok'|]. split; [exact Hin'|].
    split; [lia|]. split; [congruence|]. split; [congruence|]. split; [congruence|].
    split; [|split].
    + intros n sz. rewrite Hal. split.
      * intros Hn. apply in_app_or in Hn. destruct Hn as [Hn|[E|[]]]; [assumption | discriminate].
      * intros Hn. apply in_or_app. left. assumption.
    + intros i Hi Hlow.
      assert (Hlinks : forall n, listed L n -> i < n \/ n + 8 <= i).
      { intros n Hn. destruct (hp_listed _ _ _ Hp n Hn) as (sz & Hsz).
        destruct (core_block st _ Hc _ _ _ Hsz) as (_ & _ & _ & _ & ? & _).
        specialize (Hi n sz Hsz). unfold HDRP, WSIZE, DSIZE in *. lia. }
      rewrite Hfr5.
      * rewrite Hfr4; [apply Hfr3; exact Hlow | | exact Hlinks].
        unfold HDRP, WSIZE in *. lia.
      * intros n sz Hn. apply in_app_or in Hn. destruct Hn as [Hn|[E|[]]].
        -- apply (Hi n sz Hn).
        -- injection E as <- <-. left. exact Hlow.
    + destruct Hsh as (front & back & Ebs & Hfront & Hback).
      assert (back = [] /\ ptr' + s' = brk + size) as (-> & Hend).
      { destruct Hback as [(-> & ?)|(sx & ? & _)]; [split; [reflexivity | assumption] | discriminate]. }
      destruct Hfront as [(-> & ->)|(sv & Epre)].
      * left. split; [exact Ebs|]. split; [reflexivity | lia].
      * right. exists front, sv. split; [exact Epre|]. split; [exact Ebs|].
        pose proof (hc_tiles _ _ Hc) as Ht. rewrite Epre in Ht. apply tiles_app in Ht.
        destruct Ht as (r & _ & Ht). cbn [tiles] in Ht. fold brk in Ht. lia.
Qed.

(** * [mm_malloc] *)

Lemma adjust_ok size :
  0 < size -> size + 15 < 2 ^ 32 ->
  adjust size mod 8 = 0 /\ 2 * DSIZE <= adjust size < 2 ^ 32 /\ size + DSIZE <= adjust size.
Proof.
  intros H0 H1. unfold adjust, DSIZE.
  destruct (Z.leb_spec size 8).
  - change (2 ^ 32) with 4294967296. repeat split; lia.
  - rewrite wrap32_small by lia.
    destruct (ALIGN_up (size + 8) ltac:(lia) ltac:(lia)) as (A1 & A2 & A3).
    repeat split; try assumption; lia.
Qed.

(** The walk inside one bucket ends when the fuel exceeds the length of the
    bucket: at a node that is large enough, or at [NULL] when every node of
    the bucket is too small. *)
Lemma fit_walk_chain m asize nodes : forall fuel s p,
  lseg m s p nodes NULL -> (forall n, In n nodes -> n <> NULL) ->
  (length nodes < fuel)%nat ->
  exists r, fit_walk fuel m asize p = Some r /\
            ((r = NULL /\ forall x, In x nodes -> GET_SIZE m (HDRP x) < asize)
             \/ (In r nodes /\ asize <= GET_SIZE m (HDRP r))).
Proof.
  induction nodes as [|n rest IH]; intros fuel s p Hseg Hnz Hfuel;
    (destruct fuel as [|fuel]; [cbn [length] in Hfuel; lia|]); cbn [lseg fit_walk] in *.
  - subst p. change (NULL =? NULL) with true. cbn [negb andb].
    exists NULL. split; [reflexivity|]. left. split; [reflexivity|]. intros x [].
  - destruct Hseg as (-> & _ & Hseg).
    destruct (Z.eqb_spec n NULL) as [E|_]; [exfalso; apply (Hnz n); [left; reflexivity | exact E]|].
    cbn [negb andb].
    destruct (Z.gtb_spec asize (GET_SIZE m (HDRP n))) as [Hgt|Hle].
    + destruct (IH fuel n (PRED m n) Hseg) as (r & Hr & Hcase).
      * intros x Hx. apply Hnz. right. assumption.
      * cbn [length] in Hfuel. lia.
      * exists r. split; [exact Hr|]. destruct Hcase as [(E & Hall)|(Hin & Hsz)]; [left | right].
        -- split; [exact E|]. intros x [<-|Hx]; [lia | apply Hall; exact Hx].
        -- split; [right; assumption | assumption].
    + exists n. split; [reflexivity|]. right. split; [left; reflexivity | lia].
Qed.

(** The bucket loop of [mm_malloc]: it ends at a listed block that is large
    enough, or at [NULL] when no block of the buckets it had still to visit
    is large enough.  A bucket is skipped only when it is empty or when its
    size class lies below [asize]. *)
Lemma find_fit_ok st L asize fuel :
  seg_ok st L -> (forall k, (length (L k) < fuel)%nat) -> 1 <= asize ->
  forall n list searchsize, 0 <= list -> searchsize = Z.shiftr asize list ->
  LISTLIMIT - list <= Z.of_nat n ->
  exists r, find_fit n fuel st asize list searchsize NULL = Some r /\
            ((r = NULL /\ forall k x, list <= k -> In x (L k) ->
                                      GET_SIZE (mem st) (HDRP x) < asize)
             \/ (listed L r /\ asize <= GET_SIZE (mem st) (HDRP r))).
Proof.
  intros Hok Hfuel Hasize.
  assert (Hout : forall list, LISTLIMIT <= list ->
            forall k x, list <= k -> In x (L k) -> GET_SIZE (mem st) (HDRP x) < asize).
  { intros list Hge k x Hk Hx. destruct (ok_node _ _ Hok _ _ Hx) as (Hr & _). lia. }
  induction n as [|n IH]; intros list searchsize Hlist Hss Hn; cbn [find_fit].
  - exists NULL. split; [reflexivity|]. left. split; [reflexivity|]. apply Hout. lia.
  - destruct (Z.ltb_spec list LISTLIMIT) as [Hlt|Hge].
    2:{ exists NULL. split; [reflexivity|]. left. split; [reflexivity|]. apply Hout. lia. }
    assert (Hnext : exists r,
              find_fit n fuel st asize (list + 1) (Z.shiftr searchsize 1) NULL = Some r /\
              ((r = NULL /\ forall k x, list + 1 <= k -> In x (L k) ->
                                        GET_SIZE (mem st) (HDRP x) < asize)
               \/ (listed L r /\ asize <= GET_SIZE (mem st) (HDRP r)))).
    { apply IH; [lia | | lia]. rewrite Hss, Z.shiftr_shiftr by lia. reflexivity. }
    assert (Hcover : (forall x, In x (L list) -> GET_SIZE (mem st) (HDRP x) < asize) ->
              forall r, (r = NULL /\ forall k x, list + 1 <= k -> In x (L k) ->
                                      GET_SIZE (mem st) (HDRP x) < asize)
                        \/ (listed L r /\ asize <= GET_SIZE (mem st) (HDRP r)) ->
                        (r = NULL /\ forall k x, list <= k -> In x (L k) ->
                                      GET_SIZE (mem st) (HDRP x) < asize)
                        \/ (listed L r /\ asize <= GET_SIZE (mem st) (HDRP r))).
    { intros Hhere r [(E & Hall)|H]; [left | right; exact H]. split; [exact E|].
      intros k x Hk Hx. destruct (Z.eq_dec k list) as [->|Hne];
        [apply Hhere; exact Hx | apply (Hall k); [lia | exact Hx]]. }
    destruct ((list =? LISTLIMIT - 1)
              || (searchsize <=? 1) && negb (segregated_free_lists st list =? NULL)) eqn:Hcond.
    + destruct (fit_walk_chain (mem st) asize (L list) fuel NULL (segregated_free_lists st list))
        as (r & Hr & Hcase).
      * apply (ok_chain _ _ Hok list). lia.
      * intros x Hx E. destruct (ok_node _ _ Hok _ _ Hx) as (_ & Hpos & _).
        unfold NULL in E. lia.
      * apply Hfuel.
      * rewrite Hr. destruct (Z.eqb_spec r NULL) as [->|Hne]; cbn [negb].
        -- destruct Hcase as [(_ & Hhere)|(Hin & _)].
           ++ destruct Hnext as (r & Hr' & Hc'). exists r. split; [exact Hr'|].
              apply Hcover; assumption.
           ++ exfalso. destruct (ok_node _ _ Hok _ _ Hin) as (_ & Hpos & _).
              unfold NULL in Hpos. lia.
        -- exists r. split; [reflexivity|]. destruct Hcase as [(E & _)|(Hin & Hsz)]; [contradiction|].
           right. split; [exists list; assumption | assumption].
    + destruct Hnext as (r & Hr' & Hc'). exists r. split; [exact Hr'|].
      apply Hcover; [|exact Hc'].
      apply orb_false_iff in Hcond. destruct Hcond as (H19 & Hskip).
      apply Z.eqb_neq in H19. apply andb_false_iff in Hskip.
      intros x Hx. destruct (ok_node _ _ Hok _ _ Hx) as (_ & _ & Hsz & Hidx).
      destruct Hskip as [Hbig|Hempty].
      * apply Z.leb_gt in Hbig.
        destruct (seg_index_class (GET_SIZE (mem st) (HDRP x))) as (_ & Hup);
          [unfold DSIZE in *; lia | unfold LISTLIMIT in *; lia |].
        rewrite Hidx in Hup. rewrite Hss, Z.shiftr_div_pow2 in Hbig by lia.
        assert (Hpow : 0 < 2 ^ list) by (apply Z.pow_pos_nonneg; lia).
        rewrite Z.pow_add_r in Hup by lia. change (2 ^ 1) with 2 in Hup.
        assert (2 * 2 ^ list <= asize); [|lia].
        pose proof (Z.mul_div_le asize (2 ^ list) Hpow). nia.
      * exfalso. apply negb_false_iff in Hempty. apply Z.eqb_eq in Hempty.
        rewrite (seg_ok_head st L Hok list) in Hempty by lia.
        destruct (L list) as [|y l] eqn:EL; [contradiction|].
        cbn [hd] in Hempty. destruct (ok_node _ _ Hok list y) as (_ & Hpos & _).
        { rewrite EL. left. reflexivity. }
        unfold NULL in Hempty. lia.
Qed.

Lemma listed_length st bs L k : heap_pre st bs L -> (length (L k) <= length bs)%nat.
Proof.
  intros Hp.
  rewrite <- (length_map (fun b : Z * Z * Z => fst (fst b)) bs).
  apply NoDup_incl_length; [apply (ok_nodup _ _ (hp_index _ _ _ Hp))|].
  intros n Hn. destruct (hp_listed _ _ _ Hp n (ex_intro _ k Hn)) as (s & Hs).
  apply in_map_iff. exists (n, s, 0). split; [reflexivity | assumption].
Qed.

(** The bytes of an allocated block lie in no free block. *)
Lemma allocated_not_free st bs n sz i :
  heap_core st bs -> In (n, sz, 1) bs -> HDRP n <= i < n + sz - WSIZE ->
  forall n' sz', In (n', sz', 0) bs -> i < HDRP n' \/ n' + sz' - WSIZE <= i.
Proof.
  intros Hc Hin Hi n' sz' Hin'.
  destruct (tiles_disjoint _ _ _ _ _ _ _ _ _ _ (hc_tiles _ _ Hc) Hin Hin') as [E|Hd];
    [discriminate|].
  unfold HDRP, WSIZE in *. lia.
Qed.

(** [mm_malloc] on a well-formed heap, for a request whose adjusted size does
    not wrap.  It returns [NULL], with the heap untouched, only when no free
    block is large enough and the arena has no room for the extension.
    Otherwise the heap is well formed again and the pointer returned is the
    payload of an allocated block of at least [size + DSIZE] bytes; the
    blocks allocated before are still there, with the bytes they held; and
    the break has moved only if no free block was large enough. *)
Lemma mm_malloc_ok fuel st bs L size :
  heap_ok st bs L -> 0 < size -> size + 15 < 2 ^ 32 -> (length bs < fuel)%nat ->
  exists st' p,
    mm_malloc fuel st size = Some (st', p) /\
    ((p = NULL /\ st' = st /\
      mem_max_addr st < mem_brk st + MAX (adjust size) CHUNKSIZE /\
      (forall n s, In (n, s, 0) bs -> s < adjust size)) \/
     exists bs' L' s',
       heap_ok st' bs' L' /\ In (p, s', 1) bs' /\ size + DSIZE <= s' /\
       mem_start_brk st' = mem_start_brk st /\ mem_max_addr st' = mem_max_addr st /\
       mem_brk st <= mem_brk st' /\
       (forall n sz, In (n, sz, 1) bs' <-> In (n, sz, 1) bs \/ (n, sz) = (p, s')) /\
       ~ (exists sz, In (p, sz, 1) bs) /\
       (forall n sz i, In (n, sz, 1) bs -> HDRP n <= i < n + sz - WSIZE ->
                       mem st' i = mem st i) /\
       (mem_brk st' = mem_brk st \/
        (mem_brk st' = mem_brk st + MAX (adjust size) CHUNKSIZE /\
         forall n s, In (n, s, 0) bs -> s < adjust size))).
Proof.
  intros Hok Hpos Hnowrap Hfuel.
  destruct (adjust_ok size Hpos Hnowrap) as (A8 & Ar & Age).
  set (asize := adjust size) in *.
  pose proof (hk_pre _ _ _ Hok) as Hp. pose proof (hp_core _ _ _ Hp) as Hc.
  assert (Hfuel0 : (0 < fuel)%nat) by lia.
  unfold mm_malloc. destruct (Z.eqb_spec size 0) as [|_]; [lia|]. fold asize.
  destruct (find_fit_ok st L asize fuel (hp_index _ _ _ Hp)) with (n := 21%nat) (list := 0)
    (searchsize := asize) as (r & Hr & Hcase).
  { intros k. pose proof (listed_length st bs L k Hp). lia. }
  { unfold DSIZE in *. lia. }
  { lia. }
  { rewrite Z.shiftr_0_r. reflexivity. }
  { unfold LISTLIMIT. lia. }
  rewrite Hr.
  (* placing into a free block [q] of a well-formed heap [st1] *)
  assert (Hplace : forall st1 bs1 L1 q s1,
            heap_ok st1 bs1 L1 -> In (q, s1, 0) bs1 -> asize <= s1 ->
            mem_start_brk st1 = mem_start_brk st -> mem_max_addr st1 = mem_max_addr st ->
            mem_brk st <= mem_brk st1 ->
            (forall n sz, In (n, sz, 1) bs1 <-> In (n, sz, 1) bs) ->
            (forall n sz i, In (n, sz, 1) bs -> HDRP n <= i < n + sz - WSIZE ->
                            mem st1 i = mem st i) ->
            exists st' p,
              place fuel st1 q asize = Some (st', p) /\ mem_brk st' = mem_brk st1 /\
              exists bs' L' s',
                heap_ok st' bs' L' /\ In (p, s', 1) bs' /\ size + DSIZE <= s' /\
                mem_start_brk st' = mem_start_brk st /\ mem_max_addr st' = mem_max_addr st /\
                mem_brk st <= mem_brk st' /\
                (forall n sz, In (n, sz, 1) bs' <-> In (n, sz, 1) bs \/ (n, sz) = (p, s')) /\
                ~ (exists sz, In (p, sz, 1) bs) /\
                (forall n sz i, In (n, sz, 1) bs -> HDRP n <= i < n + sz - WSIZE ->
                                mem st' i = mem st i)).
  { intros st1 bs1 L1 q s1 Hok1 Hq Hs1 Es Em Eb Hal1 Hfr1.
    destruct (place_ok fuel st1 bs1 L1 q s1 asize Hok1 Hq A8 ltac:(lia) Hfuel0)
      as (st' & bs' & L' & p & s' & Hpl & Hok' & Hin' & Hs' & Hq1 & Hq2 & E1 & E2 & E3 & Hal' & Hfr').
    exists st', p. split; [exact Hpl|]. split; [exact E1|]. exists bs', L', s'.
    pose proof (hp_core _ _ _ (hk_pre _ _ _ Hok1)) as Hc1.
    split; [exact Hok'|]. split; [exact Hin'|]. split; [lia|].
    split; [congruence|]. split; [congruence|]. split; [lia|]. split; [|split].
    - intros n sz. rewrite Hal', Hal1. reflexivity.
    - intros (sz & Hsz). apply Hal1 in Hsz.
      destruct (tiles_disjoint _ _ _ _ _ _ _ _ _ _ (hc_tiles _ _ Hc1) Hq Hsz) as [E|Hd];
        [discriminate|].
      destruct (core_block st1 _ Hc1 _ _ _ Hsz) as (_ & _ & _ & _ & ? & _).
      destruct (core_block st' _ (hp_core _ _ _ (hk_pre _ _ _ Hok')) _ _ _ Hin')
        as (_ & _ & _ & _ & ? & _).
      unfold DSIZE in *. lia.
    - intros n sz i Hn Hi. rewrite Hfr'; [apply (Hfr1 n sz i Hn Hi)|].
      apply (allocated_not_free st1 bs1 n sz i Hc1); [apply Hal1; exact Hn | exact Hi]. }
  assert (Hpack : forall (st' : heap) (p : Z) (R : Prop) (B : Prop),
            (exists bs' L' s',
               heap_ok st' bs' L' /\ In (p, s', 1) bs' /\ size + DSIZE <= s' /\
               mem_start_brk st' = mem_start_brk st /\ mem_max_addr st' = mem_max_addr st /\
               mem_brk st <= mem_brk st' /\
               (forall n sz, In (n, sz, 1) bs' <-> In (n, sz, 1) bs \/ (n, sz) = (p, s')) /\
               ~ (exists sz, In (p, sz, 1) bs) /\ R) -> B ->
            exists bs' L' s',
               heap_ok st' bs' L' /\ In (p, s', 1) bs' /\ size + DSIZE <= s' /\
               mem_start_brk st' = mem_start_brk st /\ mem_max_addr st' = mem_max_addr st /\
               mem_brk st <= mem_brk st' /\
               (forall n sz, In (n, sz, 1) bs' <-> In (n, sz, 1) bs \/ (n, sz) = (p, s')) /\
               ~ (exists sz, In (p, sz, 1) bs) /\ R /\ B).
  { intros st' p R B (bs' & L' & s' & H1 & H2 & H3 & H4 & H5 & H6 & H7 & H8 & H9) HB.
    exists bs', L', s'. tauto. }
  destruct (Z.eqb_spec r NULL) as [->|Hne].
  - (* no fit: extend the heap *)
    assert (Hnofit : forall n s, In (n, s, 0) bs -> s < asize).
    { destruct Hcase as [(_ & Hall)|(Hl & _)].
      - intros n s Hn. destruct (hk_free _ _ _ Hok _ _ Hn) as (k & Hk).
        destruct (ok_node _ _ (hp_index _ _ _ Hp) _ _ Hk) as (Hk0 & _).
        destruct (core_block st _ Hc _ _ _ Hn) as (_ & _ & _ & _ & _ & _ & _ & SZ & _).
        rewrite <- SZ. apply (Hall k n); [lia | exact Hk].
      - exfalso. destruct Hl as (k & Hk).
        destruct (ok_node _ _ (hp_index _ _ _ Hp) _ _ Hk) as (_ & Hnz & _).
        unfold NULL in Hnz. lia. }
    assert (Hext : MAX asize CHUNKSIZE mod 8 = 0 /\ 2 * DSIZE <= MAX asize CHUNKSIZE < 2 ^ 32
                   /\ asize <= MAX asize CHUNKSIZE).
    { unfold MAX, CHUNKSIZE. change (Z.shiftl 1 12) with 4096.
      unfold DSIZE in *. change (2 ^ 32) with 4294967296 in *.
      destruct (Z.gtb_spec asize 4096);
        (split; [first [assumption | reflexivity] | split; lia]). }
    destruct Hext as (X8 & Xr & Xge).
    destruct (extend_heap_ok fuel st bs L (MAX asize CHUNKSIZE) Hok X8 Xr Hfuel0) as (Hfail & Hgrow).
    destruct (Z_lt_le_dec (mem_max_addr st) (mem_brk st + MAX asize CHUNKSIZE)) as [Hno|Hyes].
    + rewrite (Hfail Hno). change (NULL =? NULL) with true. cbn iota.
      exists st, NULL. split; [reflexivity|]. left.
      split; [reflexivity|]. split; [reflexivity|]. split; [exact Hno | exact Hnofit].
    + destruct (Hgrow Hyes) as (st1 & bs1 & L1 & q & s1 & Hex & Hq & Hok1 & Hin1 & Hs1 & E1 & E2 & E3 & Hal1 & Hfr1 & _).
      rewrite Hex. destruct (Z.eqb_spec q NULL) as [|_]; [contradiction|].
      destruct (Hplace st1 bs1 L1 q s1 Hok1 Hin1 ltac:(lia) E2 E3
                  ltac:(unfold DSIZE in *; lia) Hal1)
        as (st' & p & Hpl & Ebrk & Hres).
      { intros n sz i Hn Hi. apply Hfr1.
        - apply (allocated_not_free st bs n sz i Hc Hn Hi).
        - destruct (core_block st _ Hc _ _ _ Hn) as (_ & ? & _). unfold HDRP, WSIZE in *. lia. }
      exists st', p. split; [exact Hpl|]. right. apply Hpack; [exact Hres|].
      right. split; [congruence | exact Hnofit].
  - (* a fit in the index *)
    destruct Hcase as [(E & _)|(Hl & Hsz)]; [contradiction|].
    destruct (hp_listed _ _ _ Hp r Hl) as (s & Hs).
    destruct (core_block st _ Hc _ _ _ Hs) as (_ & _ & _ & _ & _ & _ & _ & SZ & _).
    rewrite SZ in Hsz.
    destruct (Hplace st bs L r s Hok Hs Hsz eq_refl eq_refl ltac:(lia))
      as (st' & p & Hpl & Ebrk & Hres).
    { intros n sz. reflexivity. }
    { intros n sz i _ _. reflexivity. }
    exists st', p. split; [exact Hpl|]. right. apply Hpack; [exact Hres|].
    left. exact Ebrk.
Qed.

(** * [mm_init] *)

(** On an empty arena at a positive, 8-byte aligned address [mm_init]
    returns -1 when the arena has no room for the 16 bytes of padding,
    prologue and epilogue and the first chunk, and otherwise returns 0 and
    leaves a well-formed heap of one free block of [INITCHUNKSIZE] bytes. *)
Lemma mm_init_ok fuel st0 :
  0 < mem_start_brk st0 -> mem_start_brk st0 mod 8 = 0 ->
  mem_brk st0 = mem_start_brk st0 -> mem_max_addr st0 < 2 ^ 32 -> (0 < fuel)%nat ->
  exists st' r,
    mm_init fuel st0 = Some (st', r) /\
    ((r = -1 /\ mem_max_addr st0 < mem_start_brk st0 + 4 * WSIZE + INITCHUNKSIZE) \/
     (r = 0 /\ mem_start_brk st0 + 4 * WSIZE + INITCHUNKSIZE <= mem_max_addr st0 /\
      mem_start_brk st' = mem_start_brk st0 /\ mem_max_addr st' = mem_max_addr st0 /\
      exists bs L, heap_ok st' bs L /\ (forall n sz, ~ In (n, sz, 1) bs) /\
                   bs = [(mem_start_brk st0 + 4 * WSIZE, INITCHUNKSIZE, 0)] /\
                   mem_brk st' = mem_start_brk st0 + 4 * WSIZE + INITCHUNKSIZE)).
Proof.
  intros Hpos H8 Hbrk Hmax Hfuel.
  unfold mm_init, mem_sbrk. cbn [mem_brk mem_max_addr mem segregated_free_lists mem_start_brk].
  change (4 * WSIZE) with 16. change INITCHUNKSIZE with 64.
  set (start := mem_start_brk st0) in *. rewrite Hbrk.
  destruct (Z.leb_spec (start + 16) (mem_max_addr st0)) as [Hfit|Hno].
  2:{ change (SBRK_FAIL =? SBRK_FAIL) with true. cbn iota.
      eexists _, _. split; [reflexivity|]. left. split; [reflexivity | lia]. }
  destruct (Z.eqb_spec start SBRK_FAIL) as [E|_].
  { exfalso. unfold SBRK_FAIL, wrap32 in E. change ((-1) mod 2 ^ 32) with 4294967295 in E.
    rewrite E in H8. discriminate. }
  cbn [mem].
  set (heads := fun k => if (0 <=? k) && (k <? LISTLIMIT) then NULL
                         else segregated_free_lists st0 k).
  set (m4 := PUT_NOTAG (PUT_NOTAG (PUT_NOTAG (PUT_NOTAG (mem st0) start 0)
                (start + 1 * WSIZE) (PACK DSIZE 1)) (start + 2 * WSIZE) (PACK DSIZE 1))
                (start + 3 * WSIZE) (PACK 0 1)).
  set (st1 := set_mem (mkHeap (mem st0) heads start (start + 16) (mem_max_addr st0)) m4).
  assert (Hok1 : heap_ok st1 [] (fun _ => [])).
  { constructor; [constructor | intros n s [] | reflexivity].
    - constructor; cbn [st1 set_mem mem mem_start_brk mem_brk mem_max_addr].
      + split; assumption.
      + lia.
      + unfold m4, WSIZE. split.
        * rewrite !GET_PUT_NOTAG_other by lia. rewrite GET_PUT_NOTAG_same. reflexivity.
        * rewrite !GET_PUT_NOTAG_other by lia. rewrite GET_PUT_NOTAG_same. reflexivity.
      + cbn [tiles]. unfold first_block, st1, set_mem, WSIZE. cbn [mem_start_brk]. lia.
      + unfold m4, HDRP, WSIZE.
        replace (start + 16 - 4) with (start + 3 * 4) by lia.
        rewrite GET_PUT_NOTAG_same. reflexivity.
    - constructor.
      + intros k Hk. unfold chain. cbn [lseg st1 set_mem segregated_free_lists]. unfold heads.
        destruct (Z.leb_spec 0 k); [|lia]. destruct (Z.ltb_spec k LISTLIMIT); [|lia].
        reflexivity.
      + intros k n [].
      + intros k. constructor.
      + intros k1 k2 n1 n2 [].
    - intros n (k & []). }
  destruct (extend_heap_ok fuel st1 [] (fun _ => []) 64 Hok1) as (Hfail & Hgrow);
    [reflexivity | unfold DSIZE; change (2 ^ 32) with 4294967296; lia | exact Hfuel |].
  cbn [st1 set_mem mem_brk mem_max_addr mem_start_brk] in Hfail, Hgrow.
  destruct (Z_lt_le_dec (mem_max_addr st0) (start + 16 + 64)) as [Hno|Hyes].
  - fold heads. fold m4. fold st1. rewrite (Hfail Hno).
    change (NULL =? NULL) with true. cbn iota.
    eexists _, _. split; [reflexivity|]. left. split; [reflexivity | lia].
  - destruct (Hgrow Hyes) as (st' & bs' & L' & q & s' & Hex & Hq & Hok' & _ & _ & E1 & E2 & E3 & Hal & _ & Hsh).
    fold heads. fold m4. fold st1. rewrite Hex.
    destruct (Z.eqb_spec q NULL) as [|_]; [contradiction|].
    exists st', 0. split; [reflexivity|]. right.
    split; [reflexivity|]. split; [lia|]. split; [exact E2|]. split; [exact E3|].
    exists bs', L'. split; [exact Hok'|]. split; [|split].
    + intros n sz Hn. apply Hal in Hn. destruct Hn.
    + destruct Hsh as [(-> & -> & ->)|(front & sv & Ebs & _)].
      * reflexivity.
      * destruct front; discriminate.
    + exact E1.
Qed.

(** * The heap walk of a well-formed heap *)

Lemma heap_blocks_tiles m bs : forall p q fuel,
  tiles m p bs q -> 0 < p -> q <= 2 ^ 32 -> GET_SIZE m (HDRP q) = 0 ->
  (length bs < fuel)%nat -> heap_blocks fuel m p = bs.
Proof.
  induction bs as [|[[n s] a] bs IH]; intros p q fuel T Hp Hq He Hfuel;
    (destruct fuel as [|fuel]; [cbn [length] in Hfuel; lia|]); cbn [heap_blocks].
  - cbn [tiles] in T. subst q. rewrite He. reflexivity.
  - assert (Hin : In (n, s, a) ((n, s, a) :: bs)) by (left; reflexivity).
    destruct (tiles_read m _ p q n s a T Hin Hq Hp) as (S1 & A1 & _ & _ & N1 & _).
    cbn [tiles] in T. destruct T as (<- & Hs & _ & _ & _ & _ & T).
    rewrite S1, A1, N1.
    destruct (Z.eqb_spec s 0) as [E|_]; [unfold DSIZE in *; lia|].
    f_equal. apply (IH (n + s) q); try assumption; [unfold DSIZE in *; lia|].
    cbn [length] in Hfuel. lia.
Qed.

(** In a well-formed heap the walk from the first block to the epilogue
    reads the blocks of the heap, and no two neighbours among them are
    free. *)
Lemma heap_ok_walk st bs L fuel :
  heap_ok st bs L -> (length bs < fuel)%nat ->
  heap_blocks fuel (mem st) (first_block st) = bs /\
  adjacent_free (heap_blocks fuel (mem st) (first_block st)) = false.
Proof.
  intros Hok Hfuel. pose proof (hp_core _ _ _ (hk_pre _ _ _ Hok)) as Hc.
  destruct (core_first st _ Hc) as (_ & F2 & _ & _ & F5).
  assert (E : heap_blocks fuel (mem st) (first_block st) = bs).
  { apply (heap_blocks_tiles _ _ _ (mem_brk st)); try assumption.
    - apply (hc_tiles _ _ Hc).
    - lia.
    - unfold GET_SIZE. rewrite (hc_epilogue _ _ Hc). reflexivity. }
  rewrite E. split; [reflexivity | apply (hk_coalesced _ _ _ Hok)].
Qed.

(** * [mm_realloc] on a well-formed heap *)

Lemma to_int_id z : - 2 ^ 31 <= z < 2 ^ 31 -> to_int z = z.
Proof.
  intros H. unfold to_int, wrap32.
  change (2 ^ 31) with 2147483648 in *. change (2 ^ 32) with 4294967296.
  destruct (Z.ltb_spec (z mod 4294967296) 2147483648); Z.div_mod_to_equations; lia.
Qed.

Lemma adjust_le size : 0 < size -> size + 15 < 2 ^ 32 -> adjust size <= size + 15.
Proof.
  intros Hpos Hlt. unfold adjust, DSIZE.
  destruct (Z.leb_spec size 8); [lia|].
  rewrite wrap32_small by lia.
  destruct (ALIGN_up (size + 8)) as (_ & ? & _); lia.
Qed.

(** Unlinking a listed block and writing new tags of size [T >= s] on the
    allocated block [ptr] leaves the payload of [ptr] as it was. *)
Lemma grow_frame st bs L k ptr s nx T :
  heap_pre st bs L -> In (ptr, s, 1) bs -> In nx (L k) ->
  0 <= T < 2 ^ 32 -> T mod 8 = 0 -> s <= T ->
  let st1 := delete_node st nx in
  let m1 := PUT_NOTAG (mem st1) (HDRP ptr) (PACK T 1) in
  let m2 := PUT_NOTAG m1 (FTRP m1 ptr) (PACK T 1) in
  forall i, ptr <= i < ptr + s - DSIZE -> m2 i = mem st i.
Proof.
  intros Hp Hin Hk HT T8 HsT st1 m1 m2 i Hi.
  pose proof (hp_core _ _ _ Hp) as Hc.
  destruct (retag_block (mem st1) ptr T 1 HT T8 (or_intror eq_refl))
    as (_ & _ & _ & _ & _ & _ & Hfr).
  fold m1 in Hfr. fold m2 in Hfr.
  rewrite Hfr by (unfold HDRP, WSIZE, DSIZE in *; lia).
  destruct (delete_node_pre st bs L k nx Hp Hk) as (L' & _ & _ & _ & _ & _ & Hfr1).
  apply Hfr1. intros n Hn Hne. destruct (hp_listed _ _ _ Hp n Hn) as (sz & Hsz).
  assert (Hr : HDRP ptr <= i < ptr + s - WSIZE) by (unfold HDRP, WSIZE, DSIZE in *; lia).
  pose proof (allocated_not_free st bs ptr s i Hc Hin Hr n sz Hsz).
  destruct (core_block st _ Hc _ _ _ Hsz) as (_ & _ & _ & _ & ? & _).
  unfold HDRP, WSIZE, DSIZE in *. lia.
Qed.

(** The allocated block [ptr] takes over the free block behind it: the
    free block is unlinked and [ptr] is tagged with the sum of the sizes. *)
Lemma absorb_next st L pre ptr s nx sx post :
  heap_ok st (pre ++ (ptr, s, 1) :: (nx, sx, 0) :: post) L ->
  let st1 := delete_node st nx in
  let m1 := PUT_NOTAG (mem st1) (HDRP ptr) (PACK (s + sx) 1) in
  let m2 := PUT_NOTAG m1 (FTRP m1 ptr) (PACK (s + sx) 1) in
  exists L', heap_ok (set_mem st1 m2) (pre ++ (ptr, s + sx, 1) :: post) L'.
Proof.
  intros Hok st1 m1 m2.
  pose proof (hk_pre _ _ _ Hok) as Hp. pose proof (hp_core _ _ _ Hp) as Hc.
  set (bs := pre ++ (ptr, s, 1) :: (nx, sx, 0) :: post) in *.
  assert (Iptr : In (ptr, s, 1) bs) by apply in_elt.
  assert (Inx : In (nx, sx, 0) bs) by (apply in_or_app; right; right; left; reflexivity).
  destruct (core_block st _ Hc _ _ _ Iptr) as (_ & _ & Bp & _ & Bs & Bs8 & _).
  destruct (core_block st _ Hc _ _ _ Inx) as (_ & Bx & _ & _ & Bsx & Bsx8 & _).
  destruct (core_first st _ Hc) as (_ & _ & _ & _ & F5).
  destruct (hk_free _ _ _ Hok _ _ Inx) as (k & Hk).
  destruct (delete_node_pre st bs L k nx Hp Hk) as (L1 & Hp1 & Hl1 & E1 & E2 & E3 & Hfr1).
  fold st1 in Hp1, E1, E2, E3, Hfr1.
  pose proof (hc_tiles _ _ (hp_core _ _ _ Hp1)) as Ht. unfold bs in Ht.
  apply tiles_app in Ht. destruct Ht as (r & T1 & T2).
  cbn [tiles] in T2.
  destruct T2 as (Er & _ & _ & _ & Hh & Hf & Enx & _ & _ & _ & Hhx & Hfx & T3).
  subst r. subst nx.
  assert (HT : 0 <= s + sx < 2 ^ 32) by (unfold DSIZE in *; lia).
  assert (T8 : (s + sx) mod 8 = 0) by (Z.div_mod_to_equations; lia).
  destruct (retag_block (mem st1) ptr (s + sx) 1 HT T8 (or_intror eq_refl))
    as (_ & _ & G1 & G2 & _ & _ & Hfr).
  fold m1 in G1, G2, Hfr. fold m2 in G1, G2, Hfr.
  assert (Hp2 : heap_pre (set_mem st1 m2) (pre ++ [(ptr, s + sx, 1)] ++ post) L1).
  { apply (pre_replace st1 L1 pre [(ptr, s, 1); (ptr + s, sx, 0)] [(ptr, s + sx, 1)] post
             ptr (ptr + (s + sx)) m2).
    - exact Hp1.
    - exact T1.
    - cbn [tiles]. unfold DSIZE in *. repeat split; try tauto; try lia.
    - replace (ptr + (s + sx)) with (ptr + s + sx) by lia. exact T3.
    - intros n s0 a [E|[E|[]]]; injection E as <- <- <-; intros Hl; apply Hl1 in Hl.
      + destruct Hl as (Hl & _). destruct (hp_listed _ _ _ Hp _ Hl) as (s0 & Hs0).
        destruct (tiles_functional _ _ _ _ _ _ _ _ _ (hc_tiles _ _ Hc) Iptr Hs0). discriminate.
      + destruct Hl as (_ & Hne). congruence.
    - intros i Hi. apply Hfr; unfold HDRP, WSIZE, DSIZE in *; lia.
    - apply tiles_single; try assumption; [unfold DSIZE in *; lia | tauto]. }
  exists L1. constructor.
  - exact Hp2.
  - intros n sz Hn. apply Hl1.
    assert (Hn' : In (n, sz, 0) (pre ++ post)).
    { apply in_app_or in Hn. apply in_or_app. destruct Hn as [Hn|[E|Hn]]; [left|discriminate|right];
        assumption. }
    split.
    + apply (hk_free _ _ _ Hok n sz). apply in_app_or in Hn'. apply in_or_app.
      destruct Hn' as [Hn'|Hn']; [left | right; right; right]; assumption.
    + intros ->.
      apply (tiles_apart (mem st) pre [(ptr, s, 1); (ptr + s, sx, 0)] post _ _ (ptr + s) sz 0 sx 0
               (hc_tiles _ _ Hc) Hn'). right. left. reflexivity.
  - pose proof (hk_coalesced _ _ _ Hok) as A. unfold bs in A.
    rewrite adjacent_free_app, !adjacent_free_cons in A.
    rewrite adjacent_free_app, adjacent_free_cons.
    change (first_alloc ((ptr, s, 1) :: (ptr + s, sx, 0) :: post)) with 1 in A.
    change (first_alloc ((ptr, s + sx, 1) :: post)) with 1.
    change (alloc_of (ptr, s, 1)) with 1 in A. change (alloc_of (ptr, s + sx, 1)) with 1.
    destruct (adjacent_free pre), (adjacent_free post), (last_alloc pre =? 0),
      (first_alloc post =? 0); cbn in A |- *; congruence.
Qed.

Lemma alloc_after_absorb m p q pre ptr s mid post T :
  tiles m p (pre ++ (ptr, s, 1) :: mid ++ post) q ->
  (forall n sz a, In (n, sz, a) mid -> a = 0) ->
  forall n sz, In (n, sz, 1) (pre ++ (ptr, T, 1) :: post) <->
               (In (n, sz, 1) (pre ++ (ptr, s, 1) :: mid ++ post) /\ n <> ptr)
               \/ (n, sz) = (ptr, T).
Proof.
  intros Ht Hmid n sz. split.
  - intros Hn. apply in_app_or in Hn. destruct Hn as [Hn|[E|Hn]].
    + left. split; [apply in_or_app; left; assumption|]. intros ->.
      apply (tiles_apart m pre [(ptr, s, 1)] (mid ++ post) p q ptr sz 1 s 1 Ht).
      * apply in_or_app. left. assumption.
      * left. reflexivity.
    + right. congruence.
    + left. split; [apply in_or_app; right; right; apply in_or_app; right; assumption|].
      intros ->.
      apply (tiles_apart m pre [(ptr, s, 1)] (mid ++ post) p q ptr sz 1 s 1 Ht).
      * apply in_or_app. right. apply in_or_app. right. assumption.
      * left. reflexivity.
  - intros [(Hn & Hne)|E].
    + apply in_app_or in Hn. apply in_or_app. destruct Hn as [Hn|[E|Hn]].
      * left. assumption.
      * congruence.
      * apply in_app_or in Hn. destruct Hn as [Hn|Hn].
        -- apply Hmid in Hn. discriminate.
        -- right. right. assumption.
    + injection E as -> ->. apply in_elt.
Qed.

Lemma adjacent_free_end l n1 s1 n2 s2 :
  adjacent_free (l ++ [(n1, s1, 0); (n2, s2, 0)]) = true.
Proof.
  rewrite adjacent_free_app. cbn. rewrite orb_true_r. reflexivity.
Qed.

Lemma mm_realloc_in_place fuel st L pre ptr s post size :
  let bs := pre ++ (ptr, s, 1) :: post in
  let new_size := adjust size + REALLOC_BUFFER in
  heap_ok st bs L -> 0 < size -> size + 143 < 2 ^ 31 -> mem_max_addr st - mem_start_brk st < 2 ^ 31 ->
  (0 < fuel)%nat -> s < new_size -> first_alloc post = 0 \/ post = [] ->
  exists st' q,
    mm_realloc fuel st ptr size = Some (st', q) /\
    ((q = NULL /\ st' = st) \/
     (q = ptr /\
      (forall i, ptr <= i < ptr + s - DSIZE -> mem st' i = mem st i) /\
      ((forall nx sx post', post = (nx, sx, 0) :: post' -> s + sx < new_size -> post' = []) ->
       exists bs' L' s',
         heap_ok st' bs' L' /\ In (ptr, s', 1) bs' /\ new_size <= s' /\
         forall n sz, In (n, sz, 1) bs' <->
                      (In (n, sz, 1) bs /\ n <> ptr) \/ (n, sz) = (ptr, s')))).
Proof.
  intros bs N Hok Hpos Hsmall Hmax Hfuel Hlt Hnext.
  pose proof (hk_pre _ _ _ Hok) as Hp. pose proof (hp_core _ _ _ Hp) as Hc.
  assert (Iptr : In (ptr, s, 1) bs) by apply in_elt.
  destruct (core_block st _ Hc _ _ _ Iptr) as (B1 & B2 & Bp & _ & Bs & Bs8 & _ & SZ & _ & NB & _).
  destruct (hc_max _ _ Hc) as (M1 & _).
  destruct (core_first st _ Hc) as (F1 & _).
  change (2 ^ 31) with 2147483648 in *.
  assert (Hnw : size + 15 < 2 ^ 32) by (change (2 ^ 32) with 4294967296; lia).
  destruct (adjust_ok size Hpos Hnw) as (A8 & Ar & Age).
  pose proof (adjust_le size Hpos Hnw) as Ale.
  assert (HN : N mod 8 = 0 /\ 144 <= N < 2147483648).
  { unfold N. change REALLOC_BUFFER with 128. unfold DSIZE in *.
    change (2 ^ 32) with 4294967296 in *.
    split; [Z.div_mod_to_equations; lia | lia]. }
  destruct HN as (N8 & HN).
  destruct (next_block st pre post ptr s 1 Hc) as (_ & _ & _ & NA & NE & NX).
  set (sx := GET_SIZE (mem st) (HDRP (ptr + s))) in *.
  assert (Hpost : (post = [] /\ sx = 0 /\ ptr + s = mem_brk st) \/
                  exists post', post = (ptr + s, sx, 0) :: post' /\ 2 * DSIZE <= sx /\
                                sx mod 8 = 0 /\ ptr + s + sx <= mem_brk st).
  { destruct post as [|[[nx sx0] ax] post'].
    - left. destruct (NE eq_refl) as (E1 & E2). split; [reflexivity|]. split; assumption.
    - right. destruct Hnext as [Hfa|]; [|discriminate]. cbn in Hfa. subst ax.
      destruct (NX nx sx0 0 post' eq_refl) as (-> & Esx & _). exists post'.
      assert (Inx : In (ptr + s, sx0, 0) bs) by (apply in_or_app; right; right; left; reflexivity).
      destruct (core_block st _ Hc _ _ _ Inx) as (_ & ? & _ & _ & ? & ? & _).
      subst sx0. split; [reflexivity|]. split; [assumption|]. split; assumption. }
  assert (Htest : (GET_ALLOC (mem st) (HDRP (ptr + s)) =? 0) || (sx =? 0) = true).
  { rewrite NA. destruct Hpost as [(-> & -> & _)|(post' & -> & _)]; reflexivity. }
  assert (Hsx : 0 <= sx /\ ptr + s + sx <= mem_brk st /\ sx mod 8 = 0).
  { destruct Hpost as [(_ & -> & ?)|(post' & _ & ? & ? & ?)]; unfold DSIZE in *;
      [split; [lia|split; [lia|reflexivity]] | lia]. }
  unfold mm_realloc. destruct (Z.eqb_spec size 0) as [|_]; [lia|].
  unfold REALLOC_BUFFER at 1. fold REALLOC_BUFFER. 
  rewrite (wrap32_small (adjust size + REALLOC_BUFFER))
    by (fold N; change (2 ^ 32) with 4294967296; lia).
  fold N. cbv zeta. rewrite SZ, NB. fold sx. rewrite Htest.
  rewrite (to_int_id (s - N)) by (change (2 ^ 31) with 2147483648; unfold DSIZE in *; lia).
  destruct (Z.ltb_spec (s - N) 0) as [_|]; [|lia].
  rewrite (to_int_id (s + sx - N)) by (change (2 ^ 31) with 2147483648; unfold DSIZE in *; lia).
  destruct (Z.ltb_spec (s + sx - N) 0) as [Hrem|Hrem].
  - (* the two blocks together are too small: the heap is extended *)
    rewrite (to_int_id (- (s + sx - N)))
      by (change (2 ^ 31) with 2147483648; unfold DSIZE in *; lia).
    set (ext := MAX (- (s + sx - N)) CHUNKSIZE).
    assert (Hext : ext mod 8 = 0 /\ 4096 <= ext < 2147483648 /\ N <= s + sx + ext).
    { unfold ext, MAX. change CHUNKSIZE with 4096.
      destruct (Z.gtb_spec (- (s + sx - N)) 4096); unfold DSIZE in *;
        (split; [Z.div_mod_to_equations; lia | lia]). }
    destruct Hext as (E8 & Er & EN).
    rewrite (wrap32_small ext) by (change (2 ^ 32) with 4294967296; lia).
    rewrite (to_int_id (s + sx - N + ext))
      by (change (2 ^ 31) with 2147483648; unfold DSIZE in *; lia).
    destruct (extend_heap_ok fuel st bs L ext Hok E8) as (Hfail & Hgrow);
      [unfold DSIZE; change (2 ^ 32) with 4294967296; lia | exact Hfuel |].
    destruct (Z_lt_le_dec (mem_max_addr st) (mem_brk st + ext)) as [Hno|Hyes].
    + rewrite (Hfail Hno). change (NULL =? NULL) with true. cbn iota.
      exists st, NULL. split; [reflexivity|]. left. split; reflexivity.
    + destruct (Hgrow Hyes)
        as (st1 & bs1 & L1 & p & s1 & Hex & Hpn & Hok1 & Hin1 & Hs1 & E1 & E2 & E3 & Hal1 & Hfr1 & Hsh).
      rewrite Hex. destruct (Z.eqb_spec p NULL) as [|_]; [contradiction|]. cbn iota.
      pose proof (hk_pre _ _ _ Hok1) as Hp1. pose proof (hp_core _ _ _ Hp1) as Hc1.
      assert (Iptr1 : In (ptr, s, 1) bs1) by (apply Hal1; exact Iptr).
      destruct (core_block st1 _ Hc1 _ _ _ Iptr1) as (_ & _ & _ & _ & _ & _ & _ & _ & _ & NB1 & _).
      rewrite NB1.
      replace (N + (s + sx - N + ext)) with (s + (sx + ext)) by lia.
      rewrite (wrap32_small (s + (sx + ext)))
        by (change (2 ^ 32) with 4294967296; unfold DSIZE in *; lia).
      assert (Hnx : exists e, In (ptr + s, e, 0) bs1).
      { destruct Hsh as [(Ebs1 & Ep & _)|(front & sv & Ebs & Ebs1 & _)].
        - destruct Hpost as [(_ & _ & Eb)|(post' & Epost & _)].
          + exists s1. rewrite Ebs1. apply in_or_app. right. left. congruence.
          + exists sx. rewrite Ebs1. apply in_or_app. left. unfold bs. rewrite Epost.
            apply in_or_app. right. right. left. reflexivity.
        - destruct Hpost as [(Epost & _)|(post' & Epost & _)].
          + exfalso. unfold bs in Ebs. rewrite Epost in Ebs. apply app_inj_tail in Ebs.
            destruct Ebs as (_ & E). discriminate.
          + assert (Inx : In (ptr + s, sx, 0) bs).
            { unfold bs. rewrite Epost. apply in_or_app. right. right. left. reflexivity. }
            rewrite Ebs in Inx. apply in_app_or in Inx. destruct Inx as [Inx|[E|[]]].
            * exists sx. rewrite Ebs1. apply in_or_app. left. assumption.
            * exists s1. rewrite Ebs1. apply in_or_app. right. left. congruence. }
      destruct Hnx as (e & Hnx). destruct (hk_free _ _ _ Hok1 _ _ Hnx) as (k & Hk).
      eexists _, ptr. split; [reflexivity|]. right. split; [reflexivity|]. split.
      * intros i Hi. cbn [set_mem mem].
        rewrite (grow_frame st1 bs1 L1 k ptr s (ptr + s) (s + (sx + ext)) Hp1 Iptr1 Hk);
          [ | change (2 ^ 32) with 4294967296; unfold DSIZE in *; lia
            | Z.div_mod_to_equations; lia | lia | exact Hi ].
        apply Hfr1; [|unfold HDRP, WSIZE, DSIZE in *; lia].
        intros n sz Hn. apply (allocated_not_free st bs ptr s i Hc Iptr); [|exact Hn].
        unfold HDRP, WSIZE, DSIZE in *. lia.
      * intros Hlast.
        assert (Hpost2 : (post = [] /\ sx = 0 /\ ptr + s = mem_brk st)
                         \/ post = [(ptr + s, sx, 0)]).
        { destruct Hpost as [H|(post' & Epost & _)]; [left; exact H|]. right.
          rewrite (Hlast (ptr + s) sx post' Epost) in Epost by lia. exact Epost. }
        assert (Ebs1 : bs1 = pre ++ (ptr, s, 1) :: [(ptr + s, sx + ext, 0)]).
        { destruct Hpost2 as [(Epost & Esx & Eb)|Epost].
          - destruct Hsh as [(Ebs1 & Ep & Es1)|(front & sv & Ebs & _)].
            + rewrite Ebs1. unfold bs. rewrite Epost, <- app_assoc. cbn [app].
              rewrite Ep, Es1, Esx, Eb. reflexivity.
            + exfalso. unfold bs in Ebs. rewrite Epost in Ebs. apply app_inj_tail in Ebs.
              destruct Ebs as (_ & E). discriminate.
          - destruct Hsh as [(Ebs1 & Ep & Es1)|(front & sv & Ebs & Ebs1 & Es1)].
            + exfalso. pose proof (hk_coalesced _ _ _ Hok1) as A. rewrite Ebs1 in A.
              unfold bs in A. rewrite Epost in A.
              replace ((pre ++ [(ptr, s, 1); (ptr + s, sx, 0)]) ++ [(p, s1, 0)])
                with ((pre ++ [(ptr, s, 1)]) ++ [(ptr + s, sx, 0); (p, s1, 0)]) in A
                by (rewrite <- !app_assoc; reflexivity).
              rewrite adjacent_free_end in A. discriminate.
            + unfold bs in Ebs. rewrite Epost in Ebs.
              change (pre ++ [(ptr, s, 1); (ptr + s, sx, 0)])
                with (pre ++ [(ptr, s, 1)] ++ [(ptr + s, sx, 0)]) in Ebs.
              rewrite app_assoc in Ebs. apply app_inj_tail in Ebs.
              destruct Ebs as (Ef & E). injection E as Ep Es.
              rewrite Ebs1, <- Ef, <- Ep, Es1, <- Es, <- app_assoc. reflexivity. }
        rewrite Ebs1 in Hok1.
        destruct (absorb_next st1 L1 pre ptr s (ptr + s) (sx + ext) [] Hok1) as (L' & Hok').
        exists (pre ++ [(ptr, s + (sx + ext), 1)]), L', (s + (sx + ext)).
        split; [exact Hok'|]. split; [apply in_elt|]. split; [lia|].
        pose proof (hc_tiles _ _ Hc) as Ht. unfold bs in Ht |- *.
        destruct Hpost2 as [(Epost & _)|Epost]; rewrite Epost in Ht |- *.
        -- apply (alloc_after_absorb (mem st) _ _ pre ptr s [] [] _ Ht). intros n sz a [].
        -- apply (alloc_after_absorb (mem st) _ _ pre ptr s [(ptr + s, sx, 0)] [] _ Ht).
           intros n sz a [E|[]]. congruence.
  - (* the free block behind [ptr] is large enough *)
    destruct Hpost as [(_ & Esx & _)|(post' & Epost & _)]; [lia|].
    cbn iota. rewrite NB.
    replace (N + (s + sx - N)) with (s + sx) by lia.
    rewrite (wrap32_small (s + sx))
      by (change (2 ^ 32) with 4294967296; unfold DSIZE in *; lia).
    assert (Inx : In (ptr + s, sx, 0) bs).
    { unfold bs. rewrite Epost. apply in_or_app. right. right. left. reflexivity. }
    destruct (hk_free _ _ _ Hok _ _ Inx) as (k & Hk).
    eexists _, ptr. split; [reflexivity|]. right. split; [reflexivity|]. split.
    + intros i Hi. cbn [set_mem mem].
      apply (grow_frame st bs L k ptr s (ptr + s) (s + sx) Hp Iptr Hk);
        [ change (2 ^ 32) with 4294967296; unfold DSIZE in *; lia
        | Z.div_mod_to_equations; lia | lia | exact Hi ].
    + intros _. pose proof (hc_tiles _ _ Hc) as Ht. unfold bs in Hok, Ht |- *.
      rewrite Epost in Hok, Ht |- *.
      destruct (absorb_next st L pre ptr s (ptr + s) sx post' Hok) as (L' & Hok').
      exists (pre ++ (ptr, s + sx, 1) :: post'), L', (s + sx).
      split; [exact Hok'|]. split; [apply in_elt|]. split; [lia|].
      apply (alloc_after_absorb (mem st) _ _ pre ptr s [(ptr + s, sx, 0)] post' _ Ht).
      intros n sz a [E|[]]. congruence.
Qed.

(** Writing into the payload of an allocated block keeps the heap well
    formed. *)
Lemma payload_write_ok st bs L q s m' :
  heap_ok st bs L -> In (q, s, 1) bs ->
  (forall i, i < q \/ q + s - DSIZE <= i -> m' i = mem st i) ->
  heap_ok (set_mem st m') bs L.
Proof.
  intros Hok Hin Hfr.
  pose proof (hk_pre _ _ _ Hok) as Hp. pose proof (hp_core _ _ _ Hp) as Hc.
  destruct (in_split _ _ Hin) as (pre & post & Ebs). subst bs.
  destruct (split_tiles st pre post q s 1 Hc) as (T1 & T3).
  destruct (core_block st _ Hc _ _ _ Hin) as (_ & _ & _ & _ & Bs & Bs8 & _).
  destruct (tiles_block _ _ _ _ _ _ _ (hc_tiles _ _ Hc) Hin) as (_ & _ & _ & _ & _ & Hh & Hf).
  constructor; [|apply (hk_free _ _ _ Hok)|apply (hk_coalesced _ _ _ Hok)].
  apply (pre_replace st L pre [(q, s, 1)] [(q, s, 1)] post q (q + s) m'); try assumption.
  - apply tiles_single; try assumption. tauto.
  - intros n s0 a [E|[]]. injection E as <- <- <-. intros Hl.
    destruct (hp_listed _ _ _ Hp _ Hl) as (s0 & Hs0).
    destruct (tiles_functional _ _ _ _ _ _ _ _ _ (hc_tiles _ _ Hc) Hin Hs0). discriminate.
  - intros i Hi. apply Hfr. unfold HDRP, WSIZE, DSIZE in *. lia.
  - apply tiles_single; try assumption; [tauto| |].
    + rewrite <- Hh. apply GET_ext. intros i Hi. apply Hfr. unfold HDRP, WSIZE in *. lia.
    + rewrite <- Hf. apply GET_ext. intros i Hi. apply Hfr. unfold DSIZE in *. lia.
Qed.

Lemma mm_realloc_moves fuel st bs L ptr s size :
  let new_size := adjust size + REALLOC_BUFFER in
  heap_ok st bs L -> In (ptr, s, 1) bs ->
  0 < size -> size + 143 < 2 ^ 31 -> mem_max_addr st - mem_start_brk st < 2 ^ 31 ->
  (length bs < fuel)%nat -> s < new_size ->
  (exists pre nx sx post, bs = pre ++ (ptr, s, 1) :: (nx, sx, 1) :: post) ->
  exists st1 q,
    mm_malloc fuel st (new_size - DSIZE) = Some (st1, q) /\
    (forall st' q', mm_realloc fuel st ptr size = Some (st', q') -> q' = q) /\
    (q <> NULL ->
     exists st' bs' L' s',
       mm_realloc fuel st ptr size = Some (st', q) /\
       heap_ok st' bs' L' /\ In (q, s', 1) bs' /\ new_size <= s' /\
       (forall n sz, In (n, sz, 1) bs' <->
                     (In (n, sz, 1) bs /\ n <> ptr) \/ (n, sz) = (q, s')) /\
       (forall i, 0 <= i < MIN (s - DSIZE) size ->
                  byte_at (mem st') (q + i) = byte_at (mem st) (ptr + i))).
Proof.
  intros N Hok Iptr Hpos Hsmall Hmax Hfuel Hlt (pre & nx & sx & post & Ebs).
  pose proof (hk_pre _ _ _ Hok) as Hp. pose proof (hp_core _ _ _ Hp) as Hc.
  destruct (core_block st _ Hc _ _ _ Iptr) as (B1 & B2 & Bp & _ & Bs & Bs8 & _ & SZ & _ & NB & _).
  destruct (hc_max _ _ Hc) as (M1 & _).
  destruct (core_first st _ Hc) as (F1 & _).
  change (2 ^ 31) with 2147483648 in *.
  assert (Hnw : size + 15 < 2 ^ 32) by (change (2 ^ 32) with 4294967296; lia).
  destruct (adjust_ok size Hpos Hnw) as (A8 & Ar & Age).
  pose proof (adjust_le size Hpos Hnw) as Ale.
  assert (HN : N mod 8 = 0 /\ 144 <= N < 2147483648).
  { unfold N. change REALLOC_BUFFER with 128. unfold DSIZE in *.
    change (2 ^ 32) with 4294967296 in *.
    split; [Z.div_mod_to_equations; lia | lia]. }
  destruct HN as (N8 & HN).
  assert (HsizeN : size + 136 <= N).
  { unfold N. change REALLOC_BUFFER with 128. unfold DSIZE in *. lia. }
  destruct (mm_malloc_ok fuel st bs L (N - DSIZE) Hok) as (st1 & q & Hm & Hres);
    [unfold DSIZE; lia | unfold DSIZE; change (2 ^ 32) with 4294967296; lia | exact Hfuel |].
  assert (Hunf : mm_realloc fuel st ptr size
                 = match mm_free fuel (set_mem st1 (memcpy (mem st1) q ptr size)) ptr with
                   | None => None
                   | Some st' => Some (st', q)
                   end).
  { destruct (next_block st pre ((nx, sx, 1) :: post) ptr s 1) as (_ & _ & _ & NA & _ & NX);
      [rewrite <- Ebs; exact Hc|].
    destruct (NX nx sx 1 post eq_refl) as (Enx & Esx & _).
    assert (Inx : In (nx, sx, 1) bs).
    { rewrite Ebs. apply in_or_app. right. right. left. reflexivity. }
    destruct (core_block st _ Hc _ _ _ Inx) as (_ & _ & _ & _ & Bsx & _).
    unfold mm_realloc. destruct (Z.eqb_spec size 0) as [|_]; [lia|].
    rewrite (wrap32_small (adjust size + REALLOC_BUFFER))
      by (fold N; change (2 ^ 32) with 4294967296; lia).
    fold N. cbv zeta. rewrite SZ, NB, NA, Esx.
    rewrite (to_int_id (s - N)) by (change (2 ^ 31) with 2147483648; unfold DSIZE in *; lia).
    destruct (Z.ltb_spec (s - N) 0) as [_|]; [|lia].
    change (first_alloc ((nx, sx, 1) :: post)) with 1. change (1 =? 0) with false.
    destruct (Z.eqb_spec sx 0) as [|_]; [unfold DSIZE in *; lia|]. cbn [orb].
    rewrite (wrap32_small (N - DSIZE)) by (unfold DSIZE; change (2 ^ 32) with 4294967296; lia).
    rewrite Hm. unfold MIN. destruct (Z.ltb_spec size N) as [_|]; [|lia]. reflexivity. }
  exists st1, q. split; [exact Hm|]. split.
  { intros st' q'. rewrite Hunf.
    destruct (mm_free fuel (set_mem st1 (memcpy (mem st1) q ptr size)) ptr); congruence. }
  intros Hq.
  destruct Hres as [(Eq & _)|(bs1 & L1 & s1 & Hok1 & Hin1 & Hs1 & E2 & E3 & Ebrk & Hal1 & Hnew & Hfr1 & _)];
    [contradiction|].
  pose proof (hp_core _ _ _ (hk_pre _ _ _ Hok1)) as Hc1.
  assert (Iptr1 : In (ptr, s, 1) bs1) by (apply Hal1; left; exact Iptr).
  assert (Hqp : q <> ptr) by (intros ->; apply Hnew; exists s; exact Iptr).
  set (m2 := memcpy (mem st1) q ptr size).
  assert (Hcopy : forall i, i < q \/ q + s1 - DSIZE <= i -> m2 i = mem st1 i).
  { intros i Hi. unfold m2, memcpy.
    destruct (Z.leb_spec q i); destruct (Z.ltb_spec i (q + size)); cbn [andb];
      try reflexivity. unfold DSIZE in *. lia. }
  pose proof (payload_write_ok st1 bs1 L1 q s1 m2 Hok1 Hin1 Hcopy) as Hok2.
  destruct (mm_free_ok fuel (set_mem st1 m2) bs1 L1 ptr s Hok2 Iptr1)
    as (st' & bs' & L' & Hfree & Hok' & _ & _ & _ & Hal' & Hfr' & _); [lia|].
  exists st', bs', L', s1. split; [|split; [exact Hok'|split; [|split; [|split]]]].
  - rewrite Hunf. fold m2. rewrite Hfree. reflexivity.
  - apply Hal'. split; [exact Hin1 | exact Hqp].
  - unfold DSIZE in *. lia.
  - intros n sz. rewrite Hal', Hal1. split.
    + intros ([H|H] & Hne); [left; split; assumption | right; exact H].
    + intros [(H & Hne)|E]; [split; [left; exact H | exact Hne]|].
      split; [right; exact E|]. injection E as -> ->. exact Hqp.
  - intros i Hi.
    assert (Hi' : 0 <= i < s - DSIZE /\ i < size).
    { unfold MIN in Hi. destruct (Z.ltb_spec (s - DSIZE) size); lia. }
    destruct (core_block st1 _ Hc1 _ _ _ Hin1) as (_ & _ & _ & _ & Bs1 & _).
    assert (E1 : mem st' (q + i) = m2 (q + i)).
    { apply Hfr'.
      - intros n sz Hn.
        apply (allocated_not_free (set_mem st1 m2) bs1 q s1 (q + i)
                 (hp_core _ _ _ (hk_pre _ _ _ Hok2)) Hin1); [|exact Hn].
        unfold HDRP, WSIZE, DSIZE in *. lia.
      - destruct (tiles_disjoint _ _ _ _ _ _ _ _ _ _ (hc_tiles _ _ Hc1) Hin1 Iptr1) as [E|Hd];
          [congruence|]. unfold HDRP, WSIZE, DSIZE in *. lia. }
    assert (E2' : m2 (q + i) = byte_at (mem st1) (ptr + i)).
    { unfold m2, memcpy.
      destruct (Z.leb_spec q (q + i)); destruct (Z.ltb_spec (q + i) (q + size)); try lia.
      cbn [andb]. f_equal. lia. }
    assert (E3' : mem st1 (ptr + i) = mem st (ptr + i)).
    { apply (Hfr1 ptr s (ptr + i) Iptr). unfold HDRP, WSIZE, DSIZE in *. lia. }
    unfold byte_at at 1. rewrite E1, E2'. unfold byte_at. rewrite E3'.
    apply Z.mod_mod. lia.
Qed.

(** [mm_realloc] on a heap of less than 2 GiB, for a request below
    [2^31 - 143] and a non-NULL result:
    the bytes of the old block, up to the smaller of the old payload and the
    new request, are found again behind the pointer returned.  The heap is
    well formed again, with the block returned allocated and large enough,
    unless the block behind [ptr] is free, too small and not the last block
    of the heap. *)
Theorem mm_realloc_ok fuel st bs L ptr s size st' q :
  heap_ok st bs L -> In (ptr, s, 1) bs ->
  0 < size -> size + 143 < 2 ^ 31 -> mem_max_addr st - mem_start_brk st < 2 ^ 31 ->
  (length bs < fuel)%nat ->
  mm_realloc fuel st ptr size = Some (st', q) -> q <> NULL ->
  (forall i, 0 <= i < MIN (s - DSIZE) size ->
             byte_at (mem st') (q + i) = byte_at (mem st) (ptr + i)) /\
  ((forall pre nx sx post, bs = pre ++ (ptr, s, 1) :: (nx, sx, 0) :: post ->
                           s + sx < adjust size + REALLOC_BUFFER -> post = []) ->
   exists bs' L' s',
     heap_ok st' bs' L' /\ In (q, s', 1) bs' /\ size + DSIZE <= s' /\
     forall n sz, In (n, sz, 1) bs' <->
                  (In (n, sz, 1) bs /\ n <> ptr) \/ (n, sz) = (q, s')).
Proof.
  intros Hok Iptr Hpos Hsmall Hmax Hfuel Hres Hq.
  pose proof (hp_core _ _ _ (hk_pre _ _ _ Hok)) as Hc.
  destruct (core_block st _ Hc _ _ _ Iptr) as (B1 & B2 & Bp & _ & Bs & _ & _ & SZ & _).
  destruct (hc_max _ _ Hc) as (M1 & _).
  destruct (core_first st _ Hc) as (F1 & _).
  assert (Hnw : size + 15 < 2 ^ 32)
    by (change (2 ^ 31) with 2147483648 in *; change (2 ^ 32) with 4294967296; lia).
  pose proof (adjust_le size Hpos Hnw) as Ale.
  destruct (adjust_ok size Hpos Hnw) as (_ & Ar & Age).
  assert (Hmin : forall i, 0 <= i < MIN (s - DSIZE) size -> 0 <= i < s - DSIZE).
  { intros i Hi. unfold MIN in Hi. destruct (Z.ltb_spec (s - DSIZE) size); lia. }
  set (N := adjust size + REALLOC_BUFFER).
  assert (HN : size + DSIZE <= N) by (unfold N; change REALLOC_BUFFER with 128; lia).
  destruct (Z_lt_le_dec s N) as [Hlt|Hge].
  - destruct (in_split _ _ Iptr) as (pre & post & Ebs).
    assert (Hcase : (first_alloc post = 0 \/ post = [])
                    \/ exists nx sx post', post = (nx, sx, 1) :: post').
    { destruct post as [|[[nx sx] ax] post']; [left; right; reflexivity|].
      assert (Inx : In (nx, sx, ax) bs).
      { rewrite Ebs. apply in_or_app. right. right. left. reflexivity. }
      destruct (core_block st _ Hc _ _ _ Inx) as (_ & _ & _ & _ & _ & _ & [->| ->] & _).
      - left. left. reflexivity.
      - right. exists nx, sx, post'. reflexivity. }
    destruct Hcase as [Hnext|(nx & sx & post' & Epost)].
    + subst bs.
      destruct (mm_realloc_in_place fuel st L pre ptr s post size Hok Hpos Hsmall Hmax)
        as (st2 & q2 & Hr2 & Hc2); [lia | exact Hlt | exact Hnext |].
      rewrite Hr2 in Hres. injection Hres as <- <-.
      destruct Hc2 as [(? & _)|(-> & Hpay & Hheap)]; [contradiction|]. split.
      * intros i Hi. apply Hmin in Hi. unfold byte_at. rewrite Hpay by lia. reflexivity.
      * intros Hlast.
        destruct Hheap as (bs' & L' & s' & Hok' & Hin' & Hs' & Hal').
        { intros nx sx post' Epost Hsx. apply (Hlast pre nx sx post'); [|exact Hsx].
          rewrite Epost. reflexivity. }
        exists bs', L', s'. split; [exact Hok'|]. split; [exact Hin'|].
        split; [fold N in Hs'; lia | exact Hal'].
    + destruct (mm_realloc_moves fuel st bs L ptr s size Hok Iptr Hpos Hsmall Hmax Hfuel Hlt)
        as (st1 & q1 & _ & Hsame & Hmove).
      { exists pre, nx, sx, post'. rewrite Ebs, Epost. reflexivity. }
      pose proof (Hsame _ _ Hres) as ->.
      destruct (Hmove Hq) as (st2 & bs2 & L2 & s2 & Hr2 & Hok2 & Hin2 & Hs2 & Hal2 & Hpay).
      rewrite Hr2 in Hres. injection Hres as <-. split; [exact Hpay|].
      intros _. exists bs2, L2, s2. split; [exact Hok2|]. split; [exact Hin2|].
      split; [fold N in Hs2; lia | exact Hal2].
  - assert (Hfit : mm_realloc fuel st ptr size = Some (st, ptr)).
    { unfold mm_realloc. destruct (Z.eqb_spec size 0) as [|_]; [lia|].
      rewrite (wrap32_small (adjust size + REALLOC_BUFFER))
        by (change REALLOC_BUFFER with 128; change (2 ^ 31) with 2147483648 in *;
            change (2 ^ 32) with 4294967296; unfold DSIZE in *; lia).
      fold N. cbv zeta. rewrite SZ.
      rewrite (to_int_id (s - N))
        by (unfold N; change REALLOC_BUFFER with 128; change (2 ^ 31) with 2147483648 in *;
            unfold DSIZE in *; lia).
      destruct (Z.ltb_spec (s - N) 0) as [|_]; [lia | reflexivity]. }
    rewrite Hfit in Hres. injection Hres as <- <-. split; [reflexivity|].
    intros _. exists bs, L, s. split; [exact Hok|]. split; [exact Iptr|]. split; [lia|].
    intros n sz. split.
    + intros Hn. destruct (Z.eq_dec n ptr) as [->|Hne]; [right | left; split; assumption].
      destruct (tiles_functional _ _ _ _ _ _ _ _ _ (hc_tiles _ _ Hc) Iptr Hn) as (-> & _).
      reflexivity.
    + intros [(Hn & _)|E]; [exact Hn | injection E as -> ->; exact Iptr].
Qed.

(** * A heap to start from *)

(** The well-formed heaps are the ones the program builds: [mm_init] on the
    arena of the examples succeeds and yields one. *)
Lemma arena_init_ok :
  exists st bs L, mm_init 100 arena = Some (st, 0) /\ heap_ok st bs L.
Proof.
  destruct (mm_init_ok 100 arena) as (st & r & Hinit & Hcase);
    [reflexivity | reflexivity | reflexivity | reflexivity | lia |].
  destruct Hcase as [(_ & Hno)|(-> & _ & _ & _ & bs & L & Hok & _)].
  - exfalso. revert Hno. vm_compute. discriminate.
  - exists st, bs, L. split; assumption.
Qed.

(** * A concrete well-formed heap *)

(** The heap [heap_one_free] is well formed, with the blocks
    [blocks_one_free] and the index [index_one_free]. *)
Lemma heap_one_free_ok :
  heap_ok (state_of heap_one_free) blocks_one_free index_one_free.
Proof.
  constructor; [constructor; [constructor|..]|..].
  - split; vm_compute; reflexivity.
  - split; vm_compute; [discriminate | reflexivity].
  - split; vm_compute; reflexivity.
  - cbn [tiles blocks_one_free].
    repeat match goal with
           | |- _ /\ _ => split
           | |- _ \/ _ => first [left; reflexivity | right; reflexivity]
           | |- _ <= _ => vm_compute; discriminate
           | |- _ = _ => vm_compute; reflexivity
           end.
  - vm_compute. reflexivity.
  - exact seg_ok_one_free.
  - intros n (k & Hk). unfold index_one_free in Hk.
    destruct (k =? 4); [|destruct (k =? 11)]; cbn [In] in Hk.
    + destruct Hk as [<-|[]]. exists 16. left. reflexivity.
    + destruct Hk as [<-|[]]. exists 4056. do 5 right. left. reflexivity.
    + contradiction.
  - intros n s Hn. cbn [In blocks_one_free] in Hn.
    destruct Hn as [E|[E|[E|[E|[E|[E|[]]]]]]]; try discriminate; injection E as <- <-.
    + exists 4. left. reflexivity.
    + exists 11. left. reflexivity.
  - reflexivity.
Qed.

(** The index of [heap_three_free]: bucket 4 holds three blocks. *)
Lemma seg_ok_three_free : seg_ok (state_of heap_three_free) index_three_free.
Proof.
  constructor.
  - intros k Hk. each_bucket k Hk; vm_compute; repeat split; reflexivity.
  - intros k n. unfold index_three_free.
    destruct (Z.eqb_spec k 4) as [->|];
      [intros [<-|[<-|[<-|[]]]]; vm_compute; repeat split; congruence|].
    destruct (Z.eqb_spec k 11) as [->|]; [intros [<-|[]]; vm_compute; repeat split; congruence|].
    intros [].
  - intros k. unfold index_three_free.
    destruct (k =? 4); [|destruct (k =? 11)]; repeat constructor;
      cbn [In]; intuition discriminate.
  - intros k1 k2 n1 n2. unfold index_three_free.
    destruct (k1 =? 4); [|destruct (k1 =? 11)];
      (destruct (k2 =? 4); [|destruct (k2 =? 11)]);
      cbn [In]; intros H1 H2 Hne;
      try (exfalso; intuition congruence);
      repeat (destruct H1 as [<-|H1]); try contradiction;
      repeat (destruct H2 as [<-|H2]); try contradiction;
      try congruence; vm_compute; intuition congruence.
Qed.

(** The heap inside [mm_free], before [coalesce]: the blocks are tagged and
    the index is well formed, and three free blocks lie side by side. *)
Lemma heap_freeing_pre :
  heap_pre (state_of heap_freeing) blocks_freeing index_freeing.
Proof.
  constructor; [constructor|constructor|].
  - split; vm_compute; reflexivity.
  - split; vm_compute; [discriminate | reflexivity].
  - split; vm_compute; reflexivity.
  - cbn [tiles blocks_freeing].
    repeat match goal with
           | |- _ /\ _ => split
           | |- _ \/ _ => first [left; reflexivity | right; reflexivity]
           | |- _ <= _ => vm_compute; discriminate
           | |- _ = _ => vm_compute; reflexivity
           end.
  - vm_compute. reflexivity.
  - intros k Hk. each_bucket k Hk; vm_compute; repeat split; reflexivity.
  - intros k n. unfold index_freeing.
    destruct (Z.eqb_spec k 4) as [->|];
      [intros [<-|[<-|[<-|[<-|[]]]]]; vm_compute; repeat split; congruence|].
    destruct (Z.eqb_spec k 11) as [->|]; [intros [<-|[]]; vm_compute; repeat split; congruence|].
    intros [].
  - intros k. unfold index_freeing.
    destruct (k =? 4); [|destruct (k =? 11)]; repeat constructor;
      cbn [In]; intuition discriminate.
  - intros k1 k2 n1 n2. unfold index_freeing.
    destruct (k1 =? 4); [|destruct (k1 =? 11)];
      (destruct (k2 =? 4); [|destruct (k2 =? 11)]);
      cbn [In]; intros H1 H2 Hne;
      try (exfalso; intuition congruence);
      repeat (destruct H1 as [<-|H1]); try contradiction;
      repeat (destruct H2 as [<-|H2]); try contradiction;
      try congruence; vm_compute; intuition congruence.
  - intros n (k & Hk). unfold index_freeing in Hk.
    destruct (k =? 4); [|destruct (k =? 11)]; cbn [In] in Hk.
    + destruct Hk as [<-|[<-|[<-|[<-|[]]]]];
        [exists 16 | exists 16 | exists 16 | exists 16]; cbn; tauto.
    + destruct Hk as [<-|[]]. exists 4000. cbn. tauto.
    + contradiction.
Qed.

(** A well-formed heap in an arena above [2^31]. *)
Lemma heap_high_ok : heap_ok (state_of heap_high) blocks_high index_high.
Proof.
  constructor; [constructor; [constructor|constructor|]|..].
  - split; vm_compute; reflexivity.
  - split; vm_compute; [discriminate | reflexivity].
  - split; vm_compute; reflexivity.
  - cbn [tiles blocks_high].
    repeat match goal with
           | |- _ /\ _ => split
           | |- _ \/ _ => first [left; reflexivity | right; reflexivity]
           | |- _ <= _ => vm_compute; discriminate
           | |- _ = _ => vm_compute; reflexivity
           end.
  - vm_compute. reflexivity.
  - intros k Hk. each_bucket k Hk; vm_compute; repeat split; reflexivity.
  - intros k n. unfold index_high.
    destruct (Z.eqb_spec k 5) as [->|]; [intros [<-|[]]; vm_compute; repeat split; congruence|].
    intros [].
  - intros k. unfold index_high. destruct (k =? 5); repeat constructor; intros [].
  - intros k1 k2 n1 n2. unfold index_high.
    destruct (k1 =? 5); destruct (k2 =? 5); cbn [In]; intros H1 H2 Hne;
      try (exfalso; intuition congruence).
  - intros n (k & Hk). unfold index_high in Hk. destruct (k =? 5); cbn [In] in Hk.
    + destruct Hk as [<-|[]]. exists 32. cbn. tauto.
    + contradiction.
  - intros n s Hn. cbn [In blocks_high] in Hn.
    destruct Hn as [E|[E|[E|[]]]]; try discriminate E. injection E as <- <-.
    exists 5. left. reflexivity.
  - reflexivity.
Qed.

(** * Resizing *)

(** C5.  [mm_realloc(ptr, 0)] returns [NULL] and the allocator state it
    leaves is the state it found: the block at [ptr] keeps its header, no
    bucket head and no heap byte changes. *)
Theorem mm_realloc_zero (fuel : nat) (st : heap) (ptr : Z) :
  mm_realloc fuel st ptr 0 = Some (st, NULL).
Proof. reflexivity. Qed.





(** * Requests whose adjusted size wraps around *)

(** C1, failing input.  After [mm_init()], [mm_malloc(4294967295)] computes
    [size + DSIZE] in 32 bits, which wraps to 7, so that [asize = 8].  The
    call returns the non-NULL payload 1016 of a block of 8 bytes: header and
    footer only, no payload byte at all, while 4294967295 were asked for. *)
Theorem mm_malloc_wraps_huge_request :
  adjust 4294967295 = 8 /\
  match mm_malloc 100 (state_of heap_init) 4294967295 with
  | Some (st', p) =>
      p = 1016 /\ p <> NULL /\
      GET (mem st') (HDRP p) = PACK 8 1 /\
      GET_SIZE (mem st') (HDRP p) - DSIZE = 0 /\
      GET_SIZE (mem st') (HDRP p) - DSIZE < 4294967295
  | None => False
  end.
Proof. vm_compute. repeat split; congruence. Qed.

(** C7, failing input.  The caller holds the 8-byte allocation [p = 1152],
    filled with the bytes [0xAB], and two more allocations behind it; a free
    block of 136 bytes ends right in front of [p].  [mm_realloc(p,
    4294967295)] wraps [new_size] to 136, takes that free block ([q = 1016],
    128 payload bytes) and copies [MIN(size, new_size) = 136] bytes into it:
    eight more than the payload holds, over the footer of [q] and the header
    of [p].  [mm_free(p)] then follows those boundary tags into the copy and
    unlinks a "free block" there, which stores 0 over the first payload word
    of [q].  The call returns [q], but the first four payload bytes of [p]
    are lost. *)
Theorem mm_realloc_wraps_and_loses_payload :
  let st := state_of heap_before_move in
  GET (mem st) (HDRP 1152) = PACK 16 1 /\
  GET (mem st) 1152 = 2880154539 /\
  GET (mem st) (1152 + 4) = 2880154539 /\
  wrap32 (adjust 4294967295 + REALLOC_BUFFER) = 136 /\
  match mm_realloc 100 st 1152 4294967295 with
  | Some (st', q) =>
      q = 1016 /\ q <> NULL /\
      GET (mem st') q = 0 /\
      byte_at (mem st') q <> byte_at (mem st) 1152
  | None => False
  end.
Proof. vm_compute. repeat split; congruence. Qed.

(** * Growing a block in place *)

(** C2, failing input.  Before the call the heap reads: [a] (1016, 16 bytes,
    allocated), a free block of 64 bytes, [b] (4080 bytes, allocated), a free
    block of 48 bytes, [w] (allocated), a free block, the epilogue; no two
    neighbours are free.  [mm_realloc(a, 8)] finds the next block free but
    too small, extends the heap by [CHUNKSIZE] at its far end, and sizes [a]
    as if the extension were adjacent: 4176 bytes, across the live block [b].
    The block after [a] is now found at 5192, inside the free block of 48
    bytes, where two stale headers of 16 free bytes each follow one another. *)
Theorem mm_realloc_grows_across_live_block :
  let st := state_of heap_before_grow in
  heap_blocks 50 (mem st) (first_block st)
  = [(1016, 16, 1); (1032, 64, 0); (1096, 4080, 1); (5176, 48, 0);
     (5224, 16, 1); (5240, 4032, 0)] /\
  adjacent_free (heap_blocks 50 (mem st) (first_block st)) = false /\
  match mm_realloc 100 st 1016 8 with
  | Some (st', q) =>
      q = 1016 /\
      heap_blocks 50 (mem st') (first_block st')
      = [(1016, 4176, 1); (5192, 16, 0); (5208, 16, 0); (5224, 16, 1);
         (5240, 8128, 0)] /\
      adjacent_free (heap_blocks 50 (mem st') (first_block st')) = true /\
      GET (mem st') (HDRP 1096) = PACK 4080 1
  | None => False
  end.
Proof. vm_compute. repeat split; congruence. Qed.

(** * The order inside a bucket *)

(** C9, failing input.  Bucket 4 holds one free block of 16 bytes, so it is
    in ascending order.  Inserting the block of 24 bytes at 1080 makes
    [insert_node] compare the shifted size (1) with the size of the head,
    stop at once and link the new block in front: walked along [PRED], the
    bucket reads 24, 16.  [mm_free] of that block leaves the same list. *)
Theorem insert_node_breaks_ascending_order :
  let st := state_of heap_one_free in
  seg_index 16 = 4 /\ seg_index 24 = 4 /\ seg_shifted 24 = 1 /\
  GET_SIZE (mem st) (HDRP 1080) = 24 /\
  bucket_sizes 50 (mem st) (segregated_free_lists st 4) = [16] /\
  ascending (bucket_sizes 50 (mem st) (segregated_free_lists st 4)) = true /\
  match insert_node 100 st 1080 24 with
  | Some st' =>
      segregated_free_lists st' 4 = 1080 /\
      bucket_sizes 50 (mem st') (segregated_free_lists st' 4) = [24; 16] /\
      ascending (bucket_sizes 50 (mem st') (segregated_free_lists st' 4)) = false
  | None => False
  end /\
  match mm_free 100 st 1080 with
  | Some st' =>
      bucket_sizes 50 (mem st') (segregated_free_lists st' 4) = [24; 16] /\
      ascending (bucket_sizes 50 (mem st') (segregated_free_lists st' 4)) = false
  | None => False
  end.
Proof. vm_compute. repeat split; congruence. Qed.

(** * Boundary tags, block navigation and alignment *)

(** X1.  A boundary tag written with [PUT_NOTAG(p, PACK(size, alloc))] is
    read back by [GET_SIZE(p)] and [GET_ALLOC(p)], for every size that is a
    multiple of 8 below 2^32 and both allocation bits; the write changes the
    four bytes at [p] only. *)
Theorem boundary_tag_round_trip (m : memory) (p s a : Z) :
  0 <= s < 2 ^ 32 -> s mod 8 = 0 -> a = 0 \/ a = 1 ->
  GET_SIZE (PUT_NOTAG m p (PACK s a)) p = s /\
  GET_ALLOC (PUT_NOTAG m p (PACK s a)) p = a /\
  forall i, i < p \/ p + 4 <= i -> PUT_NOTAG m p (PACK s a) i = m i.
Proof.
  intros Hs H8 Ha.
  destruct (tag_read m p s a Hs H8 Ha) as (_ & Hsize & Halloc).
  split; [exact Hsize|]. split; [exact Halloc|].
  intros i Hi. apply PUT_NOTAG_outside. exact Hi.
Qed.

Lemma boundary_tag_round_trip_witness :
  GET_SIZE (PUT_NOTAG (fun _ => 0) 1012 (PACK 24 1)) 1012 = 24 /\
  GET_ALLOC (PUT_NOTAG (fun _ => 0) 1012 (PACK 24 1)) 1012 = 1 /\
  forall i, i < 1012 \/ 1012 + 4 <= i -> PUT_NOTAG (fun _ => 0) 1012 (PACK 24 1) i = 0.
Proof.
  apply (boundary_tag_round_trip (fun _ => 0) 1012 24 1).
  - change (2 ^ 32) with 4294967296. lia.
  - reflexivity.
  - right. reflexivity.
Defined.

(** X2.  Header and footer as the functions write them,
    [PUT_NOTAG(HDRP(ptr), PACK(s, a)); PUT_NOTAG(FTRP(ptr), PACK(s, a))],
    make the navigation macros agree: [FTRP(ptr)] is the last word of the
    block, [NEXT_BLKP(ptr)] lies [s] bytes on, and [PREV_BLKP] leads from
    there back to [ptr]. *)
Theorem block_navigation_round_trip (m : memory) (ptr s a : Z) :
  0 <= s < 2 ^ 32 -> s mod 8 = 0 -> a = 0 \/ a = 1 ->
  let m1 := PUT_NOTAG m (HDRP ptr) (PACK s a) in
  let m2 := PUT_NOTAG m1 (FTRP m1 ptr) (PACK s a) in
  FTRP m2 ptr = ptr + s - DSIZE /\
  NEXT_BLKP m2 ptr = ptr + s /\
  PREV_BLKP m2 (NEXT_BLKP m2 ptr) = ptr /\
  GET_SIZE m2 (FTRP m2 ptr) = GET_SIZE m2 (HDRP ptr) /\
  GET_ALLOC m2 (FTRP m2 ptr) = GET_ALLOC m2 (HDRP ptr).
Proof.
  intros Hs H8 Ha m1 m2.
  destruct (retag_block m ptr s a Hs H8 Ha) as (_ & F2 & G1 & G2 & S2 & A2 & _).
  fold m1 in F2, G1, G2, S2, A2. fold m2 in F2, G1, G2, S2, A2.
  destruct (GET_PACK_size m2 (ptr + s - DSIZE) s a Hs H8 Ha G2) as (S3 & A3).
  assert (NB : NEXT_BLKP m2 ptr = ptr + s).
  { unfold NEXT_BLKP. fold (HDRP ptr). rewrite S2. reflexivity. }
  split; [exact F2|]. split; [exact NB|]. split; [|split].
  - rewrite NB. unfold PREV_BLKP. rewrite S3. lia.
  - rewrite F2, S3, S2. reflexivity.
  - rewrite F2, A3, A2. reflexivity.
Qed.

Lemma block_navigation_round_trip_witness :
  let m1 := PUT_NOTAG (fun _ => 0) (HDRP 1016) (PACK 64 0) in
  let m2 := PUT_NOTAG m1 (FTRP m1 1016) (PACK 64 0) in
  FTRP m2 1016 = 1016 + 64 - DSIZE /\
  NEXT_BLKP m2 1016 = 1016 + 64 /\
  PREV_BLKP m2 (NEXT_BLKP m2 1016) = 1016 /\
  GET_SIZE m2 (FTRP m2 1016) = GET_SIZE m2 (HDRP 1016) /\
  GET_ALLOC m2 (FTRP m2 1016) = GET_ALLOC m2 (HDRP 1016).
Proof.
  apply (block_navigation_round_trip (fun _ => 0) 1016 64 0).
  - change (2 ^ 32) with 4294967296. lia.
  - reflexivity.
  - left. reflexivity.
Defined.

(** X3.  [ALIGN(x)] on a 32-bit [size_t]: the least multiple of 8 that is
    not below [x], as long as [x + 7] does not wrap; the seven largest
    values wrap around to 0. *)
Theorem ALIGN_rounds_up_or_wraps (x : Z) :
  0 <= x < 2 ^ 32 ->
  (x + 7 < 2 ^ 32 -> ALIGN x mod 8 = 0 /\ x <= ALIGN x < x + 8) /\
  (2 ^ 32 <= x + 7 -> ALIGN x = 0).
Proof.
  intros Hx. split.
  - intros Hlt. destruct (ALIGN_up x) as (H1 & H2 & H3); [lia | exact Hlt |].
    split; [exact H3 | lia].
  - intros Hwrap. unfold ALIGN, ALIGNMENT, wrap32. rewrite land_lnot7.
    change (2 ^ 32) with 4294967296 in *. Z.div_mod_to_equations. lia.
Qed.

Lemma ALIGN_rounds_up_or_wraps_witness :
  (4294967290 + 7 < 2 ^ 32 ->
   ALIGN 4294967290 mod 8 = 0 /\ 4294967290 <= ALIGN 4294967290 < 4294967290 + 8) /\
  (2 ^ 32 <= 4294967290 + 7 -> ALIGN 4294967290 = 0).
Proof.
  apply (ALIGN_rounds_up_or_wraps 4294967290).
  change (2 ^ 32) with 4294967296. lia.
Defined.

(** X4.  The block size [mm_malloc] and [mm_realloc] compute for a request
    of [size] bytes ([2 * DSIZE] up to 8 bytes, [ALIGN(size + DSIZE)] above):
    the least multiple of 8 that holds the payload and the two tags, and
    never less than the 16 bytes a free block needs for its links. *)
Theorem adjust_least_block_size (size : Z) :
  0 < size -> size + 15 < 2 ^ 32 ->
  adjust size mod 8 = 0 /\ 2 * DSIZE <= adjust size /\
  size + DSIZE <= adjust size < size + 2 * DSIZE.
Proof.
  intros Hpos Hnw.
  destruct (adjust_ok size Hpos Hnw) as (A8 & Ar & Age).
  pose proof (adjust_le size Hpos Hnw) as Ale.
  unfold DSIZE in *. repeat split; try assumption; lia.
Qed.

Lemma adjust_least_block_size_witness :
  adjust 100 mod 8 = 0 /\ 2 * DSIZE <= adjust 100 /\
  100 + DSIZE <= adjust 100 < 100 + 2 * DSIZE.
Proof.
  apply (adjust_least_block_size 100).
  - lia.
  - change (2 ^ 32) with 4294967296. lia.
Defined.

(** X24.  The same computation on a 32-bit [size_t] for the fifteen largest
    requests: [size + DSIZE], or the rounding of [ALIGN], wraps around, and
    the adjusted size is 0 or 8, less than the smallest block. *)
Theorem adjust_wraps_for_huge_requests (size : Z) :
  2 ^ 32 - 15 <= size < 2 ^ 32 ->
  (adjust size = 0 \/ adjust size = 8) /\ adjust size < 2 * DSIZE.
Proof.
  intros Hsize. change (2 ^ 32) with 4294967296 in Hsize.
  assert (H : adjust size = 0 \/ adjust size = 8).
  { unfold adjust, DSIZE. destruct (Z.leb_spec size 8); [lia|].
    unfold ALIGN, ALIGNMENT, wrap32. rewrite land_lnot7.
    change (2 ^ 32) with 4294967296. Z.div_mod_to_equations. lia. }
  split; [exact H|]. unfold DSIZE. lia.
Qed.

Lemma adjust_wraps_for_huge_requests_witness :
  (adjust 4294967285 = 0 \/ adjust 4294967285 = 8) /\ adjust 4294967285 < 2 * DSIZE.
Proof.
  apply (adjust_wraps_for_huge_requests 4294967285).
  change (2 ^ 32) with 4294967296. lia.
Defined.

(** ** The reallocation tag *)

Lemma land_2 x : Z.land x 2 = x mod 4 - x mod 2.
Proof.
  assert (H3 : Z.land x 3 = Z.lor (Z.land x 1) (Z.land x 2)).
  { rewrite <- Z.land_lor_distr_r. reflexivity. }
  assert (H0 : Z.land (Z.land x 1) (Z.land x 2) = 0).
  { apply Z.bits_inj'. intros n Hn. rewrite !Z.land_spec, Z.bits_0.
    destruct (Z.eq_dec n 0) as [->|Hne].
    - change (Z.testbit 2 0) with false. rewrite !andb_false_r. reflexivity.
    - rewrite (Z.bits_above_log2 1 n) by (cbn; lia).
      rewrite andb_false_r. reflexivity. }
  pose proof (Z.sub_2lor_lxor (Z.land x 1) (Z.land x 2)) as Hadd.
  rewrite (Z.lxor_lor _ _ H0) in Hadd. rewrite <- H3 in Hadd.
  change 3 with (Z.ones 2) in Hadd. rewrite Z.land_ones in Hadd by lia.
  rewrite land_1 in Hadd. change (2 ^ 2) with 4 in Hadd. lia.
Qed.

Lemma lor_add v t : Z.lor v t = v + t - Z.land v t.
Proof.
  pose proof (Z.sub_2lor_lxor v t). pose proof (Z.sub_lor_land v t). lia.
Qed.

(** X5.  [PUT(p, PACK(size, alloc))] stores size and allocation bit like
    [PUT_NOTAG] and keeps the reallocation tag (bit 1) the word at [p] had. *)
Theorem PUT_keeps_reallocation_tag (m : memory) (p s a : Z) :
  0 <= s < 2 ^ 32 -> s mod 8 = 0 -> a = 0 \/ a = 1 ->
  GET_SIZE (PUT m p (PACK s a)) p = s /\
  GET_ALLOC (PUT m p (PACK s a)) p = a /\
  GET_TAG (PUT m p (PACK s a)) p = GET_TAG m p.
Proof.
  intros Hs H8 Ha. unfold PUT, GET_TAG, GET_ALLOC. rewrite !GET_SIZE_eq.
  rewrite GET_PUT_NOTAG_same. pose proof (GET_range m p) as Hg.
  rewrite (PACK_tag s a H8 Ha), lor_add.
  rewrite ?land_2, ?land_1.
  change (2 ^ 32) with 4294967296 in *.
  assert (Hw : exists t, (t = 0 \/ t = 2) /\ GET m p mod 4 - GET m p mod 2 = t
                         /\ Z.land (s + a) t = 0).
  { assert (Ht : GET m p mod 4 - GET m p mod 2 = 0 \/ GET m p mod 4 - GET m p mod 2 = 2)
      by (Z.div_mod_to_equations; lia).
    destruct Ht as [E|E]; rewrite E.
    - exists 0. split; [left; reflexivity|]. split; [reflexivity | apply Z.land_0_r].
    - exists 2. split; [right; reflexivity|]. split; [reflexivity|].
      rewrite land_2. destruct Ha as [-> | ->]; Z.div_mod_to_equations; lia. }
  destruct Hw as (t & Ht & Et & E0). rewrite Et, E0.
  rewrite wrap32_small by (change (2 ^ 32) with 4294967296;
                           destruct Ht as [-> | ->], Ha as [-> | ->]; Z.div_mod_to_equations; lia).
  destruct Ht as [-> | ->], Ha as [-> | ->]; repeat split; Z.div_mod_to_equations; lia.
Qed.

Lemma PUT_keeps_reallocation_tag_witness :
  let m := PUT_NOTAG (fun _ => 0) 1012 (Z.lor (PACK 64 0) 2) in
  GET_SIZE (PUT m 1012 (PACK 24 1)) 1012 = 24 /\
  GET_ALLOC (PUT m 1012 (PACK 24 1)) 1012 = 1 /\
  GET_TAG (PUT m 1012 (PACK 24 1)) 1012 = GET_TAG m 1012.
Proof.
  apply (PUT_keeps_reallocation_tag (PUT_NOTAG (fun _ => 0) 1012 (Z.lor (PACK 64 0) 2)) 1012 24 1).
  - change (2 ^ 32) with 4294967296. lia.
  - reflexivity.
  - right. reflexivity.
Defined.

(** X6.  [SET_RATAG(p)] sets and [REMOVE_RATAG(p)] clears the reallocation
    tag of the word at [p]; neither changes the size or the allocation bit
    read from it. *)
Theorem RATAG_changes_bit_1_only (m : memory) (p : Z) :
  (GET_TAG (SET_RATAG m p) p = 2 /\
   GET_SIZE (SET_RATAG m p) p = GET_SIZE m p /\
   GET_ALLOC (SET_RATAG m p) p = GET_ALLOC m p) /\
  (GET_TAG (REMOVE_RATAG m p) p = 0 /\
   GET_SIZE (REMOVE_RATAG m p) p = GET_SIZE m p /\
   GET_ALLOC (REMOVE_RATAG m p) p = GET_ALLOC m p).
Proof.
  pose proof (GET_range m p) as Hg. change (2 ^ 32) with 4294967296 in Hg.
  unfold SET_RATAG, REMOVE_RATAG, GET_TAG, GET_ALLOC. rewrite !GET_SIZE_eq.
  rewrite !GET_PUT_NOTAG_same, lor_add, <- Z.sub_land_same_l.
  rewrite ?land_2, ?land_1.
  assert (Ht : GET m p mod 4 - GET m p mod 2 = 0 \/ GET m p mod 4 - GET m p mod 2 = 2)
    by (Z.div_mod_to_equations; lia).
  rewrite !wrap32_small
    by (change (2 ^ 32) with 4294967296; Z.div_mod_to_equations; lia).
  repeat split; Z.div_mod_to_equations; lia.
Qed.

(** * The segregated index, bucket by bucket *)

(** X7.  The bucket index never decreases with the size: a larger block is
    never filed in a lower bucket than a smaller one. *)
Theorem seg_index_monotone (s t : Z) :
  1 <= s -> s <= t -> seg_index s <= seg_index t.
Proof.
  intros Hs Hst. rewrite !seg_index_log2 by lia.
  pose proof (Z.log2_le_mono s t Hst). lia.
Qed.

Lemma seg_index_monotone_witness : seg_index 24 <= seg_index 4096.
Proof. apply (seg_index_monotone 24 4096); lia. Defined.

(** X8.  [insert_node(ptr, size)] on a well-formed index, for a block that
    overlaps no listed block: the search loop stops at the head of the bucket
    whatever the sizes are, so the block becomes the new head, its [PRED]
    link is the old head and its [SUCC] link is [NULL]; the other buckets
    keep their heads and the index is well formed again. *)
Theorem insert_node_links_at_head (fuel : nat) (st : heap) (L : Z -> list Z) (ptr size : Z) :
  seg_ok st L -> (0 < fuel)%nat -> 0 < ptr < 2 ^ 32 ->
  GET_SIZE (mem st) (HDRP ptr) = size -> 2 * DSIZE <= size ->
  (forall k n, In n (L k) -> disjoint_blocks (mem st) ptr n) ->
  exists st',
    insert_node fuel st ptr size = Some st' /\
    segregated_free_lists st' (seg_index size) = ptr /\
    (forall k, k <> seg_index size ->
               segregated_free_lists st' k = segregated_free_lists st k) /\
    PRED (mem st') ptr = segregated_free_lists st (seg_index size) /\
    SUCC (mem st') ptr = NULL /\
    seg_ok st' (upd_bucket L (seg_index size) (ptr :: L (seg_index size))).
Proof.
  intros Hok Hfuel Hptr Hsize Hmin Hfresh.
  pose proof (GET_SIZE_range (mem st) (HDRP ptr)) as Hr. rewrite Hsize in Hr.
  pose proof (seg_index_range size ltac:(lia)) as Hk.
  destruct (insert_node_ok fuel st L ptr size Hok Hfuel Hptr Hsize Hmin Hfresh)
    as (st1 & Hins & Hok1 & _).
  destruct (insert_node_effect fuel st L ptr size Hok Hfuel Hr Hptr)
    as (st2 & Hins' & Hheads & Hpred & Hsucc & _).
  { intros n Hn. specialize (Hfresh _ _ Hn).
    destruct (ok_node _ _ Hok _ _ Hn) as (_ & _ & Hs & _).
    unfold disjoint_blocks in Hfresh. rewrite Hsize in Hfresh. unfold DSIZE in *. lia. }
  rewrite Hins in Hins'. injection Hins' as <-.
  exists st1. split; [exact Hins|]. split; [|split; [|split; [|split; [exact Hsucc | exact Hok1]]]].
  - rewrite Hheads, Z.eqb_refl. reflexivity.
  - intros k Hne. rewrite Hheads. destruct (Z.eqb_spec k (seg_index size)); [contradiction | reflexivity].
  - rewrite Hpred. symmetry. apply (seg_ok_head st L Hok). unfold LISTLIMIT. lia.
Qed.

Lemma insert_node_links_at_head_witness :
  exists st',
    insert_node 100 (state_of heap_one_free) 1080 24 = Some st' /\
    segregated_free_lists st' (seg_index 24) = 1080 /\
    (forall k, k <> seg_index 24 ->
               segregated_free_lists st' k = segregated_free_lists (state_of heap_one_free) k) /\
    PRED (mem st') 1080 = segregated_free_lists (state_of heap_one_free) (seg_index 24) /\
    SUCC (mem st') 1080 = NULL /\
    seg_ok st' (upd_bucket index_one_free (seg_index 24) (1080 :: index_one_free (seg_index 24))).
Proof.
  apply (insert_node_links_at_head 100 (state_of heap_one_free) index_one_free 1080 24
           seg_ok_one_free).
  - lia.
  - change (2 ^ 32) with 4294967296. lia.
  - vm_compute. reflexivity.
  - unfold DSIZE. lia.
  - intros k n. unfold index_one_free.
    destruct (k =? 4); [|destruct (k =? 11)]; cbn [In]; intros H;
      try contradiction; destruct H as [<-|[]]; vm_compute; intuition congruence.
Defined.

(** X9.  [delete_node(ptr)] on a well-formed index that lists [ptr] in
    bucket [k]: the bucket loses exactly that node and keeps the order of
    the others, every other bucket keeps its head, and no byte is written
    outside the link words of the other listed blocks; in particular the
    block unlinked and all tags stay as they are. *)
Theorem delete_node_unlinks (st : heap) (L : Z -> list Z) (k : Z) (l1 : list Z) (ptr : Z)
  (l2 : list Z) :
  seg_ok st L -> L k = l1 ++ ptr :: l2 ->
  seg_ok (delete_node st ptr) (upd_bucket L k (l1 ++ l2)) /\
  segregated_free_lists (delete_node st ptr) k = hd NULL (l1 ++ l2) /\
  (forall k', k' <> k ->
     segregated_free_lists (delete_node st ptr) k' = segregated_free_lists st k') /\
  (forall a, (forall k' n, In n (L k') -> n <> ptr -> a < n \/ n + 8 <= a) ->
             mem (delete_node st ptr) a = mem st a) /\
  (forall k' n, In n (L k') ->
     GET (mem (delete_node st ptr)) (HDRP n) = GET (mem st) (HDRP n)).
Proof.
  intros Hok HL.
  destruct (delete_node_ok st L k l1 ptr l2 Hok HL) as (Hok' & Hfr & Hhdr).
  destruct (delete_node_effect st L k l1 ptr l2 Hok HL) as (Hheads & _).
  assert (Hk : 0 <= k < LISTLIMIT).
  { destruct (ok_node _ _ Hok k ptr) as (Hk & _); [|exact Hk].
    rewrite HL. apply in_elt. }
  split; [exact Hok'|]. split; [|split; [|split; [exact Hfr | exact Hhdr]]].
  - rewrite (seg_ok_head _ _ Hok' k Hk). rewrite upd_bucket_same. reflexivity.
  - intros k' Hne. rewrite Hheads. destruct (Z.eqb_spec k' k); [contradiction | reflexivity].
Qed.

Lemma delete_node_unlinks_witness :
  index_three_free 4 = [1144] ++ 1112 :: [1080] /\
  seg_ok (delete_node (state_of heap_three_free) 1112)
         (upd_bucket index_three_free 4 ([1144] ++ [1080])) /\
  segregated_free_lists (delete_node (state_of heap_three_free) 1112) 4
  = hd NULL ([1144] ++ [1080]) /\
  PRED (mem (delete_node (state_of heap_three_free) 1112)) 1144 = 1080 /\
  SUCC (mem (delete_node (state_of heap_three_free) 1112)) 1080 = 1144 /\
  (forall k', k' <> 4 ->
     segregated_free_lists (delete_node (state_of heap_three_free) 1112) k'
     = segregated_free_lists (state_of heap_three_free) k') /\
  (forall a, (forall k' n, In n (index_three_free k') -> n <> 1112 -> a < n \/ n + 8 <= a) ->
             mem (delete_node (state_of heap_three_free) 1112) a
             = mem (state_of heap_three_free) a) /\
  (forall k' n, In n (index_three_free k') ->
     GET (mem (delete_node (state_of heap_three_free) 1112)) (HDRP n)
     = GET (mem (state_of heap_three_free)) (HDRP n)).
Proof.
  split; [reflexivity|].
  destruct (delete_node_unlinks (state_of heap_three_free) index_three_free 4 [1144] 1112
              [1080] seg_ok_three_free eq_refl) as (Hok & Hhead & Hothers & Hframe & Hhdr).
  split; [exact Hok|]. split; [exact Hhead|].
  split; [vm_compute; reflexivity|]. split; [vm_compute; reflexivity|].
  split; [exact Hothers|]. split; [exact Hframe | exact Hhdr].
Defined.

(** X10.  The search of [mm_malloc] for a free block, on a well-formed
    index: it ends at a listed block of at least [asize] bytes, and it ends
    at [NULL] only when every listed block is smaller than [asize].  The
    buckets it skips hold no block that would fit. *)
Theorem find_fit_finds_any_fit (fuel : nat) (st : heap) (L : Z -> list Z) (asize : Z) :
  seg_ok st L -> (forall k, (length (L k) < fuel)%nat) -> 1 <= asize ->
  exists r,
    find_fit 21 fuel st asize 0 asize NULL = Some r /\
    ((r = NULL /\ forall n, listed L n -> GET_SIZE (mem st) (HDRP n) < asize)
     \/ (r <> NULL /\ listed L r /\ asize <= GET_SIZE (mem st) (HDRP r))).
Proof.
  intros Hok Hfuel Hasize.
  destruct (find_fit_ok st L asize fuel Hok Hfuel Hasize 21%nat 0 asize)
    as (r & Hr & Hcase).
  - lia.
  - rewrite Z.shiftr_0_r. reflexivity.
  - unfold LISTLIMIT. lia.
  - exists r. split; [exact Hr|]. destruct Hcase as [(E & Hall)|(Hl & Hsz)].
    + left. split; [exact E|]. intros n (k & Hk).
      destruct (ok_node _ _ Hok _ _ Hk) as (Hk0 & _). apply (Hall k n); [lia | exact Hk].
    + right. split; [|split; assumption].
      destruct Hl as (k & Hk). destruct (ok_node _ _ Hok _ _ Hk) as (_ & Hpos & _).
      unfold NULL. lia.
Qed.

Lemma find_fit_finds_any_fit_witness :
  exists r,
    find_fit 21 100 (state_of heap_one_free) 24 0 24 NULL = Some r /\
    ((r = NULL /\ forall n, listed index_one_free n ->
                            GET_SIZE (mem (state_of heap_one_free)) (HDRP n) < 24)
     \/ (r <> NULL /\ listed index_one_free r /\
         24 <= GET_SIZE (mem (state_of heap_one_free)) (HDRP r))).
Proof.
  apply (find_fit_finds_any_fit 100 (state_of heap_one_free) index_one_free 24 seg_ok_one_free).
  - intros k. unfold index_one_free.
    destruct (k =? 4); [|destruct (k =? 11)]; cbn [length]; lia.
  - lia.
Defined.

(** * The heap under [coalesce], [place] and [extend_heap] *)

(** X11.  [coalesce(ptr)] on a listed free block, in a heap that is well
    formed except that [ptr] may have free neighbours: the block returned is
    [ptr] merged with the free block before it and the free block behind it,
    whichever exist; the heap is well formed afterwards, the break stays and
    no byte outside the free blocks changes. *)
Theorem coalesce_merges_free_neighbours (fuel : nat) (st : heap) (L : Z -> list Z)
  (pre : list (Z * Z * Z)) (ptr s : Z) (post : list (Z * Z * Z)) :
  heap_pre st (pre ++ (ptr, s, 0) :: post) L ->
  (forall n sz, In (n, sz, 0) (pre ++ (ptr, s, 0) :: post) -> listed L n) ->
  adjacent_free pre = false -> adjacent_free post = false -> (0 < fuel)%nat ->
  exists st' L' front back ptr' s',
    coalesce fuel st ptr = Some (st', ptr') /\
    heap_ok st' (front ++ (ptr', s', 0) :: back) L' /\
    (front = pre /\ ptr' = ptr \/ exists sv, pre = front ++ [(ptr', sv, 0)]) /\
    (back = post /\ ptr' + s' = ptr + s \/
     exists sx, post = (ptr + s, sx, 0) :: back /\ ptr' + s' = ptr + s + sx) /\
    mem_brk st' = mem_brk st /\
    (forall i, (forall n sz, In (n, sz, 0) (pre ++ (ptr, s, 0) :: post) ->
                             i < HDRP n \/ n + sz - WSIZE <= i) ->
               mem st' i = mem st i).
Proof.
  intros Hp Hfree A1 A2 Hfuel.
  destruct (coalesce_ok fuel st L pre ptr s post Hp Hfree A1 A2 Hfuel)
    as (st' & bs' & L' & ptr' & s' & Hco & Hok' & _ & _ & _ & Eb & _ & _ & _ & Hfr & Hsh).
  destruct Hsh as (front & back & -> & Hfront & Hback).
  exists st', L', front, back, ptr', s'.
  split; [exact Hco|]. split; [exact Hok'|]. split; [exact Hfront|]. split; [exact Hback|].
  split; [exact Eb | exact Hfr].
Qed.

Lemma coalesce_merges_free_neighbours_witness :
  exists st' L' front back ptr' s',
    coalesce 100 (state_of heap_freeing) 1096 = Some (st', ptr') /\
    heap_ok st' (front ++ (ptr', s', 0) :: back) L' /\
    ptr' = 1080 /\ s' = 48 /\
    front = [(1016, 64, 1)] /\
    back = [(1128, 16, 1); (1144, 16, 0); (1160, 16, 1); (1176, 4000, 0)] /\
    mem_brk st' = mem_brk (state_of heap_freeing).
Proof.
  destruct (coalesce_merges_free_neighbours 100 (state_of heap_freeing) index_freeing
              [(1016, 64, 1); (1080, 16, 0)] 1096 16
              [(1112, 16, 0); (1128, 16, 1); (1144, 16, 0); (1160, 16, 1); (1176, 4000, 0)])
    as (st' & L' & front & back & ptr' & s' & Hco & Hok & Hfront & Hback & Eb & _).
  - exact heap_freeing_pre.
  - intros n sz Hn. cbn [app In] in Hn.
    destruct Hn as [E|[E|[E|[E|[E|[E|[E|[E|[]]]]]]]]]; try discriminate;
      injection E as <- <-; [exists 4 | exists 4 | exists 4 | exists 4 | exists 11];
      cbn; tauto.
  - reflexivity.
  - reflexivity.
  - lia.
  - assert (Hq : match coalesce 100 (state_of heap_freeing) 1096 with
                 | Some (_, q) => q = 1080
                 | None => False
                 end) by (vm_compute; reflexivity).
    rewrite Hco in Hq. subst ptr'.
    assert (Efront : front = [(1016, 64, 1)]).
    { destruct Hfront as [(_ & E)|(sv & E)]; [discriminate E|].
      change [(1016, 64, 1); (1080, 16, 0)] with ([(1016, 64, 1)] ++ [(1080, 16, 0)]) in E.
      apply app_inj_tail in E. destruct E as (E & _). symmetry. exact E. }
    assert (Eback : back = [(1128, 16, 1); (1144, 16, 0); (1160, 16, 1); (1176, 4000, 0)]
                    /\ s' = 48).
    { destruct Hback as [(E & _)|(sx & E & Es)].
      - exfalso. subst front back.
        pose proof (hk_coalesced _ _ _ Hok) as A. cbn in A. discriminate A.
      - injection E as <- <-. split; [reflexivity | lia]. }
    destruct Eback as (Eback & Es).
    exists st', L', front, back, 1080, s'.
    split; [exact Hco|]. split; [exact Hok|]. split; [reflexivity|]. split; [exact Es|].
    split; [exact Efront|]. split; [exact Eback | exact Eb].
Defined.

(** X12.  [place(ptr, asize)] on a free block of a well-formed heap, for an
    aligned [asize] of at least 16 bytes that the block can hold: the heap is
    well formed again; the pointer returned is the payload of an allocated
    block of at least [asize] bytes that lies inside the old free block; it
    is the only new allocation, the break stays and no byte outside the free
    blocks changes. *)
Theorem place_allocates_inside_free_block (fuel : nat) (st : heap) (bs : list (Z * Z * Z))
  (L : Z -> list Z) (ptr s asize : Z) :
  heap_ok st bs L -> In (ptr, s, 0) bs ->
  asize mod 8 = 0 -> 2 * DSIZE <= asize <= s -> (0 < fuel)%nat ->
  exists st' bs' L' p' s',
    place fuel st ptr asize = Some (st', p') /\ heap_ok st' bs' L' /\
    In (p', s', 1) bs' /\ asize <= s' /\ ptr <= p' /\ p' + s' <= ptr + s /\
    mem_brk st' = mem_brk st /\
    (forall n sz, In (n, sz, 1) bs' <-> In (n, sz, 1) bs \/ (n, sz) = (p', s')) /\
    (forall i, (forall n sz, In (n, sz, 0) bs -> i < HDRP n \/ n + sz - WSIZE <= i) ->
               mem st' i = mem st i).
Proof.
  intros Hok Hin H8 Hsize Hfuel.
  destruct (place_ok fuel st bs L ptr s asize Hok Hin H8 Hsize Hfuel)
    as (st' & bs' & L' & p' & s' & Hpl & Hok' & Hin' & Hs' & Hlo & Hhi & Eb & _ & _ & Hal & Hfr).
  exists st', bs', L', p', s'. repeat (split; [assumption|]). exact Hfr.
Qed.

Lemma place_allocates_inside_free_block_witness :
  exists st' bs' L' p' s',
    place 100 (state_of heap_one_free) 1120 104 = Some (st', p') /\ heap_ok st' bs' L' /\
    In (p', s', 1) bs' /\ 104 <= s' /\ 1120 <= p' /\ p' + s' <= 1120 + 4056.
Proof.
  destruct (place_allocates_inside_free_block 100 (state_of heap_one_free) blocks_one_free
              index_one_free 1120 4056 104 heap_one_free_ok)
    as (st' & bs' & L' & p' & s' & Hpl & Hok & Hin & Hs & Hlo & Hhi & _).
  - do 5 right. left. reflexivity.
  - reflexivity.
  - unfold DSIZE. lia.
  - lia.
  - exists st', bs', L', p', s'. repeat (split; [assumption|]). exact Hhi.
Defined.

(** X13.  [extend_heap(size)] on a well-formed heap, for an aligned [size]
    of at least 16 bytes.  When [mem_sbrk] has no room it returns [NULL] and
    changes nothing.  Otherwise the break moves up by [size], the heap is
    well formed again and the block returned is free and the last one of the
    heap: the new block itself after an allocated last block, the old last
    block grown by [size] when that was free.  No allocated block and no byte
    below the old epilogue outside the free blocks changes. *)
Theorem extend_heap_appends_or_grows_last (fuel : nat) (st : heap) (bs : list (Z * Z * Z))
  (L : Z -> list Z) (size : Z) :
  heap_ok st bs L -> size mod 8 = 0 -> 2 * DSIZE <= size < 2 ^ 32 -> (0 < fuel)%nat ->
  (mem_max_addr st < mem_brk st + size -> extend_heap fuel st size = Some (st, NULL)) /\
  (mem_brk st + size <= mem_max_addr st ->
   exists st' bs' L' ptr s',
     extend_heap fuel st size = Some (st', ptr) /\ ptr <> NULL /\
     heap_ok st' bs' L' /\ mem_brk st' = mem_brk st + size /\
     (bs' = bs ++ [(ptr, s', 0)] /\ ptr = mem_brk st /\ s' = size \/
      exists front sv, bs = front ++ [(ptr, sv, 0)] /\ bs' = front ++ [(ptr, s', 0)] /\
                       s' = sv + size) /\
     (forall i, (forall n sz, In (n, sz, 0) bs -> i < HDRP n \/ n + sz - WSIZE <= i) ->
                i < HDRP (mem_brk st) -> mem st' i = mem st i)).
Proof.
  intros Hok H8 Hsize Hfuel.
  destruct (extend_heap_ok fuel st bs L size Hok H8 Hsize Hfuel) as (Hfail & Hgrow).
  split; [exact Hfail|]. intros Hroom.
  destruct (Hgrow Hroom)
    as (st' & bs' & L' & ptr & s' & Hex & Hnz & Hok' & _ & _ & Eb & _ & _ & _ & Hfr & Hsh).
  exists st', bs', L', ptr, s'. repeat (split; [assumption|]). exact Hfr.
Qed.

Lemma extend_heap_appends_or_grows_last_witness :
  exists st' bs' L' ptr s',
    extend_heap 100 (state_of heap_one_free) 4096 = Some (st', ptr) /\ ptr <> NULL /\
    heap_ok st' bs' L' /\ mem_brk st' = mem_brk (state_of heap_one_free) + 4096 /\
    (bs' = blocks_one_free ++ [(ptr, s', 0)] /\ ptr = mem_brk (state_of heap_one_free)
     /\ s' = 4096 \/
     exists front sv, blocks_one_free = front ++ [(ptr, sv, 0)] /\
                      bs' = front ++ [(ptr, s', 0)] /\ s' = sv + 4096).
Proof.
  destruct (extend_heap_appends_or_grows_last 100 (state_of heap_one_free) blocks_one_free
              index_one_free 4096 heap_one_free_ok) as (_ & Hgrow).
  - reflexivity.
  - unfold DSIZE. change (2 ^ 32) with 4294967296. lia.
  - lia.
  - destruct Hgrow as (st' & bs' & L' & ptr & s' & Hex & Hnz & Hok & Eb & Hsh & _).
    + vm_compute. discriminate.
    + exists st', bs', L', ptr, s'. repeat (split; [assumption|]). exact Hsh.
Defined.

(** * The heap under the public operations *)

(** X14.  [mm_init] on an empty arena at a positive, 8-byte aligned address:
    it returns -1 when the arena cannot hold the 16 bytes of padding,
    prologue and epilogue plus the first chunk of [INITCHUNKSIZE] bytes;
    otherwise it returns 0 and the heap is well formed and consists of one
    free block of [INITCHUNKSIZE] bytes behind the prologue. *)
Theorem mm_init_builds_heap (fuel : nat) (st0 : heap) :
  0 < mem_start_brk st0 -> mem_start_brk st0 mod 8 = 0 ->
  mem_brk st0 = mem_start_brk st0 -> mem_max_addr st0 < 2 ^ 32 -> (0 < fuel)%nat ->
  exists st' r,
    mm_init fuel st0 = Some (st', r) /\
    ((r = -1 /\ mem_max_addr st0 < mem_start_brk st0 + 4 * WSIZE + INITCHUNKSIZE) \/
     (r = 0 /\ mem_start_brk st0 + 4 * WSIZE + INITCHUNKSIZE <= mem_max_addr st0 /\
      mem_brk st' = mem_start_brk st0 + 4 * WSIZE + INITCHUNKSIZE /\
      exists L, heap_ok st' [(mem_start_brk st0 + 4 * WSIZE, INITCHUNKSIZE, 0)] L)).
Proof.
  intros Hpos H8 Hbrk Hmax Hfuel.
  destruct (mm_init_ok fuel st0 Hpos H8 Hbrk Hmax Hfuel) as (st' & r & Hinit & Hcase).
  exists st', r. split; [exact Hinit|].
  destruct Hcase as [H|(Hr & Hroom & _ & _ & bs & L & Hok & _ & -> & Eb)]; [left; exact H|].
  right. split; [exact Hr|]. split; [exact Hroom|]. split; [exact Eb|]. exists L. exact Hok.
Qed.

Lemma mm_init_builds_heap_witness :
  exists st' r,
    mm_init 100 arena = Some (st', r) /\
    ((r = -1 /\ mem_max_addr arena < mem_start_brk arena + 4 * WSIZE + INITCHUNKSIZE) \/
     (r = 0 /\ mem_start_brk arena + 4 * WSIZE + INITCHUNKSIZE <= mem_max_addr arena /\
      mem_brk st' = mem_start_brk arena + 4 * WSIZE + INITCHUNKSIZE /\
      exists L, heap_ok st' [(mem_start_brk arena + 4 * WSIZE, INITCHUNKSIZE, 0)] L)).
Proof.
  apply (mm_init_builds_heap 100 arena).
  - reflexivity.
  - reflexivity.
  - reflexivity.
  - reflexivity.
  - lia.
Defined.

(** X15.  [mm_malloc] on a well-formed heap, for a request whose adjusted
    size does not wrap: a [NULL] result leaves the heap untouched; after any
    other result the heap is well formed, the block returned is allocated
    and is the only new allocation, it overlaps none of the blocks that were
    allocated before, and those keep every byte they held. *)
Theorem mm_malloc_keeps_live_blocks (fuel : nat) (st : heap) (bs : list (Z * Z * Z))
  (L : Z -> list Z) (size : Z) :
  heap_ok st bs L -> 0 < size -> size + 15 < 2 ^ 32 -> (length bs < fuel)%nat ->
  exists st' p,
    mm_malloc fuel st size = Some (st', p) /\
    (p = NULL -> st' = st) /\
    (p <> NULL ->
     exists bs' L' s',
       heap_ok st' bs' L' /\ In (p, s', 1) bs' /\
       (forall n sz, In (n, sz, 1) bs' <-> In (n, sz, 1) bs \/ (n, sz) = (p, s')) /\
       (forall n sz, In (n, sz, 1) bs -> p + s' <= n \/ n + sz <= p) /\
       (forall n sz i, In (n, sz, 1) bs -> HDRP n <= i < n + sz - WSIZE ->
                       mem st' i = mem st i)).
Proof.
  intros Hok Hpos Hnw Hfuel.
  destruct (mm_malloc_ok fuel st bs L size Hok Hpos Hnw Hfuel) as (st' & p & Hres & Hcase).
  exists st', p. split; [exact Hres|].
  destruct Hcase as [(-> & -> & _)|(bs' & L' & s' & Hok' & Hin' & _ & _ & _ & _ & Hal & Hnew & Hfr & _)].
  - split; [reflexivity | contradiction].
  - pose proof (hp_core _ _ _ (hk_pre _ _ _ Hok')) as Hc'.
    destruct (core_block st' _ Hc' _ _ _ Hin') as (_ & _ & Hp & _).
    split; [intros ->; unfold NULL in Hp; lia|]. intros _.
    exists bs', L', s'. split; [exact Hok'|]. split; [exact Hin'|]. split; [exact Hal|].
    split; [|exact Hfr].
    intros n sz Hn.
    assert (Hn' : In (n, sz, 1) bs') by (apply Hal; left; exact Hn).
    destruct (tiles_disjoint _ _ _ _ _ _ _ _ _ _ (hc_tiles _ _ Hc') Hin' Hn') as [E|Hd];
      [|exact Hd].
    exfalso. apply Hnew. exists sz. injection E as -> ->. exact Hn.
Qed.

Lemma mm_malloc_keeps_live_blocks_witness :
  exists st' p,
    mm_malloc 100 (state_of heap_one_free) 100 = Some (st', p) /\
    (p = NULL -> st' = state_of heap_one_free) /\
    (p <> NULL ->
     exists bs' L' s',
       heap_ok st' bs' L' /\ In (p, s', 1) bs' /\
       (forall n sz, In (n, sz, 1) bs' <-> In (n, sz, 1) blocks_one_free \/ (n, sz) = (p, s')) /\
       (forall n sz, In (n, sz, 1) blocks_one_free -> p + s' <= n \/ n + sz <= p) /\
       (forall n sz i, In (n, sz, 1) blocks_one_free -> HDRP n <= i < n + sz - WSIZE ->
                       mem st' i = mem (state_of heap_one_free) i)).
Proof.
  apply (mm_malloc_keeps_live_blocks 100 (state_of heap_one_free) blocks_one_free
           index_one_free 100 heap_one_free_ok).
  - lia.
  - change (2 ^ 32) with 4294967296. lia.
  - cbn [length blocks_one_free]. lia.
Defined.

(** X16.  On a well-formed heap and for a request [size] with
    [size + 15 < 2^32], a non-NULL result of [mm_malloc] is 8-byte aligned,
    lies behind the prologue, its block ends at or before the epilogue, is
    tagged allocated and has at least [size] bytes between header and
    footer. *)
Theorem mm_malloc_block (fuel : nat) (st : heap) (bs : list (Z * Z * Z))
  (L : Z -> list Z) (size : Z) :
  heap_ok st bs L -> 0 < size -> size + 15 < 2 ^ 32 -> (length bs < fuel)%nat ->
  exists st' p,
    mm_malloc fuel st size = Some (st', p) /\
    (p <> NULL ->
     p mod 8 = 0 /\
     mem_start_brk st' + 2 * WSIZE < p /\
     p + GET_SIZE (mem st') (HDRP p) <= mem_brk st' /\
     GET_ALLOC (mem st') (HDRP p) = 1 /\
     size <= GET_SIZE (mem st') (HDRP p) - DSIZE).
Proof.
  intros Hok Hpos Hnw Hfuel.
  destruct (mm_malloc_ok fuel st bs L size Hok Hpos Hnw Hfuel) as (st' & p & Hres & Hcase).
  exists st', p. split; [exact Hres|]. intros Hp.
  destruct Hcase as [(? & _)|(bs' & L' & s' & Hok' & Hin' & Hs' & _)]; [contradiction|].
  pose proof (hp_core _ _ _ (hk_pre _ _ _ Hok')) as Hc'.
  destruct (core_block st' _ Hc' _ _ _ Hin') as (C1 & C2 & _ & C4 & _ & _ & _ & SZ & AL & _).
  destruct (core_first st' _ Hc') as (F1 & _).
  rewrite SZ, AL. unfold WSIZE, DSIZE in *. repeat split; try assumption; lia.
Qed.

Lemma mm_malloc_block_witness :
  exists st' p,
    mm_malloc 100 (state_of heap_one_free) 100 = Some (st', p) /\
    (p <> NULL ->
     p mod 8 = 0 /\
     mem_start_brk st' + 2 * WSIZE < p /\
     p + GET_SIZE (mem st') (HDRP p) <= mem_brk st' /\
     GET_ALLOC (mem st') (HDRP p) = 1 /\
     100 <= GET_SIZE (mem st') (HDRP p) - DSIZE).
Proof.
  apply (mm_malloc_block 100 (state_of heap_one_free) blocks_one_free index_one_free 100
           heap_one_free_ok).
  - lia.
  - change (2 ^ 32) with 4294967296. lia.
  - cbn [length blocks_one_free]. lia.
Defined.

(** X17.  When [mm_malloc] gives up and when it grows the heap, on a
    well-formed heap and for a request that does not wrap: it returns [NULL]
    only if no free block has the adjusted size and the arena has no room
    for [MAX(asize, CHUNKSIZE)] more bytes; and it moves the break, by
    exactly that amount, only if no free block has the adjusted size. *)
Theorem mm_malloc_fails_only_when_exhausted (fuel : nat) (st : heap)
  (bs : list (Z * Z * Z)) (L : Z -> list Z) (size : Z) :
  heap_ok st bs L -> 0 < size -> size + 15 < 2 ^ 32 -> (length bs < fuel)%nat ->
  exists st' p,
    mm_malloc fuel st size = Some (st', p) /\
    (p = NULL ->
     mem_max_addr st < mem_brk st + MAX (adjust size) CHUNKSIZE /\
     forall n s, In (n, s, 0) bs -> s < adjust size) /\
    (mem_brk st' <> mem_brk st ->
     mem_brk st' = mem_brk st + MAX (adjust size) CHUNKSIZE /\
     forall n s, In (n, s, 0) bs -> s < adjust size).
Proof.
  intros Hok Hpos Hnw Hfuel.
  destruct (mm_malloc_ok fuel st bs L size Hok Hpos Hnw Hfuel) as (st' & p & Hres & Hcase).
  exists st', p. split; [exact Hres|].
  destruct Hcase as [(-> & -> & Hroom & Hnofit)
                    |(bs' & L' & s' & Hok' & Hin' & _ & _ & _ & _ & _ & _ & _ & Hbrk)].
  - split; [intros _; split; assumption | intros H; contradiction].
  - destruct (core_block st' _ (hp_core _ _ _ (hk_pre _ _ _ Hok')) _ _ _ Hin') as (_ & _ & Hp & _).
    split; [intros ->; unfold NULL in Hp; lia|].
    intros Hmoved. destruct Hbrk as [E|H]; [contradiction | exact H].
Qed.

Lemma mm_malloc_fails_only_when_exhausted_witness :
  exists st' p,
    mm_malloc 100 (state_of heap_one_free) 5000 = Some (st', p) /\
    (p = NULL ->
     mem_max_addr (state_of heap_one_free)
     < mem_brk (state_of heap_one_free) + MAX (adjust 5000) CHUNKSIZE /\
     forall n s, In (n, s, 0) blocks_one_free -> s < adjust 5000) /\
    (mem_brk st' <> mem_brk (state_of heap_one_free) ->
     mem_brk st' = mem_brk (state_of heap_one_free) + MAX (adjust 5000) CHUNKSIZE /\
     forall n s, In (n, s, 0) blocks_one_free -> s < adjust 5000).
Proof.
  apply (mm_malloc_fails_only_when_exhausted 100 (state_of heap_one_free) blocks_one_free
           index_one_free 5000 heap_one_free_ok).
  - lia.
  - change (2 ^ 32) with 4294967296. lia.
  - cbn [length blocks_one_free]. lia.
Defined.

(** X18.  [mm_free(ptr)] on an allocated block of a well-formed heap: the
    heap is well formed again, so the block has been merged with its free
    neighbours; [ptr] lies in a free block now and is the only allocation
    that went away; the break has not moved, and no byte outside the block
    freed and the blocks that were free already has changed. *)
Theorem mm_free_releases_block (fuel : nat) (st : heap) (bs : list (Z * Z * Z))
  (L : Z -> list Z) (ptr s : Z) :
  heap_ok st bs L -> In (ptr, s, 1) bs -> (0 < fuel)%nat ->
  exists st' bs' L',
    mm_free fuel st ptr = Some st' /\ heap_ok st' bs' L' /\
    mem_brk st' = mem_brk st /\
    (exists p' s', In (p', s', 0) bs' /\ p' <= ptr /\ ptr + s <= p' + s') /\
    (forall n sz, In (n, sz, 1) bs' <-> In (n, sz, 1) bs /\ n <> ptr) /\
    (forall i, (forall n sz, In (n, sz, 0) bs -> i < HDRP n \/ n + sz - WSIZE <= i) ->
               (i < HDRP ptr \/ ptr + s - WSIZE <= i) -> mem st' i = mem st i).
Proof.
  intros Hok Hin Hfuel.
  destruct (mm_free_ok fuel st bs L ptr s Hok Hin Hfuel)
    as (st' & bs' & L' & Hfree & Hok' & Eb & _ & _ & Hal & Hfr & Hblock & _).
  exists st', bs', L'. repeat (split; [assumption|]). exact Hfr.
Qed.

Lemma mm_free_releases_block_witness :
  exists st' bs' L',
    mm_free 100 (state_of heap_one_free) 1032 = Some st' /\ heap_ok st' bs' L' /\
    mem_brk st' = mem_brk (state_of heap_one_free) /\
    (exists p' s', In (p', s', 0) bs' /\ p' <= 1032 /\ 1032 + 16 <= p' + s') /\
    (forall n sz, In (n, sz, 1) bs' <-> In (n, sz, 1) blocks_one_free /\ n <> 1032).
Proof.
  destruct (mm_free_releases_block 100 (state_of heap_one_free) blocks_one_free
              index_one_free 1032 16 heap_one_free_ok)
    as (st' & bs' & L' & Hfree & Hok & Eb & Hblock & Hal & _).
  - right. left. reflexivity.
  - lia.
  - exists st', bs', L'. repeat (split; [assumption|]). exact Hal.
Defined.

(** * Operations one after the other *)

(** X19.  [mm_malloc] followed by [mm_free] of the block it returned, on a
    well-formed heap: the heap is well formed, exactly the blocks allocated
    before are allocated, and they hold the bytes they held. *)
Theorem malloc_then_free_restores_allocations (fuel : nat) (st : heap)
  (bs : list (Z * Z * Z)) (L : Z -> list Z) (size : Z) :
  heap_ok st bs L -> 0 < size -> size + 15 < 2 ^ 32 -> (length bs < fuel)%nat ->
  exists st1 p,
    mm_malloc fuel st size = Some (st1, p) /\
    (p <> NULL ->
     exists st2 bs2 L2,
       mm_free fuel st1 p = Some st2 /\ heap_ok st2 bs2 L2 /\
       (forall n sz, In (n, sz, 1) bs2 <-> In (n, sz, 1) bs) /\
       (forall n sz i, In (n, sz, 1) bs -> HDRP n <= i < n + sz - WSIZE ->
                       mem st2 i = mem st i)).
Proof.
  intros Hok Hpos Hnw Hfuel.
  destruct (mm_malloc_ok fuel st bs L size Hok Hpos Hnw Hfuel) as (st1 & p & Hres & Hcase).
  exists st1, p. split; [exact Hres|]. intros Hp.
  destruct Hcase as [(? & _)|(bs1 & L1 & s1 & Hok1 & Hin1 & _ & _ & _ & _ & Hal1 & Hnew & Hfr1 & _)];
    [contradiction|].
  pose proof (hp_core _ _ _ (hk_pre _ _ _ Hok1)) as Hc1.
  destruct (mm_free_ok fuel st1 bs1 L1 p s1 Hok1 Hin1)
    as (st2 & bs2 & L2 & Hfree & Hok2 & _ & _ & _ & Hal2 & Hfr2 & _); [lia|].
  exists st2, bs2, L2. split; [exact Hfree|]. split; [exact Hok2|]. split.
  - intros n sz. rewrite Hal2, Hal1. split.
    + intros ([H|E] & Hne); [exact H|]. injection E as -> ->. contradiction.
    + intros H. split; [left; exact H|]. intros ->. apply Hnew. exists sz. exact H.
  - intros n sz i Hn Hi.
    assert (Hn1 : In (n, sz, 1) bs1) by (apply Hal1; left; exact Hn).
    rewrite Hfr2; [exact (Hfr1 n sz i Hn Hi) | |].
    + apply (allocated_not_free st1 bs1 n sz i Hc1 Hn1 Hi).
    + destruct (tiles_disjoint _ _ _ _ _ _ _ _ _ _ (hc_tiles _ _ Hc1) Hin1 Hn1) as [E|Hd].
      * exfalso. apply Hnew. exists sz. injection E as -> ->. exact Hn.
      * unfold HDRP, WSIZE in *. lia.
Qed.

Lemma malloc_then_free_restores_allocations_witness :
  exists st1 p,
    mm_malloc 100 (state_of heap_one_free) 100 = Some (st1, p) /\
    (p <> NULL ->
     exists st2 bs2 L2,
       mm_free 100 st1 p = Some st2 /\ heap_ok st2 bs2 L2 /\
       (forall n sz, In (n, sz, 1) bs2 <-> In (n, sz, 1) blocks_one_free) /\
       (forall n sz i, In (n, sz, 1) blocks_one_free -> HDRP n <= i < n + sz - WSIZE ->
                       mem st2 i = mem (state_of heap_one_free) i)).
Proof.
  apply (malloc_then_free_restores_allocations 100 (state_of heap_one_free) blocks_one_free
           index_one_free 100 heap_one_free_ok).
  - lia.
  - change (2 ^ 32) with 4294967296. lia.
  - cbn [length blocks_one_free]. lia.
Defined.

(** X20.  A block that has been freed is used again: after [mm_free(ptr)]
    of a block of [s] bytes, [mm_malloc] of a request whose adjusted size is
    at most [s] succeeds without moving the break. *)
Theorem free_then_malloc_reuses_memory (fuel : nat) (st : heap) (bs : list (Z * Z * Z))
  (L : Z -> list Z) (ptr s size : Z) :
  heap_ok st bs L -> In (ptr, s, 1) bs ->
  0 < size -> size + 15 < 2 ^ 32 -> adjust size <= s -> (length bs < fuel)%nat ->
  exists st1 st2 p,
    mm_free fuel st ptr = Some st1 /\
    mm_malloc fuel st1 size = Some (st2, p) /\
    p <> NULL /\ mem_brk st2 = mem_brk st.
Proof.
  intros Hok Hin Hpos Hnw Hfits Hfuel.
  destruct (mm_free_ok fuel st bs L ptr s Hok Hin)
    as (st1 & bs1 & L1 & Hfree & Hok1 & Eb & _ & _ & _ & _ & (p' & s' & Hin' & Hlo & Hhi) & Hlen);
    [lia|].
  destruct (mm_malloc_ok fuel st1 bs1 L1 size Hok1 Hpos Hnw) as (st2 & p & Hres & Hcase); [lia|].
  exists st1, st2, p. split; [exact Hfree|]. split; [exact Hres|].
  destruct Hcase as [(_ & _ & _ & Hnofit)
                    |(bs2 & L2 & s2 & Hok2 & Hin2 & _ & _ & _ & _ & _ & _ & _ & Hbrk)].
  - exfalso. specialize (Hnofit p' s' Hin'). lia.
  - destruct (core_block st2 _ (hp_core _ _ _ (hk_pre _ _ _ Hok2)) _ _ _ Hin2) as (_ & _ & Hp & _).
    split; [unfold NULL; lia|].
    destruct Hbrk as [E|(_ & Hnofit)]; [congruence|].
    exfalso. specialize (Hnofit p' s' Hin'). lia.
Qed.

Lemma free_then_malloc_reuses_memory_witness :
  exists st1 st2 p,
    mm_free 100 (state_of heap_one_free) 1048 = Some st1 /\
    mm_malloc 100 st1 20 = Some (st2, p) /\
    p <> NULL /\ mem_brk st2 = mem_brk (state_of heap_one_free).
Proof.
  apply (free_then_malloc_reuses_memory 100 (state_of heap_one_free) blocks_one_free
           index_one_free 1048 32 20 heap_one_free_ok).
  - do 2 right. left. reflexivity.
  - lia.
  - change (2 ^ 32) with 4294967296. lia.
  - vm_compute. discriminate.
  - cbn [length blocks_one_free]. lia.
Defined.

(** * [mm_realloc], path by path *)



(** X22.  [mm_realloc(ptr, size)] on an allocated block of a well-formed
    heap in an arena of less than 2 GiB, for [0 < size < 2^31 - 143] and a
    result other than [NULL]: the heap is well formed again, with the block
    returned allocated, of at least [size + DSIZE] bytes and the only
    allocation that replaces [ptr], on every path but one: the block behind
    [ptr] must not be a free block that is too small and is followed by
    further blocks. *)
Theorem mm_realloc_keeps_heap (fuel : nat) (st : heap) (bs : list (Z * Z * Z))
  (L : Z -> list Z) (ptr s size : Z) (st' : heap) (q : Z) :
  heap_ok st bs L -> In (ptr, s, 1) bs ->
  0 < size -> size + 143 < 2 ^ 31 -> mem_max_addr st - mem_start_brk st < 2 ^ 31 ->
  (length bs < fuel)%nat ->
  (forall pre nx sx post, bs = pre ++ (ptr, s, 1) :: (nx, sx, 0) :: post ->
                          s + sx < adjust size + REALLOC_BUFFER -> post = []) ->
  mm_realloc fuel st ptr size = Some (st', q) -> q <> NULL ->
  exists bs' L' s',
    heap_ok st' bs' L' /\ In (q, s', 1) bs' /\ size + DSIZE <= s' /\
    forall n sz, In (n, sz, 1) bs' <->
                 (In (n, sz, 1) bs /\ n <> ptr) \/ (n, sz) = (q, s').
Proof.
  intros Hok Hin Hpos Hsmall Hmax Hfuel Hlast Hres Hq.
  exact (proj2 (mm_realloc_ok fuel st bs L ptr s size st' q Hok Hin Hpos Hsmall Hmax Hfuel
                  Hres Hq) Hlast).
Qed.

Lemma mm_realloc_keeps_heap_witness :
  exists st' q bs' L' s',
    mm_realloc 100 (state_of heap_high) 4143972368 100 = Some (st', q) /\ q <> NULL /\
    heap_ok st' bs' L' /\ In (q, s', 1) bs' /\ 100 + DSIZE <= s'.
Proof.
  assert (H : match mm_realloc 100 (state_of heap_high) 4143972368 100 with
              | Some (_, q) => q <> NULL
              | None => False
              end) by (vm_compute; discriminate).
  destruct (mm_realloc 100 (state_of heap_high) 4143972368 100) as [[st' q]|] eqn:E;
    [|contradiction].
  destruct (mm_realloc_keeps_heap 100 (state_of heap_high) blocks_high index_high
              4143972368 16 100 st' q heap_high_ok) as (bs' & L' & s' & Hok & Hin & Hs & _).
  - left. reflexivity.
  - lia.
  - change (2 ^ 31) with 2147483648. lia.
  - vm_compute. reflexivity.
  - cbn [length blocks_high]. lia.
  - intros pre nx sx post Ebs _. exfalso. cbv [blocks_high] in Ebs.
    do 4 (destruct pre as [|? pre]; cbn [app] in Ebs; [discriminate Ebs|]). discriminate Ebs.
  - exact E.
  - exact H.
  - exists st', q, bs', L', s'. split; [reflexivity|]. split; [exact H|].
    split; [exact Hok|]. split; [exact Hin | exact Hs].
Defined.



(** * The heap walk after [mm_malloc] and [mm_free] *)

(** X25.  After [mm_malloc] (for a request that does not wrap) and after
    [mm_free] of an allocated block, on a well-formed heap, the walk from the
    first block along [NEXT_BLKP] to the epilogue meets no two free blocks in
    a row, however much fuel the walk is given beyond the number of
    blocks. *)
Theorem no_adjacent_free_after_malloc_and_free (fuel : nat) (st : heap)
  (bs : list (Z * Z * Z)) (L : Z -> list Z) :
  heap_ok st bs L -> (length bs < fuel)%nat ->
  (forall size, 0 < size -> size + 15 < 2 ^ 32 ->
     exists st' p,
       mm_malloc fuel st size = Some (st', p) /\
       exists n, forall f, (n < f)%nat ->
         adjacent_free (heap_blocks f (mem st') (first_block st')) = false) /\
  (forall ptr s, In (ptr, s, 1) bs ->
     exists st',
       mm_free fuel st ptr = Some st' /\
       exists n, forall f, (n < f)%nat ->
         adjacent_free (heap_blocks f (mem st') (first_block st')) = false).
Proof.
  intros Hok Hfuel. split.
  - intros size Hpos Hnw.
    destruct (mm_malloc_ok fuel st bs L size Hok Hpos Hnw Hfuel) as (st' & p & Hres & Hcase).
    exists st', p. split; [exact Hres|].
    destruct Hcase as [(_ & -> & _)|(bs' & L' & s' & Hok' & _)].
    + exists (length bs). intros f Hf. apply (heap_ok_walk st bs L f Hok Hf).
    + exists (length bs'). intros f Hf. apply (heap_ok_walk st' bs' L' f Hok' Hf).
  - intros ptr s Hin.
    destruct (mm_free_ok fuel st bs L ptr s Hok Hin) as (st' & bs' & L' & Hfree & Hok' & _);
      [lia|].
    exists st'. split; [exact Hfree|].
    exists (length bs'). intros f Hf. apply (heap_ok_walk st' bs' L' f Hok' Hf).
Qed.

Lemma no_adjacent_free_after_malloc_and_free_witness :
  (forall size, 0 < size -> size + 15 < 2 ^ 32 ->
     exists st' p,
       mm_malloc 100 (state_of heap_one_free) size = Some (st', p) /\
       exists n, forall f, (n < f)%nat ->
         adjacent_free (heap_blocks f (mem st') (first_block st')) = false) /\
  (forall ptr s, In (ptr, s, 1) blocks_one_free ->
     exists st',
       mm_free 100 (state_of heap_one_free) ptr = Some st' /\
       exists n, forall f, (n < f)%nat ->
         adjacent_free (heap_blocks f (mem st') (first_block st')) = false).
Proof.
  apply (no_adjacent_free_after_malloc_and_free 100 (state_of heap_one_free) blocks_one_free
           index_one_free heap_one_free_ok).
  cbn [length blocks_one_free]. lia.
Defined.
